(** * zimg / upscale: the tiled super-resolution pipeline of [upscale/main.py]

    A shallow embedding of [ProgressTracker], [process_tile] and
    [upscale_image], followed by the properties of the partitioner, the
    dispatcher, the compositor and the progress meter.

    Conventions of the embedding:
    - Python [int] is [Z]; [//] on a positive divisor is [Z.div] (both floor).
    - In the pipeline Python [float] clock readings and true division are
      exact rationals [Q].  The progress meter is modelled a second time over
      IEEE doubles ([Binary64], [Tracker64]) for what depends on rounding.
    - A numpy image is a shape together with a pixel function; the channel
      axis is folded into the pixel.
    - Effects (clock reads, stdout, OpenCV and file-system calls, exceptions)
      live in a state-and-exception monad [M] over a [World] that carries the
      number of clock reads made so far and the trace of events. *)

From Stdlib Require Import String ZArith QArith List Lia Bool Permutation
  SpecFloat.
Import ListNotations.
Open Scope Z_scope.

(** ** Python built-ins used by the source *)
Module Py.

(** [range(n)] *)
Definition range (n : Z) : list Z := map Z.of_nat (seq 0 (Z.to_nat n)).

(** [int(x)] on a float: truncation towards zero. *)
Definition int (x : Q) : Z := Z.quot (Qnum x) (Zpos (Qden x)).

(** Index adjustment of a slice bound against an axis of [length] items
    (step 1), as [slice.indices] does it. *)
Definition adjust_index (i length : Z) : Z :=
  if i <? 0 then Z.max 0 (i + length) else Z.min i length.

Definition slice_len (start stop length : Z) : Z :=
  let s := adjust_index start length in
  let e := adjust_index stop length in
  if s <? e then e - s else 0.

End Py.

(** ** numpy arrays of pixels *)
Module Np.

Definition Pixel := (Z * Z * Z)%type.

(** The cast to [uint8] that numpy applies to an integer stored in a [uint8]
    array: the low eight bits. *)
Definition uint8 (v : Z) : Z := v mod 256.

Definition as_uint8 (p : Pixel) : Pixel :=
  let '(b, g, r) := p in (uint8 b, uint8 g, uint8 r).

Record ndarray := mk_ndarray {
  shape0 : Z;                  (* rows, [a.shape[0]] *)
  shape1 : Z;                  (* columns, [a.shape[1]] *)
  item : Z -> Z -> Pixel       (* [a[row, col]] *)
}.

(** [np.zeros((h, w, 3), dtype=np.uint8)]; what is stored in it later is
    cast by [setslice]. *)
Definition zeros (h w : Z) : ndarray :=
  {| shape0 := h; shape1 := w; item := fun _ _ => (0, 0, 0) |}.

(** [a[r0:r1, c0:c1]] *)
Definition getslice (a : ndarray) (r0 r1 c0 c1 : Z) : ndarray :=
  {| shape0 := Py.slice_len r0 r1 (shape0 a);
     shape1 := Py.slice_len c0 c1 (shape1 a);
     item := fun i j =>
       item a (Py.adjust_index r0 (shape0 a) + i)
              (Py.adjust_index c0 (shape1 a) + j) |}.

(** One axis of a value broadcasts onto one axis of the target when the
    lengths agree or the value has length 1. *)
Definition broadcasts (value target : Z) : bool :=
  (value =? target) || (value =? 1).

(** The region [rows [r, r + h) x columns [c, c + w)] of an array that a
    slice [r0:r1, c0:c1] selects. *)
Definition Region := (Z * Z * Z * Z)%type.

Definition target_region (a : ndarray) (r0 r1 c0 c1 : Z) : Region :=
  (Py.adjust_index r0 (shape0 a), Py.slice_len r0 r1 (shape0 a),
   Py.adjust_index c0 (shape1 a), Py.slice_len c0 c1 (shape1 a)).

Definition in_region (g : Region) (i j : Z) : bool :=
  let '(r, h, c, w) := g in
  (r <=? i) && (i <? r + h) && (c <=? j) && (j <? c + w).

(** [a[r0:r1, c0:c1] = v] for a [uint8] array [a], as the canvas of line 309
    is, the only array the program assigns to: the pixels of [v] are cast on
    the way in.  [None] stands for the [ValueError] numpy raises when [v]
    cannot be broadcast to the shape of the target slice. *)
Definition setslice (a : ndarray) (r0 r1 c0 c1 : Z) (v : ndarray)
  : option ndarray :=
  let '(r, h, c, w) := target_region a r0 r1 c0 c1 in
  if broadcasts (shape0 v) h && broadcasts (shape1 v) w then
    Some {| shape0 := shape0 a;
            shape1 := shape1 a;
            item := fun i j =>
              if in_region (r, h, c, w) i j
              then as_uint8
                     (item v (if shape0 v =? h then i - r else 0)
                             (if shape1 v =? w then j - c else 0))
              else item a i j |}
  else None.

End Np.
Export Np.

(** ** The grid partitioner (lines 266-287 of [upscale_image]) *)
Module Partition.

Definition overlap : Z := 16.

Definition num_tiles_x (width tile_size : Z) : Z :=
  Z.max 1 ((width + tile_size - 1) / tile_size).

Definition num_tiles_y (height tile_size : Z) : Z :=
  Z.max 1 ((height + tile_size - 1) / tile_size).

Definition total_tiles (width height tile_size : Z) : Z :=
  num_tiles_x width tile_size * num_tiles_y height tile_size.

(** The tuple [(x_start, y_start, x_end, y_end)] appended to
    [tile_positions]. *)
Definition TilePosition := (Z * Z * Z * Z)%type.

Definition x_start_of (p : TilePosition) : Z := let '(a, _, _, _) := p in a.
Definition y_start_of (p : TilePosition) : Z := let '(_, b, _, _) := p in b.
Definition x_end_of (p : TilePosition) : Z := let '(_, _, c, _) := p in c.
Definition y_end_of (p : TilePosition) : Z := let '(_, _, _, d) := p in d.

(** Body of the inner loop for tile index [(x, y)]. *)
Definition tile_position (width height tile_size x y : Z) : TilePosition :=
  let x_start := Z.max 0 (x * tile_size - overlap) in
  let y_start := Z.max 0 (y * tile_size - overlap) in
  let x_end := Z.min width ((x + 1) * tile_size + overlap) in
  let y_end := Z.min height ((y + 1) * tile_size + overlap) in
  (x_start, y_start, x_end, y_end).

(** [image[y_start:y_end, x_start:x_end]] *)
Definition extract (image : ndarray) (p : TilePosition) : ndarray :=
  let '(x_start, y_start, x_end, y_end) := p in
  getslice image y_start y_end x_start x_end.

(** The two nested [for] loops, appending to [tiles] and [tile_positions]. *)
Definition create_tiles (image : ndarray) (tile_size : Z)
  : list ndarray * list TilePosition :=
  let height := shape0 image in
  let width := shape1 image in
  fold_left
    (fun acc y =>
       fold_left
         (fun '(tiles, tile_positions) x =>
            let p := tile_position width height tile_size x y in
            (tiles ++ [extract image p], tile_positions ++ [p]))
         (Py.range (num_tiles_x width tile_size)) acc)
    (Py.range (num_tiles_y height tile_size))
    ([], []).

Definition tiles (image : ndarray) (tile_size : Z) : list ndarray :=
  fst (create_tiles image tile_size).

Definition tile_positions (image : ndarray) (tile_size : Z)
  : list TilePosition :=
  snd (create_tiles image tile_size).

(** Membership of a source pixel (column [px], row [py]) in a tile. *)
Definition covers (p : TilePosition) (px py : Z) : Prop :=
  x_start_of p <= px < x_end_of p /\ y_start_of p <= py < y_end_of p.

(** The grid as one comprehension; [create_tiles_grid] shows that the loops
    compute it. *)
Definition grid (width height tile_size : Z) : list TilePosition :=
  flat_map
    (fun y => map (fun x => tile_position width height tile_size x y)
                  (Py.range (num_tiles_x width tile_size)))
    (Py.range (num_tiles_y height tile_size)).

End Partition.

(** ** Exceptions, standard output, events and the effect monad *)
Module Effects.

Inductive Msg :=
| MsgScale (scale : Z) (supported_scales : list Z)   (* line 182 *)
| MsgNotFound (input_path : string)                  (* line 202 *)
| MsgBroadcast (value_shape target_shape : Z * Z)    (* numpy, line 331 *)
| MsgText (text : string).

Inductive Exc :=
| ValueError (m : Msg)
| FileNotFoundError (m : Msg)
| ZeroDivisionError
| OtherError (m : Msg)        (* any other subclass of [Exception] *)
| SystemExit (code : Z).

(** [except Exception] does not catch [SystemExit]. *)
Definition is_Exception (e : Exc) : bool :=
  match e with SystemExit _ => false | _ => true end.

Definition is_ValueError (e : Exc) : bool :=
  match e with ValueError _ => true | _ => false end.

(** What [ProgressTracker.display] writes at line 73. *)
Inductive Eta := EtaUnknown | EtaSeconds (seconds : Z).
Inductive BarCell := Filled | Blank.

Record Rendering := mk_rendering {
  r_description : string;
  r_bar : list BarCell;
  r_percent : Q;
  r_current : Z;
  r_total : Z;
  r_eta : Eta
}.

(** The lines the modelled code writes to standard output, one constructor
    per [print] with the values it interpolates; a [print] that directly
    follows another and interpolates nothing new shares its constructor. *)
Inductive Line :=
| ProgressLine (r : Rendering)
| Newline
| CompletedIn (seconds : Z)
| ModelNotFound (scale : Z)
| ErrorReadingInput (e : Exc)
| InputImageSize (width height : Z)
| LoadingModel (scale : Z)
| ModelLoaded
| ErrorLoadingModel (e : Exc) (scale : Z)
| StartingUpscaling
| LargeImageDetected (width height : Z)
| DividingImage (num_tiles_x num_tiles_y total_tiles : Z)
| UsingCpuCores (cpu_count : Z)
| CombiningTiles
| ErrorCombiningTile (i : Z) (e : Exc)
| TileShapeTarget (tile_shape target_shape : Z * Z)
| UpscalingWithScale (scale : Z)
| UpscalingCompleted (elapsed_time : Q)
| ProcessingSpeed (input_mps output_mps : Q)
| OutputImageSize (width height : Z)
| ErrorDuringUpscaling (e : Exc)
| SavingImage
| SavedTo (output_path : string)
| ErrorSaving (e : Exc).

Inductive Event :=
| Stdout (l : Line)
| DownloadModels                          (* [download_edsr_models()] *)
| Imread (input_path : string)            (* [cv2.imread] *)
| ReadModel (scale : Z)                   (* [sr.readModel(model_path)] *)
| SetModel (scale : Z)                    (* [sr.setModel('edsr', scale)] *)
| Upsample (img : ndarray)                (* [sr.upsample] *)
| CanvasWrite (target : Region)           (* the slice assignment, line 331 *)
| Imwrite (output_path : string) (img : ndarray).

(** The collaborators of the pipeline: the wall clock, the models directory,
    OpenCV's reader, model loader, network and writer. *)
Record Env := mk_env {
  clock : nat -> Q;                  (* the n-th reading of [time.time()] *)
  model_on_disk : bool;              (* [os.path.exists(model_path)], line 189 *)
  download_outcome : option bool;    (* [None]: [download_edsr_models] exits;
                                        [Some b]: it returns and the model file
                                        is then present iff [b] *)
  imread : string -> option ndarray; (* [None] is OpenCV's failed read *)
  readModel : Z -> option Exc;
  upsample : ndarray -> Exc + ndarray;
  cpu_count : Z;
  imwrite : string -> ndarray -> option Exc
}.

Record World := mk_world {
  reads : nat;           (* clock readings made so far *)
  trace : list Event     (* events so far, oldest first *)
}.

Definition M (A : Type) : Type := World -> (Exc + A) * World.

Definition ret {A} (a : A) : M A := fun w => (inr a, w).

Definition bind {A B} (m : M A) (k : A -> M B) : M B :=
  fun w => match m w with
           | (inl e, w') => (inl e, w')
           | (inr a, w') => k a w'
           end.

Definition raise {A} (e : Exc) : M A := fun w => (inl e, w).

(** [try: body  except <class> as e: handler e] *)
Definition try_except {A} (class : Exc -> bool) (body : M A)
           (handler : Exc -> M A) : M A :=
  fun w => match body w with
           | (inl e, w') => if class e then handler e w' else (inl e, w')
           | (inr a, w') => (inr a, w')
           end.

Definition emit (e : Event) : M unit :=
  fun w => (inr tt, {| reads := reads w; trace := trace w ++ [e] |}).

Definition print (l : Line) : M unit := emit (Stdout l).

Definition time_time (env : Env) : M Q :=
  fun w => (inr (clock env (reads w)),
            {| reads := S (reads w); trace := trace w |}).

Definition sys_exit {A} (code : Z) : M A := raise (SystemExit code).

(** Python's [/]. *)
Definition truediv (a b : Q) : M Q :=
  if Qeq_bool b 0 then raise ZeroDivisionError else ret (a / b)%Q.

Definition initial_world : World := {| reads := 0; trace := [] |}.

End Effects.
Export Effects.

Declare Scope monad_scope.
Delimit Scope monad_scope with monad.
Notation "x <- m ;; k" := (bind m (fun x => k))
  (at level 61, m at next level, right associativity) : monad_scope.
Notation "' p <- m ;; k" := (bind m (fun x => match x with p => k end))
  (at level 61, p pattern, m at next level, right associativity) : monad_scope.
Notation "m ;; k" := (bind m (fun _ => k))
  (at level 61, right associativity) : monad_scope.
Open Scope monad_scope.

(** ** [class ProgressTracker]

    The tracker as the pipeline carries it, with clock readings and
    quotients as exact rationals; [Tracker64] below is the same class over
    doubles. *)
Module Tracker.

Record ProgressTracker := mk_tracker {
  total : Z;
  current : Z;
  start_time : Q;
  description : string;
  last_update_time : Q;
  update_interval : Q
}.

Definition set_current (self : ProgressTracker) (v : Z) : ProgressTracker :=
  {| total := total self; current := v; start_time := start_time self;
     description := description self;
     last_update_time := last_update_time self;
     update_interval := update_interval self |}.

Definition set_last_update_time (self : ProgressTracker) (v : Q)
  : ProgressTracker :=
  {| total := total self; current := current self;
     start_time := start_time self; description := description self;
     last_update_time := v; update_interval := update_interval self |}.

(** [__init__] *)
Definition init (env : Env) (total : Z) (description : string)
  : M ProgressTracker :=
  t <- time_time env ;;
  ret {| total := total; current := 0; start_time := t;
         description := description; last_update_time := 0;
         update_interval := 1 # 2 |}.

(** [min(100, x)] *)
Definition min100 (x : Q) : Q := if Qle_bool 100 x then 100%Q else x.

Definition bar_length : Z := 30.

Definition bar (filled_length : Z) : list BarCell :=
  repeat Filled (Z.to_nat filled_length)
  ++ repeat Blank (Z.to_nat (bar_length - filled_length)).

(** [display] *)
Definition display (env : Env) (self : ProgressTracker) : M unit :=
  if total self <=? 0 then ret tt
  else
    q <- truediv (inject_Z (current self * 100)) (inject_Z (total self)) ;;
    let percent := min100 q in
    now <- time_time env ;;
    let elapsed := (now - start_time self)%Q in
    eta <- (if current self >? 0 then
              eta_seconds <- truediv
                (elapsed * inject_Z (total self - current self))%Q
                (inject_Z (current self)) ;;
              ret (EtaSeconds (Py.int eta_seconds))
            else ret EtaUnknown) ;;
    f <- truediv (inject_Z (bar_length * current self))
                 (inject_Z (total self)) ;;
    let filled_length := Py.int f in
    print (ProgressLine
             {| r_description := description self;
                r_bar := bar filled_length;
                r_percent := percent;
                r_current := current self;
                r_total := total self;
                r_eta := eta |}).

(** [update] *)
Definition update (env : Env) (self : ProgressTracker) (amount : Z)
  : M ProgressTracker :=
  let self := set_current self (current self + amount) in
  current_time <- time_time env ;;
  if Qle_bool (update_interval self)
              (current_time - last_update_time self)
  then
    display env self ;;
    ret (set_last_update_time self current_time)
  else ret self.

(** [complete] *)
Definition complete (env : Env) (self : ProgressTracker)
  : M ProgressTracker :=
  let self := set_current self (total self) in
  display env self ;;
  print Newline ;;
  now <- time_time env ;;
  print (CompletedIn (Py.int (now - start_time self))) ;;
  ret self.

End Tracker.
Export Tracker.

(** ** [process_tile] and [upscale_image] *)
Module Pipeline.
Import Partition.

(** [sr.upsample(img)] *)
Definition sr_upsample (env : Env) (img : ndarray) : M ndarray :=
  emit (Upsample img) ;;
  match upsample env img with
  | inl e => raise e
  | inr result => ret result
  end.

(** [process_tile(args)] with [args = (sr, tile, tracker)]; the model handle
    [sr] is the [upsample] of the environment, and the tracker object the
    call mutates is handed back with the result. *)
Definition process_tile (env : Env) (args : ndarray * option ProgressTracker)
  : M (ndarray * option ProgressTracker) :=
  let '(tile, tracker) := args in
  result <- sr_upsample env tile ;;
  match tracker with
  | Some t => t' <- update env t 1 ;; ret (result, Some t')
  | None => ret (result, None)
  end.

(** [list(executor.map(process_tile, [(sr, tile, tile_tracker) for tile in
    tiles]))].  [Executor.map] yields the results in the order of its
    arguments and re-raises the exception of the first call, in that order,
    that failed.  The calls themselves are run here one after the other in
    argument order, which is one of the schedules of the thread pool. *)
Fixpoint executor_map (env : Env) (tiles : list ndarray)
         (tracker : option ProgressTracker)
  : M (list ndarray * option ProgressTracker) :=
  match tiles with
  | [] => ret ([], tracker)
  | tile :: rest =>
      '(result, tracker1) <- process_tile env (tile, tracker) ;;
      '(results, tracker2) <- executor_map env rest tracker1 ;;
      ret (result :: results, tracker2)
  end.

Definition supported_scales : list Z := [2; 3; 4].

(** The condition of line 257. *)
Definition use_tiling (width height tile_size : Z) : bool :=
  (tile_size >? 0) && ((width >? tile_size) || (height >? tile_size))
  && (width * height >? 1000000).

(** Lines 315-318: the scaled target of a tile. *)
Definition out_bounds (scale output_width output_height : Z)
           (p : TilePosition) : Z * Z * Z * Z :=
  let '(x_start, y_start, x_end, y_end) := p in
  let out_x_start := Z.max 0 (x_start * scale) in
  let out_y_start := Z.max 0 (y_start * scale) in
  let out_x_end := Z.min output_width (x_end * scale) in
  let out_y_end := Z.min output_height (y_end * scale) in
  (out_x_start, out_y_start, out_x_end, out_y_end).

(** Lines 321-327: the part of the transformed tile that is used. *)
Definition tile_portion (scale output_width output_height : Z)
           (p : TilePosition) (tile : ndarray) : ndarray :=
  let '(out_x_start, out_y_start, out_x_end, out_y_end) :=
    out_bounds scale output_width output_height p in
  let tile_height := shape0 tile in
  let tile_width := shape1 tile in
  getslice tile 0 (Z.min tile_height (out_y_end - out_y_start))
                0 (Z.min tile_width (out_x_end - out_x_start)).

(** Lines 331-332: the slice assignment into the canvas. *)
Definition place (upscaled : ndarray) (out_x_start out_y_start : Z)
           (portion : ndarray) : M ndarray :=
  let r1 := out_y_start + shape0 portion in
  let c1 := out_x_start + shape1 portion in
  match setslice upscaled out_y_start r1 out_x_start c1 portion with
  | Some upscaled' =>
      emit (CanvasWrite (target_region upscaled out_y_start r1 out_x_start c1)) ;;
      ret upscaled'
  | None =>
      let '(_, h, _, w) := target_region upscaled out_y_start r1 out_x_start c1 in
      raise (ValueError (MsgBroadcast (shape0 portion, shape1 portion) (h, w)))
  end.

(** One iteration of the loop of lines 313-337. *)
Definition combine_tile (env : Env) (scale output_width output_height : Z)
           (state : ndarray * ProgressTracker) (i : Z)
           (p : TilePosition) (tile : ndarray)
  : M (ndarray * ProgressTracker) :=
  let '(upscaled, combine_tracker) := state in
  let '(out_x_start, out_y_start, out_x_end, out_y_end) :=
    out_bounds scale output_width output_height p in
  let portion := tile_portion scale output_width output_height p tile in
  upscaled' <- try_except is_ValueError
    (place upscaled out_x_start out_y_start portion)
    (fun e =>
       print (ErrorCombiningTile i e) ;;
       print (TileShapeTarget
                (shape0 portion, shape1 portion)
                (out_y_end - out_y_start, out_x_end - out_x_start)) ;;
       ret upscaled) ;;
  combine_tracker' <- update env combine_tracker 1 ;;
  ret (upscaled', combine_tracker').

(** [for i, (pos, tile) in enumerate(zip(tile_positions, upscaled_tiles))] *)
Fixpoint combine_loop (env : Env) (scale output_width output_height : Z)
         (i : Z) (pairs : list (TilePosition * ndarray))
         (state : ndarray * ProgressTracker)
  : M (ndarray * ProgressTracker) :=
  match pairs with
  | [] => ret state
  | (p, tile) :: rest =>
      state' <- combine_tile env scale output_width output_height
                             state i p tile ;;
      combine_loop env scale output_width output_height (i + 1) rest state'
  end.

Definition or_tracker (t : option ProgressTracker) (d : ProgressTracker)
  : ProgressTracker :=
  match t with Some t' => t' | None => d end.

(** Lines 258-339: the tiled branch. *)
Definition tiled_branch (env : Env) (image : ndarray) (scale tile_size : Z)
  : M ndarray :=
  let height := shape0 image in
  let width := shape1 image in
  print (LargeImageDetected width height) ;;
  let '(tiles, tile_positions) := create_tiles image tile_size in
  let total_tiles := total_tiles width height tile_size in
  print (DividingImage (num_tiles_x width tile_size)
                       (num_tiles_y height tile_size) total_tiles) ;;
  print (UsingCpuCores (cpu_count env)) ;;
  tile_tracker <- Tracker.init env total_tiles "Processing tiles" ;;
  '(upscaled_tiles, tracker') <- executor_map env tiles (Some tile_tracker) ;;
  Tracker.complete env (or_tracker tracker' tile_tracker) ;;
  print CombiningTiles ;;
  let output_height := height * scale in
  let output_width := width * scale in
  let upscaled := zeros output_height output_width in
  combine_tracker <- Tracker.init env total_tiles "Combining tiles" ;;
  '(upscaled', combine_tracker') <-
    combine_loop env scale output_width output_height 0
                 (combine tile_positions upscaled_tiles)
                 (upscaled, combine_tracker) ;;
  Tracker.complete env combine_tracker' ;;
  ret upscaled'.

(** Lines 341-375: the whole image at once, as the main thread runs it.  The
    spinner thread of lines 346-368, started for more than 500000 pixels,
    writes to standard output and reads the clock while [sr.upsample] runs;
    it is left out, so the lines and the count of clock readings recorded
    for this branch are those of the main thread only. *)
Definition single_shot_branch (env : Env) (image : ndarray) (scale : Z)
  : M ndarray :=
  print (UpscalingWithScale scale) ;;
  sr_upsample env image.

(** Lines 254-389: the [try] block around the upscaling and its handler. *)
Definition upscale_stage (env : Env) (image : ndarray) (scale tile_size : Z)
  : M ndarray :=
  print StartingUpscaling ;;
  start_time <- time_time env ;;
  try_except is_Exception
    (let height := shape0 image in
     let width := shape1 image in
     upscaled <- (if use_tiling width height tile_size
                  then tiled_branch env image scale tile_size
                  else single_shot_branch env image scale) ;;
     end_time <- time_time env ;;
     let elapsed_time := (end_time - start_time)%Q in
     let original_megapixels :=
       (inject_Z (width * height) / inject_Z 1000000)%Q in
     let upscaled_megapixels :=
       (inject_Z (shape1 upscaled * shape0 upscaled) / inject_Z 1000000)%Q in
     print (UpscalingCompleted elapsed_time) ;;
     a <- truediv original_megapixels elapsed_time ;;
     b <- truediv upscaled_megapixels elapsed_time ;;
     print (ProcessingSpeed a b) ;;
     print (OutputImageSize (shape1 upscaled) (shape0 upscaled)) ;;
     ret upscaled)
    (fun e => print (ErrorDuringUpscaling e) ;; sys_exit 1).

(** [download_edsr_models()] seen from its caller: it either exits the
    process or returns. *)
Definition download_edsr_models (env : Env) : M unit :=
  emit DownloadModels ;;
  match download_outcome env with
  | None => sys_exit 1
  | Some _ => ret tt
  end.

Definition model_present_after (env : Env) : bool :=
  if model_on_disk env then true
  else match download_outcome env with Some b => b | None => false end.

(** Lines 391-398. *)
Definition save_stage (env : Env) (output_path : string) (upscaled : ndarray)
  : M unit :=
  try_except is_Exception
    (print SavingImage ;;
     emit (Imwrite output_path upscaled) ;;
     match imwrite env output_path upscaled with
     | Some e => raise e
     | None => print (SavedTo output_path)
     end)
    (fun e => print (ErrorSaving e) ;; sys_exit 1).

(** [upscale_image].  Lines 226-248, run when [use_gpu] is set, choose a
    backend for the model handle and print the choice; they do not touch the
    image and are left out, so the lines recorded are those of the rest of
    the function. *)
Definition upscale_image (env : Env) (input_path output_path : string)
           (scale : Z) (use_gpu : bool) (tile_size : Z) : M unit :=
  if negb (existsb (Z.eqb scale) supported_scales) then
    raise (ValueError (MsgScale scale supported_scales))
  else
    (if negb (model_on_disk env) then download_edsr_models env else ret tt) ;;
    if negb (model_present_after env) then
      print (ModelNotFound scale) ;; sys_exit 1
    else
      image <- try_except is_Exception
        (emit (Imread input_path) ;;
         match imread env input_path with
         | None => raise (FileNotFoundError (MsgNotFound input_path))
         | Some image => ret image
         end)
        (fun e => print (ErrorReadingInput e) ;; sys_exit 1) ;;
      print (InputImageSize (shape1 image) (shape0 image)) ;;
      try_except is_Exception
        (print (LoadingModel scale) ;;
         emit (ReadModel scale) ;;
         match readModel env scale with
         | Some e => raise e
         | None => print ModelLoaded
         end)
        (fun e => print (ErrorLoadingModel e scale) ;; sys_exit 1) ;;
      emit (SetModel scale) ;;
      upscaled <- upscale_stage env image scale tile_size ;;
      save_stage env output_path upscaled.

(** *** Observations on a trace *)

Definition upsample_calls (t : list Event) : list ndarray :=
  flat_map (fun e => match e with Upsample img => [img] | _ => [] end) t.

Definition canvas_writes (t : list Event) : list Region :=
  flat_map (fun e => match e with CanvasWrite g => [g] | _ => [] end) t.

Definition stdout (t : list Event) : list Line :=
  flat_map (fun e => match e with Stdout l => [l] | _ => [] end) t.

Definition imwrites (t : list Event) : list (string * ndarray) :=
  flat_map (fun e => match e with Imwrite f a => [(f, a)] | _ => [] end) t.

(** How many slice assignments of a run wrote canvas pixel (row [i],
    column [j]). *)
Definition write_count (t : list Event) (i j : Z) : nat :=
  List.length (filter (fun g => in_region g i j) (canvas_writes t)).

Definition is_combine_error (l : Line) : bool :=
  match l with ErrorCombiningTile _ _ => true | _ => false end.

End Pipeline.
Export Pipeline.

(** ** Vocabulary of the statements and the inputs of the examples *)
Module Scenario.

(** The world after one more clock reading, and after more lines on standard
    output. *)
Definition tick (w : World) : World :=
  {| reads := S (reads w); trace := trace w |}.

Definition say (w : World) (ls : list Line) : World :=
  {| reads := reads w; trace := trace w ++ map Stdout ls |}.

(** The ETA field as [display] computes it from the clock reading [now]. *)
Definition eta_at (self : ProgressTracker) (now : Q) : Eta :=
  if current self >? 0
  then EtaSeconds (Py.int ((now - start_time self)
                           * inject_Z (total self - current self)
                           / inject_Z (current self)))
  else EtaUnknown.

Definition rendering_at (self : ProgressTracker) (now : Q) : Rendering :=
  {| r_description := description self;
     r_bar := bar (Py.int (inject_Z (bar_length * current self)
                           / inject_Z (total self)));
     r_percent := min100 (inject_Z (current self * 100)
                          / inject_Z (total self));
     r_current := current self;
     r_total := total self;
     r_eta := eta_at self now |}.

(** A 2000 x 1500 raster whose pixel records its own coordinates. *)
Definition image_2000x1500 : ndarray :=
  {| shape0 := 1500; shape1 := 2000; item := fun i j => (i, j, 0) |}.

(** A transform that repeats every pixel [s] times in both directions. *)
Definition nearest (s : Z) (a : ndarray) : ndarray :=
  {| shape0 := shape0 a * s; shape1 := shape1 a * s;
     item := fun i j => item a (i / s) (j / s) |}.

(** An environment in which the model is present, the input decodes to
    [image], the clock advances by one second per reading and [transform]
    is the model. *)
Definition env_of (image : ndarray) (transform : ndarray -> Exc + ndarray)
  : Env :=
  {| clock := fun n => inject_Z (Z.of_nat n);
     model_on_disk := true;
     download_outcome := Some true;
     imread := fun _ => Some image;
     readModel := fun _ => None;
     upsample := transform;
     cpu_count := 4;
     imwrite := fun _ _ => None |}.

Definition env_2x : Env := env_of image_2000x1500 (fun a => inr (nearest 2 a)).

(** Classes of events, by the part of the program that emits them. *)
Definition tracker_event (e : Event) : bool :=
  match e with
  | Stdout (ProgressLine _) | Stdout Newline | Stdout (CompletedIn _) => true
  | _ => false
  end.

Definition dispatch_event (e : Event) : bool :=
  match e with
  | Upsample _ => true
  | _ => tracker_event e
  end.

Definition stage_event (e : Event) : bool :=
  match e with
  | Stdout _ | Upsample _ | CanvasWrite _ => true
  | _ => false
  end.

(** [w'] extends the trace of [w] by events of class [P] only. *)
Definition only_adds (P : Event -> bool) (w w' : World) : Prop :=
  exists evs, trace w' = trace w ++ evs /\ forallb P evs = true.

(** Whatever the outcome, [m] emits events of class [P] only. *)
Definition emits (P : Event -> bool) {A : Type} (m : M A) : Prop :=
  forall w, only_adds P w (snd (m w)).

(** The canvas region that lines 315-318 assign to a tile position. *)
Definition scaled_target (scale output_width output_height : Z)
           (p : Partition.TilePosition) : Region :=
  let '(out_x_start, out_y_start, out_x_end, out_y_end) :=
    out_bounds scale output_width output_height p in
  (out_y_start, out_y_end - out_y_start, out_x_start, out_x_end - out_x_start).

(** A transformed tile has [scale] times the dimensions of its position. *)
Definition scaled_shape (scale : Z) (p : Partition.TilePosition)
           (tile : ndarray) : Prop :=
  shape0 tile = (Partition.y_end_of p - Partition.y_start_of p) * scale /\
  shape1 tile = (Partition.x_end_of p - Partition.x_start_of p) * scale.

(** A position that is a non-empty rectangle inside the raster. *)
Definition inside (width height : Z) (p : Partition.TilePosition) : Prop :=
  0 <= Partition.x_start_of p < Partition.x_end_of p /\
  Partition.x_end_of p <= width /\
  0 <= Partition.y_start_of p < Partition.y_end_of p /\
  Partition.y_end_of p <= height.

Definition combine_errors (t : list Event) : list Line :=
  filter is_combine_error (stdout t).

(** Events of the tiled branch before compositing starts. *)
Definition report_event (e : Event) : bool :=
  match e with
  | Stdout _ | Upsample _ => true
  | _ => false
  end.

Definition save_event (e : Event) : bool :=
  match e with
  | Stdout _ | Imwrite _ _ => true
  | _ => false
  end.

Definition any_event (e : Event) : bool := true.

(** Whether a run announced tiled processing (line 258). *)
Definition tiled_mode_entered (t : list Event) : bool :=
  existsb (fun l => match l with LargeImageDetected _ _ => true | _ => false end)
          (stdout t).

(** What [upscale_image] emits before the upscaling stage when the model is
    available, the input decodes and the model loads. *)
Definition preamble (env : Env) (input_path : string) (scale : Z)
           (image : ndarray) : list Event :=
  (if model_on_disk env then [] else [DownloadModels])
  ++ [Imread input_path;
      Stdout (InputImageSize (shape1 image) (shape0 image));
      Stdout (LoadingModel scale);
      ReadModel scale;
      Stdout ModelLoaded;
      SetModel scale].

(** Trackers and a world three clock readings into a run. *)
Definition tracker_halfway : ProgressTracker :=
  {| total := 4; current := 2; start_time := 0; description := "Processing tiles";
     last_update_time := 1; update_interval := 1 # 2 |}.

Definition tracker_empty : ProgressTracker :=
  {| total := 0; current := 0; start_time := 0; description := "Downloading";
     last_update_time := 0; update_interval := 1 # 2 |}.

Definition world_later : World := {| reads := 3; trace := [] |}.

(** The run of the 2000 x 1500 raster at scale 2 with tiles of 1024. *)
Definition run_2000x1500 : (Exc + unit) * World :=
  upscale_image env_2x "in.png" "out.png" 2 true 1024 initial_world.

(** A 500 x 400 raster and the environment of its run at scale 3. *)
Definition image_500x400 : ndarray :=
  {| shape0 := 400; shape1 := 500; item := fun i j => (i, j, 0) |}.

Definition env_3x : Env := env_of image_500x400 (fun a => inr (nearest 3 a)).

(** The tile positions on which the transform of [env] raises. *)
Definition failing_positions (env : Env) (image : ndarray) (tile_size : Z)
  : list Partition.TilePosition :=
  filter (fun p => match upsample env (Partition.extract image p) with
                   | inl _ => true
                   | inr _ => false
                   end)
         (Partition.tile_positions image tile_size).

(** A transform that raises on tiles of [h] rows and [w] columns and doubles
    every other tile. *)
Definition failing_on (h w : Z) (a : ndarray) : Exc + ndarray :=
  if (shape0 a =? h) && (shape1 a =? w)
  then inl (OtherError (MsgText "upsample failed"))
  else inr (nearest 2 a).

(** Environments for the 2000 x 1500 raster whose transform raises on the
    upper right tile, respectively on the lower left tile; the clock starts
    at 1000 s and advances by 10 ms per reading. *)
Definition env_failing (h w : Z) : Env :=
  {| clock := fun n => (1000 + inject_Z (Z.of_nat n) / 100)%Q;
     model_on_disk := true;
     download_outcome := Some true;
     imread := fun _ => Some image_2000x1500;
     readModel := fun _ => None;
     upsample := failing_on h w;
     cpu_count := 4;
     imwrite := fun _ _ => None |}.

Definition env_fail_east : Env := env_failing 1040 992.
Definition env_fail_south : Env := env_failing 492 1040.

Definition run_fail_east : (Exc + unit) * World :=
  upscale_image env_fail_east "in.png" "out.png" 2 true 1024 initial_world.

Definition run_fail_south : (Exc + unit) * World :=
  upscale_image env_fail_south "in.png" "out.png" 2 true 1024 initial_world.

End Scenario.
Export Scenario.

(** ** Further vocabulary: regions written for tiles of any size *)
Module Vocabulary.

(** The canvas region the loop body writes for a transformed tile of any
    size: the scaled start of its position, and as many rows and columns as
    the tile has, up to the scaled extent of the position. *)
Definition cropped_target (scale : Z) (p : Partition.TilePosition)
           (tile : ndarray) : Region :=
  (Partition.y_start_of p * scale,
   Z.min (shape0 tile)
         ((Partition.y_end_of p - Partition.y_start_of p) * scale),
   Partition.x_start_of p * scale,
   Z.min (shape1 tile)
         ((Partition.x_end_of p - Partition.x_start_of p) * scale)).

(** The pixel of [tile] that belongs at canvas row [i], column [j]. *)
Definition tile_pixel (scale : Z) (p : Partition.TilePosition)
           (tile : ndarray) (i j : Z) : Pixel :=
  item tile (i - Partition.y_start_of p * scale)
            (j - Partition.x_start_of p * scale).

(** The value of one canvas pixel after the tiles of [pairs] were written in
    order over a pixel that held [base]; the canvas stores what it is given
    as [uint8]. *)
Fixpoint composite_pixel (scale : Z)
         (pairs : list (Partition.TilePosition * ndarray))
         (base : Pixel) (i j : Z) : Pixel :=
  match pairs with
  | [] => base
  | (p, tile) :: rest =>
      composite_pixel scale rest
        (if in_region (cropped_target scale p tile) i j
         then as_uint8 (tile_pixel scale p tile i j)
         else base)
        i j
  end.

(** A numpy shape has no negative entry. *)
Definition proper_shape (a : ndarray) : Prop :=
  0 <= shape0 a /\ 0 <= shape1 a.

(** A 2000 x 1500 image of [uint8] pixels. *)
Definition image_uint8 : ndarray :=
  {| shape0 := 1500; shape1 := 2000;
     item := fun i j => (uint8 i, uint8 j, 7) |}.

(** A tile position that starts to the right of a 4000-column canvas, and a
    transformed tile for it. *)
Definition stray_position : Partition.TilePosition := (2100, 0, 2200, 100).

Definition stray_tile : ndarray :=
  {| shape0 := 200; shape1 := 300; item := fun i j => (i, j, 1) |}.

(** Events of the compositing loop. *)
Definition compose_event (e : Event) : bool :=
  match e with
  | Stdout _ | CanvasWrite _ => true
  | _ => false
  end.

(** Whatever the outcome, [m] never turns the count of clock readings
    back. *)
Definition keeps_time {A : Type} (m : M A) : Prop :=
  forall w, (reads w <= reads (snd (m w)))%nat.

(** A clock whose readings strictly increase. *)
Definition ticking (env : Env) : Prop :=
  forall n m, (n < m)%nat -> (clock env n < clock env m)%Q.

(** What [upscale_image] emits in a single-shot run that succeeds, after the
    preamble: the clock reads [t0] before and [t1] after the transform. *)
Definition single_shot_events (image result : ndarray) (scale : Z)
           (t0 t1 : Q) (output_path : string) : list Event :=
  [Stdout StartingUpscaling;
   Stdout (UpscalingWithScale scale);
   Upsample image;
   Stdout (UpscalingCompleted (t1 - t0));
   Stdout (ProcessingSpeed
             ((inject_Z (shape1 image * shape0 image) / inject_Z 1000000)
              / (t1 - t0))
             ((inject_Z (shape1 result * shape0 result) / inject_Z 1000000)
              / (t1 - t0)));
   Stdout (OutputImageSize (shape1 result) (shape0 result));
   Stdout SavingImage;
   Imwrite output_path result;
   Stdout (SavedTo output_path)].

Definition extend (w : World) (n : nat) (evs : list Event) : World :=
  {| reads := reads w + n; trace := trace w ++ evs |}.

(** Environments in which the model cannot be obtained, the input cannot be
    read, or the transform fails on the whole image. *)
Definition env_no_model : Env :=
  {| clock := fun n => inject_Z (Z.of_nat n);
     model_on_disk := false;
     download_outcome := Some false;
     imread := fun _ => Some image_500x400;
     readModel := fun _ => None;
     upsample := fun a => inr (nearest 3 a);
     cpu_count := 4;
     imwrite := fun _ _ => None |}.

Definition env_broken_transform : Env :=
  env_of image_500x400
         (fun _ => inl (OtherError (MsgText "upsample failed"))).

End Vocabulary.
Export Vocabulary.

(** ** [ensure_models_directory] and [download_edsr_models] in detail

    The pipeline above sees [download_edsr_models] only through its outcome.
    Here its body is modelled over the state of the models directory and an
    account of what the network and the archive deliver.  Its own lines and
    file operations are events of their own, interleaved with those of the
    progress tracker. *)
Module Download.

(** Lines 115-120: the report hook given to [urlretrieve]; the tracker it
    closes over is handed back. *)
Definition download_progress (env : Env) (download_tracker : ProgressTracker)
           (block_num block_size total_size : Z) : M ProgressTracker :=
  if total_size >? 0 then
    let downloaded := Z.min (block_num * block_size) total_size in
    q <- truediv (inject_Z (downloaded * 100)) (inject_Z total_size) ;;
    let percent := Py.int q in
    let download_tracker := set_current download_tracker percent in
    display env download_tracker ;;
    ret download_tracker
  else ret download_tracker.

Inductive DLine :=
| AllModelsPresent                 (* line 103 *)
| DownloadingModels                (* line 111 *)
| ErrorDownloading (e : Exc)       (* lines 125-126 *)
| ExtractingModels                 (* line 130 *)
| ModelCopied (scale : Z)          (* line 145 *)
| ModelMissing (scale : Z)         (* line 147 *)
| ExtractionComplete               (* line 149 *)
| ErrorExtracting (e : Exc).       (* lines 152-153 *)

Inductive DEvent :=
| Core (e : Event)                 (* an event of the progress tracker *)
| Say (l : DLine)
| Makedirs                         (* [os.makedirs(MODELS_DIR)] *)
| Urlretrieve                      (* [urllib.request.urlretrieve] *)
| Extractall                       (* [zip_ref.extractall(temp_dir)] *)
| Copy2 (scale : Z).               (* [shutil.copy2] of [EDSR_x{scale}.pb] *)

(** The models directory: whether it exists, and the scales whose file
    [EDSR_x{scale}.pb] it holds. *)
Record Files := mk_files {
  models_dir : bool;
  models : list Z
}.

(** What the outside delivers during one call. *)
Record Remote := mk_remote {
  reports : list (Z * Z * Z);     (* the calls [urlretrieve] makes to the hook:
                                     block_num, block_size, total_size *)
  retrieve_error : option Exc;    (* raised by [urlretrieve] after them *)
  extract_error : option Exc;     (* raised by opening or extracting the zip *)
  package : list Z;               (* scales whose model file the archive holds *)
  copy_error : Z -> option Exc    (* raised by [shutil.copy2] *)
}.

Record DWorld := mk_dworld {
  dreads : nat;
  dtrace : list DEvent;
  files : Files
}.

Definition MD (A : Type) : Type := DWorld -> (Exc + A) * DWorld.

Definition dret {A} (a : A) : MD A := fun dw => (inr a, dw).

Definition dbind {A B} (m : MD A) (k : A -> MD B) : MD B :=
  fun dw => match m dw with
            | (inl e, dw') => (inl e, dw')
            | (inr a, dw') => k a dw'
            end.

Definition draise {A} (e : Exc) : MD A := fun dw => (inl e, dw).

Definition dtry {A} (class : Exc -> bool) (body : MD A)
           (handler : Exc -> MD A) : MD A :=
  fun dw => match body dw with
            | (inl e, dw') => if class e then handler e dw' else (inl e, dw')
            | (inr a, dw') => (inr a, dw')
            end.

Definition demit (e : DEvent) : MD unit :=
  fun dw => (inr tt, {| dreads := dreads dw; dtrace := dtrace dw ++ [e];
                        files := files dw |}).

Definition tell (l : DLine) : MD unit := demit (Say l).

(** A computation of the tracker, run at the current clock position. *)
Definition lift {A} (m : M A) : MD A :=
  fun dw =>
    let '(r, w') := m {| reads := dreads dw; trace := [] |} in
    (r, {| dreads := reads w'; dtrace := dtrace dw ++ map Core (trace w');
           files := files dw |}).

(** [os.path.exists(os.path.join(MODELS_DIR, f"EDSR_x{scale}.pb"))] *)
Definition has_model (fs : Files) (scale : Z) : bool :=
  existsb (Z.eqb scale) (models fs).

Definition model_exists (scale : Z) : MD bool :=
  fun dw => (inr (has_model (files dw) scale), dw).

Definition add_model (scale : Z) : MD unit :=
  fun dw => (inr tt,
             {| dreads := dreads dw; dtrace := dtrace dw;
                files := {| models_dir := models_dir (files dw);
                            models := scale :: models (files dw) |} |}).

(** [ensure_models_directory] *)
Definition ensure_models_directory : MD unit :=
  fun dw =>
    if models_dir (files dw) then (inr tt, dw)
    else (inr tt,
          {| dreads := dreads dw; dtrace := dtrace dw ++ [Makedirs];
             files := {| models_dir := true; models := models (files dw) |} |}).

Notation "x <~ m ;; k" := (dbind m (fun x => k))
  (at level 61, m at next level, right associativity).
Notation "m ;;; k" := (dbind m (fun _ => k))
  (at level 61, right associativity).

(** [urlretrieve(models_url, zip_path, reporthook=download_progress)] *)
Fixpoint report_all (env : Env) (download_tracker : ProgressTracker)
         (calls : list (Z * Z * Z)) : MD ProgressTracker :=
  match calls with
  | [] => dret download_tracker
  | (block_num, block_size, total_size) :: rest =>
      t <~ lift (download_progress env download_tracker
                                   block_num block_size total_size) ;;
      report_all env t rest
  end.

Definition urlretrieve (env : Env) (remote : Remote)
           (download_tracker : ProgressTracker) : MD ProgressTracker :=
  demit Urlretrieve ;;;
  t <~ report_all env download_tracker (reports remote) ;;
  match retrieve_error remote with
  | Some e => draise e
  | None => dret t
  end.

(** The body of the loop [for scale in [2, 3, 4]] (lines 138-147). *)
Definition copy_model (remote : Remote) (scale : Z) : MD unit :=
  if existsb (Z.eqb scale) (package remote) then
    demit (Copy2 scale) ;;;
    match copy_error remote scale with
    | Some e => draise e
    | None => add_model scale ;;; tell (ModelCopied scale)
    end
  else tell (ModelMissing scale).

Fixpoint copy_models (remote : Remote) (scales : list Z) : MD unit :=
  match scales with
  | [] => dret tt
  | scale :: rest => copy_model remote scale ;;; copy_models remote rest
  end.

(** [download_edsr_models], lines 90-154 *)
Definition download_edsr_models_fs (env : Env) (remote : Remote) : MD unit :=
  ensure_models_directory ;;;
  x2 <~ model_exists 2 ;;
  x3 <~ model_exists 3 ;;
  x4 <~ model_exists 4 ;;
  if x2 && x3 && x4 then tell AllModelsPresent
  else
    tell DownloadingModels ;;;
    download_tracker <~ lift (Tracker.init env 100 "Downloading") ;;
    dtry is_Exception
      (t <~ urlretrieve env remote download_tracker ;;
       lift (complete env t) ;;;
       dret tt)
      (fun e => tell (ErrorDownloading e) ;;; draise (SystemExit 1)) ;;;
    tell ExtractingModels ;;;
    dtry is_Exception
      (demit Extractall ;;;
       match extract_error remote with
       | Some e => draise e
       | None =>
           copy_models remote [2; 3; 4] ;;;
           tell ExtractionComplete
       end)
      (fun e => tell (ErrorExtracting e) ;;; draise (SystemExit 1)).

(** Observations. *)
Definition retrievals (t : list DEvent) : nat :=
  length (filter (fun e => match e with Urlretrieve => true | _ => false end) t).

Definition extractions (t : list DEvent) : nat :=
  length (filter (fun e => match e with Extractall => true | _ => false end) t).

Definition said (t : list DEvent) : list DLine :=
  flat_map (fun e => match e with Say l => [l] | _ => [] end) t.

(** Example states: an empty models directory that does not exist yet, one
    that holds all three models, and deliveries of a package with the models
    for scales 2 and 4 only, with and without a network failure. *)
Definition no_models : Files := {| models_dir := false; models := [] |}.
Definition all_models : Files := {| models_dir := true; models := [4; 3; 2] |}.

Definition partial_package : Remote :=
  {| reports := [(0, 8192, 20000); (1, 8192, 20000); (3, 8192, 20000)];
     retrieve_error := None;
     extract_error := None;
     package := [2; 4];
     copy_error := fun _ => None |}.

Definition network_down : Remote :=
  {| reports := [(0, 8192, 20000)];
     retrieve_error := Some (OtherError (MsgText "connection reset"));
     extract_error := None;
     package := [2; 3; 4];
     copy_error := fun _ => None |}.

Definition start_with (fs : Files) : DWorld :=
  {| dreads := 0; dtrace := []; files := fs |}.

(** [dw'] differs from [dw] by clock readings and tracker events only. *)
Definition tracker_only (dw dw' : DWorld) : Prop :=
  files dw' = files dw /\
  exists evs, dtrace dw' = dtrace dw ++ map Core evs.

(** The line the copy loop prints for one scale. *)
Definition copy_line (remote : Remote) (scale : Z) : DLine :=
  if existsb (Z.eqb scale) (package remote)
  then ModelCopied scale else ModelMissing scale.

End Download.

(** ** IEEE 754 binary64, the [float] of CPython

    The arithmetic of [ProgressTracker] on clock readings is arithmetic on
    doubles.  [Binary64] gives the operations it uses over the Standard
    Library's [spec_float], rounding to nearest, ties to even, with the
    exceptions CPython raises. *)
Module Binary64.

Definition float := spec_float.

Definition prec : Z := 53.
Definition emax : Z := 1024.

Definition OverflowError : Exc := OtherError (MsgText "OverflowError").

(** An [int] as a dyadic number of exponent 0, not rounded. *)
Definition exact (z : Z) : float :=
  match z with
  | Z0 => S754_zero false
  | Zpos p => S754_finite false p 0
  | Zneg p => S754_finite true p 0
  end.

(** The double nearest to [n / d]: how a decimal literal such as [0.5] is
    read. *)
Definition literal (n d : Z) : float := SFdiv prec emax (exact n) (exact d).

(** The conversion of the [int] operand of a mixed operation: the nearest
    double, or [OverflowError] beyond the largest one. *)
Definition of_int (z : Z) : Exc + float :=
  match binary_normalize prec emax z 0 false with
  | S754_infinity _ => inl OverflowError
  | x => inr x
  end.

(** [a / b] on two [int]s: the quotient, rounded once. *)
Definition int_truediv (a b : Z) : Exc + float :=
  if b =? 0 then inl ZeroDivisionError
  else match SFdiv prec emax (exact a) (exact b) with
       | S754_infinity _ => inl OverflowError
       | q => inr q
       end.

(** [x - y] and [x * y] on two [float]s; neither raises. *)
Definition sub (x y : float) : float := SFsub prec emax x y.
Definition mul (x y : float) : float := SFmul prec emax x y.

Definition is_zero (x : float) : bool :=
  match x with S754_zero _ => true | _ => false end.

(** [x / y] on two [float]s. *)
Definition truediv (x y : float) : Exc + float :=
  if is_zero y then inl ZeroDivisionError else inr (SFdiv prec emax x y).

(** Neither an infinity nor a NaN. *)
Definition is_finite (x : float) : bool :=
  match x with
  | S754_zero _ | S754_finite _ _ _ => true
  | _ => false
  end.

(** [x >= y] and [x < y]; false when either is a NaN. *)
Definition ge (x y : float) : bool := SFleb y x.
Definition lt (x y : float) : bool := SFltb x y.

(** [int(x)]: truncation towards zero. *)
Definition to_int (x : float) : Exc + Z :=
  match x with
  | S754_zero _ => inr 0
  | S754_finite s m e => inr (cond_Zopp s (Z.shiftl (Zpos m) e))
  | S754_infinity _ => inl OverflowError
  | S754_nan =>
      inl (ValueError (MsgText "cannot convert float NaN to integer"))
  end.

(** [datetime.timedelta(seconds=k)] for an [int]: it holds at most
    999999999 days either way. *)
Definition timedelta (k : Z) : Exc + Z :=
  if (-999999999 <=? k / 86400) && (k / 86400 <=? 999999999) then inr k
  else inl OverflowError.

End Binary64.

(** ** [class ProgressTracker] over doubles

    The tracker is an object in the store: a method that raises leaves the
    assignments it has made.  The state holds the tracker, the number of
    clock readings made so far and what was written to standard output.
    [total] and [current] are [int]s, as everywhere in the program.  Memory
    is not bounded, and an [int] is printed whatever its length. *)
Module Tracker64.
Import Binary64.

(** The value formatted by [{percent:.1f}]: [min(100, x)] is the [int] 100
    or the [float] [x]. *)
Inductive Number := Int (z : Z) | Float (x : float).

Record Shown := mk_shown {
  s_description : string;
  s_bar : list BarCell;
  s_percent : Number;
  s_current : Z;
  s_total : Z;
  s_eta : Eta
}.

Inductive Written :=
| Progress (r : Shown)           (* line 73 *)
| LineBreak                      (* line 79 *)
| Completed (seconds : Z).       (* line 83 *)

Record ProgressTracker := mk_tracker {
  total : Z;
  current : Z;
  start_time : float;
  description : string;
  last_update_time : float;      (* the [int] 0 of line 41 is held as 0.0,
                                    to which line 49 converts it *)
  update_interval : float
}.

Record State := mk_state {
  clock_reads : nat;
  written : list Written;
  self : ProgressTracker
}.

Definition T (A : Type) : Type := State -> (Exc + A) * State.

Definition unit_ {A} (a : A) : T A := fun s => (inr a, s).

Definition then_ {A B} (m : T A) (k : A -> T B) : T B :=
  fun s => match m s with
           | (inl e, s') => (inl e, s')
           | (inr a, s') => k a s'
           end.

(** The outcome of an operation that touches no state. *)
Definition eval {A} (r : Exc + A) : T A := fun s => (r, s).

Definition attr {A} (field : ProgressTracker -> A) : T A :=
  fun s => (inr (field (self s)), s).

Definition set_current (v : Z) : T unit :=
  fun s => (inr tt,
            {| clock_reads := clock_reads s; written := written s;
               self := {| total := total (self s); current := v;
                          start_time := start_time (self s);
                          description := description (self s);
                          last_update_time := last_update_time (self s);
                          update_interval := update_interval (self s) |} |}).

Definition set_last_update_time (v : float) : T unit :=
  fun s => (inr tt,
            {| clock_reads := clock_reads s; written := written s;
               self := {| total := total (self s);
                          current := current (self s);
                          start_time := start_time (self s);
                          description := description (self s);
                          last_update_time := v;
                          update_interval := update_interval (self s) |} |}).

Definition write (l : Written) : T unit :=
  fun s => (inr tt,
            {| clock_reads := clock_reads s; written := written s ++ [l];
               self := self s |}).

Definition time_time (clock : nat -> float) : T float :=
  fun s => (inr (clock (clock_reads s)),
            {| clock_reads := S (clock_reads s); written := written s;
               self := self s |}).

Notation "x <== m ;; k" := (then_ m (fun x => k))
  (at level 61, m at next level, right associativity).
Notation "m ;;; k" := (then_ m (fun _ => k))
  (at level 61, right associativity).

(** [__init__]: the new object replaces the one in the store. *)
Definition init (clock : nat -> float) (total : Z) (description : string)
  : T unit :=
  t <== time_time clock ;;
  fun s => (inr tt,
            {| clock_reads := clock_reads s; written := written s;
               self := {| total := total; current := 0; start_time := t;
                          description := description;
                          last_update_time := S754_zero false;
                          update_interval := literal 1 2 |} |}).

Definition bar_length : Z := 30.

(** [c * n] for a one-character string [c]: empty for a negative [n], and
    [OverflowError] for an [n] that does not fit a machine index (of 64
    bits). *)
Definition cells (c : BarCell) (n : Z) : Exc + list BarCell :=
  if (- 2 ^ 63 <=? n) && (n <=? 2 ^ 63 - 1)
  then inr (repeat c (Z.to_nat n))
  else inl OverflowError.

(** [min(100, x)] for a [float] [x]: the second argument is taken only when
    it is smaller than the first. *)
Definition min100 (x : float) : Number :=
  if lt x (literal 100 1) then Float x else Int 100.

(** Lines 61-65. *)
Definition eta_of (elapsed : float) (total current : Z) : T Eta :=
  if current >? 0 then
    remaining <== eval (of_int (total - current)) ;;
    let product := mul elapsed remaining in
    done <== eval (of_int current) ;;
    eta_seconds <== eval (truediv product done) ;;
    seconds <== eval (to_int eta_seconds) ;;
    seconds <== eval (timedelta seconds) ;;
    unit_ (EtaSeconds seconds)
  else unit_ EtaUnknown.

(** [display] *)
Definition display (clock : nat -> float) : T unit :=
  total <== attr total ;;
  if total <=? 0 then unit_ tt
  else
    current <== attr current ;;
    q <== eval (int_truediv (current * 100) total) ;;
    let percent := min100 q in
    now <== time_time clock ;;
    start_time <== attr start_time ;;
    let elapsed := sub now start_time in
    eta <== eta_of elapsed total current ;;
    f <== eval (int_truediv (bar_length * current) total) ;;
    filled_length <== eval (to_int f) ;;
    filled <== eval (cells Filled filled_length) ;;
    blank <== eval (cells Blank (bar_length - filled_length)) ;;
    description <== attr description ;;
    write (Progress {| s_description := description;
                       s_bar := filled ++ blank;
                       s_percent := percent;
                       s_current := current;
                       s_total := total;
                       s_eta := eta |}).

(** [update] *)
Definition update (clock : nat -> float) (amount : Z) : T unit :=
  current <== attr current ;;
  set_current (current + amount) ;;;
  current_time <== time_time clock ;;
  last_update_time <== attr last_update_time ;;
  update_interval <== attr update_interval ;;
  if ge (sub current_time last_update_time) update_interval then
    display clock ;;;
    set_last_update_time current_time
  else unit_ tt.

(** [complete] *)
Definition complete (clock : nat -> float) : T unit :=
  total <== attr total ;;
  set_current total ;;;
  display clock ;;;
  write LineBreak ;;;
  now <== time_time clock ;;
  start_time <== attr start_time ;;
  seconds <== eval (to_int (sub now start_time)) ;;
  seconds <== eval (timedelta seconds) ;;
  write (Completed seconds).


(** The state after the first statement of [complete]. *)
Definition finished (s : State) : State :=
  {| clock_reads := clock_reads s; written := written s;
     self := {| total := total (self s);
                current := total (self s);
                start_time := start_time (self s);
                description := description (self s);
                last_update_time := last_update_time (self s);
                update_interval := update_interval (self s) |} |}.

(** The last progress line of a tracker: everything done. *)
Definition full_line (self : ProgressTracker) : Shown :=
  {| s_description := description self;
     s_bar := repeat Filled 30;
     s_percent := Int 100;
     s_current := total self;
     s_total := total self;
     s_eta := EtaSeconds 0 |}.

Definition wrote (s : State) (readings : nat) (ls : list Written) : State :=
  {| clock_reads := clock_reads s + readings;
     written := written s ++ ls;
     self := self s |}.

(** A tracker of 4 tiles started at 0.3, and a clock that reads 1.0 and
    then 3.3. *)
Definition tracker_of_4 : State :=
  {| clock_reads := 0; written := [];
     self := {| total := 4; current := 3; start_time := literal 3 10;
                description := "Processing tiles";
                last_update_time := literal 1 10;
                update_interval := literal 1 2 |} |}.

Definition clock_10_33 (n : nat) : float :=
  match n with
  | O => literal 1 1
  | _ => literal 33 10
  end.



End Tracker64.

(** ** Properties of the partitioner *)
Module PartitionFacts.
Import Partition.

Lemma in_range (n k : Z) : In k (Py.range n) <-> 0 <= k < n.
Proof.
  unfold Py.range. rewrite in_map_iff. split.
  - intros (i & <- & Hi). apply in_seq in Hi. lia.
  - intros Hk. exists (Z.to_nat k). split; [lia|]. apply in_seq. lia.
Qed.

Lemma range_length (n : Z) : length (Py.range n) = Z.to_nat n.
Proof. unfold Py.range. now rewrite length_map, length_seq. Qed.

Lemma inner_loop (image : ndarray) (f : Z -> TilePosition) (xs : list Z)
      (ts : list ndarray) (ps : list TilePosition) :
  fold_left
    (fun '(tiles, tile_positions) x =>
       let p := f x in (tiles ++ [extract image p], tile_positions ++ [p]))
    xs (ts, ps)
  = (ts ++ map (fun x => extract image (f x)) xs, ps ++ map f xs).
Proof.
  revert ts ps. induction xs as [|x xs IH]; intros ts ps; simpl.
  - now rewrite !app_nil_r.
  - rewrite IH. now rewrite <- !app_assoc.
Qed.

Lemma outer_loop (image : ndarray) (f : Z -> Z -> TilePosition)
      (xs ys : list Z) (ts : list ndarray) (ps : list TilePosition) :
  fold_left
    (fun acc y =>
       fold_left
         (fun '(tiles, tile_positions) x =>
            let p := f x y in
            (tiles ++ [extract image p], tile_positions ++ [p]))
         xs acc)
    ys (ts, ps)
  = (ts ++ map (extract image) (flat_map (fun y => map (fun x => f x y) xs) ys),
     ps ++ flat_map (fun y => map (fun x => f x y) xs) ys).
Proof.
  revert ts ps. induction ys as [|y ys IH]; intros ts ps; simpl.
  - now rewrite !app_nil_r.
  - rewrite (inner_loop image (fun x => f x y)). rewrite IH.
    rewrite map_app, map_map, <- !app_assoc. reflexivity.
Qed.

Lemma create_tiles_grid (image : ndarray) (tile_size : Z) :
  create_tiles image tile_size
  = (map (extract image) (grid (shape1 image) (shape0 image) tile_size),
     grid (shape1 image) (shape0 image) tile_size).
Proof.
  unfold create_tiles, grid.
  now rewrite (outer_loop image
                 (tile_position (shape1 image) (shape0 image) tile_size)).
Qed.

Lemma tile_positions_grid (image : ndarray) (tile_size : Z) :
  tile_positions image tile_size
  = grid (shape1 image) (shape0 image) tile_size.
Proof. unfold tile_positions. now rewrite create_tiles_grid. Qed.

Lemma tiles_grid (image : ndarray) (tile_size : Z) :
  tiles image tile_size
  = map (extract image) (tile_positions image tile_size).
Proof. unfold tiles, tile_positions. now rewrite create_tiles_grid. Qed.

Lemma in_grid (width height tile_size : Z) (p : TilePosition) :
  In p (grid width height tile_size) <->
  exists x y, 0 <= x < num_tiles_x width tile_size /\
              0 <= y < num_tiles_y height tile_size /\
              p = tile_position width height tile_size x y.
Proof.
  unfold grid. rewrite in_flat_map. split.
  - intros (y & Hy & Hp). apply in_map_iff in Hp as (x & <- & Hx).
    exists x, y. rewrite in_range in Hx, Hy. auto.
  - intros (x & y & Hx & Hy & ->). exists y. split; [now apply in_range|].
    apply in_map_iff. exists x. split; [reflexivity | now apply in_range].
Qed.

(** [max(1, (n + t - 1) // t)] is the ceiling of [n / t]. *)
Lemma ceil_bounds (n t : Z) :
  1 <= n -> 0 < t ->
  let k := Z.max 1 ((n + t - 1) / t) in
  1 <= k /\ (k - 1) * t < n <= k * t.
Proof.
  intros Hn Ht k.
  pose proof (Z.div_mod (n + t - 1) t ltac:(lia)) as E.
  pose proof (Z.mod_pos_bound (n + t - 1) t Ht) as B.
  assert (1 <= (n + t - 1) / t) by (apply Z.div_le_lower_bound; lia).
  subst k. rewrite Z.max_r by lia. split; [lia|]. nia.
Qed.

End PartitionFacts.

(** ** The partitioner covers the raster and enumerates it row by row *)
Module GridFacts.
Import Partition PartitionFacts.

Section Rows.
Context {A : Type} (g : Z -> Z -> A) (m : nat).

Let row (y : Z) : list A := map (fun x => g x y) (map Z.of_nat (seq 0 m)).

Lemma row_length (y : Z) : length (row y) = m.
Proof. unfold row. now rewrite !length_map, length_seq. Qed.

Lemma row_nth (y : Z) (j : nat) :
  (j < m)%nat -> nth_error (row y) j = Some (g (Z.of_nat j) y).
Proof.
  intros Hj. unfold row. rewrite map_map.
  rewrite nth_error_map, nth_error_seq.
  destruct (Nat.ltb_spec j m); [reflexivity | lia].
Qed.

Lemma rows_length (s n : nat) :
  length (flat_map row (map Z.of_nat (seq s n))) = (n * m)%nat.
Proof.
  revert s. induction n as [|n IH]; intros s; simpl; [reflexivity|].
  now rewrite length_app, row_length, IH.
Qed.

Lemma rows_nth (s n i j : nat) :
  (i < n)%nat -> (j < m)%nat ->
  nth_error (flat_map row (map Z.of_nat (seq s n))) (i * m + j)
  = Some (g (Z.of_nat j) (Z.of_nat (s + i))).
Proof.
  revert s i. induction n as [|n IH]; intros s i Hi Hj; [lia|].
  simpl. destruct i as [|i].
  - simpl. rewrite nth_error_app1 by (rewrite row_length; exact Hj).
    rewrite Nat.add_0_r. now apply row_nth.
  - rewrite nth_error_app2 by (rewrite row_length; simpl; lia).
    rewrite row_length.
    replace (S i * m + j - m)%nat with (i * m + j)%nat by (simpl; lia).
    rewrite IH by lia. do 2 f_equal. lia.
Qed.

End Rows.

Lemma grid_length (width height tile_size : Z) :
  length (grid width height tile_size)
  = Z.to_nat (num_tiles_x width tile_size * num_tiles_y height tile_size).
Proof.
  unfold grid, Py.range. rewrite rows_length.
  assert (0 <= num_tiles_x width tile_size) by (unfold num_tiles_x; lia).
  assert (0 <= num_tiles_y height tile_size) by (unfold num_tiles_y; lia).
  rewrite Z2Nat.inj_mul by assumption. lia.
Qed.

Lemma grid_nth (width height tile_size tx ty : Z) :
  0 <= tx < num_tiles_x width tile_size ->
  0 <= ty < num_tiles_y height tile_size ->
  nth_error (grid width height tile_size)
            (Z.to_nat (ty * num_tiles_x width tile_size + tx))
  = Some (tile_position width height tile_size tx ty).
Proof.
  intros Hx Hy. unfold grid, Py.range.
  replace (Z.to_nat (ty * num_tiles_x width tile_size + tx))
    with (Z.to_nat ty * Z.to_nat (num_tiles_x width tile_size)
          + Z.to_nat tx)%nat by nia.
  rewrite rows_nth by lia. simpl. now rewrite !Z2Nat.id by lia.
Qed.

(** A tile of the grid is a non-empty rectangle inside the raster. *)
Lemma tile_position_bounds (width height tile_size x y : Z) :
  1 <= width -> 1 <= height -> 0 < tile_size ->
  0 <= x < num_tiles_x width tile_size ->
  0 <= y < num_tiles_y height tile_size ->
  let p := tile_position width height tile_size x y in
  0 <= x_start_of p < x_end_of p /\ x_end_of p <= width /\
  0 <= y_start_of p < y_end_of p /\ y_end_of p <= height.
Proof.
  intros Hw Hh Ht Hx Hy.
  destruct (ceil_bounds width tile_size Hw Ht) as (_ & Bx).
  destruct (ceil_bounds height tile_size Hh Ht) as (_ & By).
  fold (num_tiles_x width tile_size) in Bx.
  fold (num_tiles_y height tile_size) in By.
  unfold tile_position, overlap; simpl.
  assert (x * tile_size < width) by nia.
  assert (y * tile_size < height) by nia.
  repeat split; try lia.
Qed.

Lemma tile_position_covers (width height tile_size px py : Z) :
  0 < tile_size -> 0 <= px < width -> 0 <= py < height ->
  covers (tile_position width height tile_size
                        (px / tile_size) (py / tile_size)) px py.
Proof.
  intros Ht Hx Hy.
  pose proof (Z.div_mod px tile_size ltac:(lia)) as Ex.
  pose proof (Z.mod_pos_bound px tile_size Ht) as Bx.
  pose proof (Z.div_mod py tile_size ltac:(lia)) as Ey.
  pose proof (Z.mod_pos_bound py tile_size Ht) as By.
  unfold covers, tile_position, overlap; simpl.
  repeat split; lia.
Qed.

Lemma position_inside (image : ndarray) (tile_size : Z) (p : TilePosition) :
  1 <= shape1 image -> 1 <= shape0 image -> 0 < tile_size ->
  In p (tile_positions image tile_size) ->
  inside (shape1 image) (shape0 image) p.
Proof.
  intros Hw Hh Ht Hp. rewrite tile_positions_grid in Hp.
  apply in_grid in Hp as (x & y & Hx & Hy & ->).
  now apply tile_position_bounds.
Qed.

Lemma position_found (image : ndarray) (tile_size px py : Z) :
  1 <= shape1 image -> 1 <= shape0 image -> 0 < tile_size ->
  0 <= px < shape1 image -> 0 <= py < shape0 image ->
  exists p, In p (tile_positions image tile_size) /\ covers p px py.
Proof.
  intros Hw Hh Ht Hx Hy. rewrite tile_positions_grid.
  destruct (ceil_bounds (shape1 image) tile_size Hw Ht) as (_ & Bx).
  destruct (ceil_bounds (shape0 image) tile_size Hh Ht) as (_ & By).
  fold (num_tiles_x (shape1 image) tile_size) in Bx.
  fold (num_tiles_y (shape0 image) tile_size) in By.
  exists (tile_position (shape1 image) (shape0 image) tile_size
                        (px / tile_size) (py / tile_size)).
  split; [|now apply tile_position_covers].
  apply in_grid. exists (px / tile_size), (py / tile_size).
  pose proof (Z.div_mod px tile_size ltac:(lia)) as Ex.
  pose proof (Z.mod_pos_bound px tile_size Ht) as Mx.
  pose proof (Z.div_mod py tile_size ltac:(lia)) as Ey.
  pose proof (Z.mod_pos_bound py tile_size Ht) as My.
  assert (0 <= px / tile_size) by (apply Z.div_pos; lia).
  assert (0 <= py / tile_size) by (apply Z.div_pos; lia).
  repeat split; try assumption; nia.
Qed.

(** C2. For a raster of at least one pixel and a positive tile size, every
    tile position the partitioner produces satisfies
    [0 <= x_start < x_end <= width] and [0 <= y_start < y_end <= height], and
    the tiles together cover exactly the pixels of
    [[0,width) x [0,height)]: a pixel lies in the raster if and only if some
    produced tile contains it. *)
Theorem partition_coverage (image : ndarray) (tile_size : Z) :
  1 <= shape1 image -> 1 <= shape0 image -> 0 < tile_size ->
  (forall p, In p (tile_positions image tile_size) ->
     0 <= x_start_of p < x_end_of p /\ x_end_of p <= shape1 image /\
     0 <= y_start_of p < y_end_of p /\ y_end_of p <= shape0 image) /\
  (forall px py,
     (0 <= px < shape1 image /\ 0 <= py < shape0 image) <->
     exists p, In p (tile_positions image tile_size) /\ covers p px py).
Proof.
  intros Hw Hh Ht. split.
  - intros p Hp. exact (position_inside image tile_size p Hw Hh Ht Hp).
  - intros px py. split.
    + intros [Hx Hy]. now apply position_found.
    + intros (p & Hp & Hc).
      pose proof (position_inside image tile_size p Hw Hh Ht Hp) as Hin.
      unfold inside, covers in *. lia.
Qed.

Lemma partition_coverage_witness :
  (forall p, In p (tile_positions image_2000x1500 1024) ->
     0 <= x_start_of p < x_end_of p /\ x_end_of p <= 2000 /\
     0 <= y_start_of p < y_end_of p /\ y_end_of p <= 1500) /\
  (forall px py,
     (0 <= px < 2000 /\ 0 <= py < 1500) <->
     exists p, In p (tile_positions image_2000x1500 1024) /\ covers p px py).
Proof.
  apply (partition_coverage image_2000x1500 1024); simpl; lia.
Defined.

(** C3. For a raster of at least one pixel, a positive tile size and the
    overlap of 16, the partitioner produces [num_tiles_x * num_tiles_y]
    positions, where [num_tiles_x] is the ceiling of [width / tile_size] and
    [num_tiles_y] the ceiling of [height / tile_size], both at least 1; the
    position of tile [(tx, ty)] is
    [(max(0, tx*tile_size - 16), max(0, ty*tile_size - 16),
      min(width, (tx+1)*tile_size + 16), min(height, (ty+1)*tile_size + 16))]
    and it stands at index [ty * num_tiles_x + tx] of the sequence, that is,
    in row-major order with [ty] outermost. *)
Theorem partition_row_major (image : ndarray) (tile_size : Z) :
  1 <= shape1 image -> 1 <= shape0 image -> 0 < tile_size ->
  let width := shape1 image in
  let height := shape0 image in
  let nx := num_tiles_x width tile_size in
  let ny := num_tiles_y height tile_size in
  overlap = 16 /\
  length (tile_positions image tile_size) = Z.to_nat (nx * ny) /\
  length (tiles image tile_size) = Z.to_nat (nx * ny) /\
  (1 <= nx /\ (nx - 1) * tile_size < width <= nx * tile_size) /\
  (1 <= ny /\ (ny - 1) * tile_size < height <= ny * tile_size) /\
  forall tx ty, 0 <= tx < nx -> 0 <= ty < ny ->
    nth_error (tile_positions image tile_size) (Z.to_nat (ty * nx + tx))
    = Some (Z.max 0 (tx * tile_size - 16), Z.max 0 (ty * tile_size - 16),
            Z.min width ((tx + 1) * tile_size + 16),
            Z.min height ((ty + 1) * tile_size + 16)).
Proof.
  intros Hw Hh Ht width height nx ny.
  rewrite tiles_grid, length_map, tile_positions_grid.
  split; [reflexivity|].
  split; [apply grid_length|]. split; [apply grid_length|].
  split; [exact (ceil_bounds width tile_size Hw Ht)|].
  split; [exact (ceil_bounds height tile_size Hh Ht)|].
  intros tx ty Hx Hy. subst nx ny.
  rewrite grid_nth by assumption. reflexivity.
Qed.

Lemma partition_row_major_witness :
  length (tile_positions image_2000x1500 1024) = 4%nat /\
  nth_error (tile_positions image_2000x1500 1024) 2
  = Some (0, 1008, 1040, 1500).
Proof.
  destruct (partition_row_major image_2000x1500 1024)
    as (_ & Hlen & _ & _ & _ & Hnth); simpl; try lia.
  split; [exact Hlen|].
  apply (Hnth 0 1); vm_compute; split; congruence.
Defined.

End GridFacts.

(** ** The progress meter *)
Module TrackerFacts.

Lemma Qeq_bool_inject_Z (z : Z) : Qeq_bool (inject_Z z) 0 = (z =? 0).
Proof. destruct z; reflexivity. Qed.

Lemma truediv_inject_Z (a : Q) (z : Z) (w : World) :
  z <> 0 -> truediv a (inject_Z z) w = (inr (a / inject_Z z)%Q, w).
Proof.
  intros Hz. unfold truediv. rewrite Qeq_bool_inject_Z.
  destruct (Z.eqb_spec z 0); [contradiction | reflexivity].
Qed.

Lemma display_skips (env : Env) (self : ProgressTracker) (w : World) :
  total self <= 0 -> display env self w = (inr tt, w).
Proof.
  intros H. unfold display.
  destruct (Z.leb_spec (total self) 0); [reflexivity | lia].
Qed.

Lemma display_renders (env : Env) (self : ProgressTracker) (w : World) :
  0 < total self ->
  display env self w
  = (inr tt, say (tick w)
                 [ProgressLine (rendering_at self (clock env (reads w)))]).
Proof.
  intros H. unfold display.
  destruct (Z.leb_spec (total self) 0); [lia|].
  unfold bind at 1. rewrite truediv_inject_Z by lia.
  unfold bind at 1. unfold time_time at 1.
  unfold rendering_at, eta_at.
  destruct (Z.gtb_spec (current self) 0) as [Hc|Hc].
  - unfold bind at 1. unfold bind at 1.
    rewrite truediv_inject_Z by lia.
    unfold ret at 1. unfold bind at 1.
    rewrite truediv_inject_Z by lia. reflexivity.
  - unfold bind at 1. unfold ret at 1. unfold bind at 1.
    rewrite truediv_inject_Z by lia. reflexivity.
Qed.

(** [display] never raises: each division is guarded. *)
Lemma display_returns (env : Env) (self : ProgressTracker) (w : World) :
  exists ls, display env self w = (inr tt, say (if total self <=? 0 then w else tick w) ls)
             /\ Forall (fun l => exists r, l = ProgressLine r) ls.
Proof.
  destruct (Z.leb_spec (total self) 0) as [H|H].
  - exists []. rewrite display_skips by assumption. split; [|constructor].
    unfold say. simpl. rewrite app_nil_r. now destruct w.
  - eexists. rewrite display_renders by assumption. split; [reflexivity|].
    constructor; [eexists; reflexivity | constructor].
Qed.

Lemma update_unfold (env : Env) (self : ProgressTracker) (n : Z) (w : World) :
  update env self n w
  = let self1 := set_current self (current self + n) in
    let now := clock env (reads w) in
    if Qle_bool (update_interval self) (now - last_update_time self)
    then (inr (set_last_update_time self1 now),
          snd (display env self1 (tick w)))
    else (inr self1, tick w).
Proof.
  unfold update. unfold bind at 1. unfold time_time at 1. simpl.
  fold (tick w).
  destruct (Qle_bool _ _); [|reflexivity].
  unfold bind.
  destruct (display_returns env (set_current self (current self + n)) (tick w))
    as (ls & -> & _).
  reflexivity.
Qed.

(** C10. When [total <= 0], [display] returns at once: it reads no clock and
    writes nothing, so the world is unchanged.  In every state [display]
    returns normally; in particular neither division by [total] raises
    [ZeroDivisionError], since both are reached only when [total > 0]. *)
Theorem display_total_guard (env : Env) (self : ProgressTracker) (w : World) :
  (total self <= 0 -> display env self w = (inr tt, w)) /\
  fst (display env self w) = inr tt.
Proof.
  split; [apply display_skips|].
  destruct (display_returns env self w) as (ls & -> & _). reflexivity.
Qed.

Lemma display_total_guard_witness :
  display env_2x tracker_empty world_later = (inr tt, world_later).
Proof.
  apply (proj1 (display_total_guard env_2x tracker_empty world_later)).
  simpl. lia.
Defined.

End TrackerFacts.

(** ** The progress meter over doubles: throttling and the ETA *)
Module Tracker64Facts.
Import Binary64 Tracker64.









End Tracker64Facts.

(** ** Which events a computation can emit *)
Module TraceFacts.

Lemma only_adds_refl (P : Event -> bool) (w : World) : only_adds P w w.
Proof. exists []. now rewrite app_nil_r. Qed.

Lemma only_adds_trans (P : Event -> bool) (w1 w2 w3 : World) :
  only_adds P w1 w2 -> only_adds P w2 w3 -> only_adds P w1 w3.
Proof.
  intros (e1 & E1 & F1) (e2 & E2 & F2). exists (e1 ++ e2).
  rewrite E2, E1, app_assoc, forallb_app, F1, F2. auto.
Qed.

Lemma only_adds_weaken (P Q : Event -> bool) (w w' : World) :
  (forall e, P e = true -> Q e = true) ->
  only_adds P w w' -> only_adds Q w w'.
Proof.
  intros H (evs & E & F). exists evs. split; [exact E|].
  rewrite forallb_forall in *. auto.
Qed.

Section Structure.
Context (P : Event -> bool).

Lemma emits_ret {A} (a : A) : emits P (ret a).
Proof. intros w. apply only_adds_refl. Qed.

Lemma emits_raise {A} (e : Exc) : emits P (@raise A e).
Proof. intros w. apply only_adds_refl. Qed.

Lemma emits_bind {A B} (m : M A) (k : A -> M B) :
  emits P m -> (forall a, emits P (k a)) -> emits P (bind m k).
Proof.
  intros Hm Hk w. unfold bind. specialize (Hm w).
  destruct (m w) as [[e|a] w1]; simpl in *; [exact Hm|].
  eapply only_adds_trans; [exact Hm | apply Hk].
Qed.

Lemma emits_try {A} (class : Exc -> bool) (body : M A)
      (handler : Exc -> M A) :
  emits P body -> (forall e, emits P (handler e)) ->
  emits P (try_except class body handler).
Proof.
  intros Hb Hh w. unfold try_except. specialize (Hb w).
  destruct (body w) as [[e|a] w1]; simpl in *; [|exact Hb].
  destruct (class e); [|exact Hb].
  eapply only_adds_trans; [exact Hb | apply Hh].
Qed.

Lemma emits_emit (e : Event) : P e = true -> emits P (emit e).
Proof.
  intros He w. exists [e]. simpl. now rewrite He.
Qed.

Lemma emits_time (env : Env) : emits P (time_time env).
Proof. intros w. exists []. simpl. now rewrite app_nil_r. Qed.

Lemma emits_truediv (a b : Q) : emits P (truediv a b).
Proof.
  unfold truediv. destruct (Qeq_bool b 0);
    [apply emits_raise | apply emits_ret].
Qed.

End Structure.

Lemma emits_weaken (P Q : Event -> bool) {A} (m : M A) :
  (forall e, P e = true -> Q e = true) -> emits P m -> emits Q m.
Proof. intros H Hm w. eapply only_adds_weaken; [exact H | apply Hm]. Qed.

(** One structural step; event side conditions are closed by computation. *)
Ltac emits_step :=
  match goal with
  | |- emits _ (bind _ _) => apply emits_bind; [|intros]
  | |- emits _ (ret _) => apply emits_ret
  | |- emits _ (raise _) => apply emits_raise
  | |- emits _ (sys_exit _) => apply emits_raise
  | |- emits _ (try_except _ _ _) => apply emits_try; [|intros]
  | |- emits _ (emit _) => apply emits_emit; reflexivity
  | |- emits _ (print _) => apply emits_emit; reflexivity
  | |- emits _ (time_time _) => apply emits_time
  | |- emits _ (truediv _ _) => apply emits_truediv
  | |- emits _ (if ?b then _ else _) => destruct b
  | |- emits _ (match ?x with _ => _ end) => destruct x
  end.

Lemma emits_display (env : Env) (self : ProgressTracker) :
  emits tracker_event (display env self).
Proof. unfold display. repeat emits_step. Qed.

Lemma emits_update (env : Env) (self : ProgressTracker) (n : Z) :
  emits tracker_event (update env self n).
Proof.
  unfold update. repeat (emits_step || apply emits_display).
Qed.

Lemma emits_complete (env : Env) (self : ProgressTracker) :
  emits tracker_event (complete env self).
Proof.
  unfold complete. repeat (emits_step || apply emits_display).
Qed.

Lemma emits_init (env : Env) (n : Z) (d : string) :
  emits tracker_event (Tracker.init env n d).
Proof. unfold Tracker.init. repeat emits_step. Qed.

Lemma tracker_dispatch (e : Event) :
  tracker_event e = true -> dispatch_event e = true.
Proof. destruct e; simpl; congruence. Qed.

Lemma dispatch_stage (e : Event) :
  dispatch_event e = true -> stage_event e = true.
Proof. destruct e as [[]| | | | | | |]; simpl; congruence. Qed.

Lemma tracker_stage (e : Event) :
  tracker_event e = true -> stage_event e = true.
Proof. intros H. now apply dispatch_stage, tracker_dispatch. Qed.

Lemma emits_sr_upsample (env : Env) (img : ndarray) :
  emits dispatch_event (sr_upsample env img).
Proof. unfold sr_upsample. repeat emits_step. Qed.

Lemma emits_process_tile (env : Env) (args : ndarray * option ProgressTracker) :
  emits dispatch_event (process_tile env args).
Proof.
  unfold process_tile. destruct args as [tile tracker].
  apply emits_bind; [apply emits_sr_upsample|]. intros result.
  destruct tracker; [|apply emits_ret].
  apply emits_bind; [|intros; apply emits_ret].
  eapply emits_weaken; [exact tracker_dispatch | apply emits_update].
Qed.

Lemma emits_executor_map (env : Env) (tiles : list ndarray)
      (tracker : option ProgressTracker) :
  emits dispatch_event (executor_map env tiles tracker).
Proof.
  revert tracker.
  induction tiles as [|tile rest IH]; intros tracker; cbn [executor_map].
  - apply emits_ret.
  - apply emits_bind; [apply emits_process_tile|]. intros [result tracker1].
    apply emits_bind; [apply IH|]. intros [results tracker2].
    apply emits_ret.
Qed.

End TraceFacts.

(** ** The dispatcher *)
Module DispatchFacts.
Import Partition TrackerFacts TraceFacts.

Lemma update_returns (env : Env) (self : ProgressTracker) (n : Z) (w : World) :
  exists self' w',
    update env self n w = (inr self', w') /\ only_adds tracker_event w w'.
Proof.
  pose proof (emits_update env self n w) as H.
  rewrite update_unfold in *. cbv zeta in *.
  destruct (Qle_bool _ _); eexists _, _; (split; [reflexivity | exact H]).
Qed.

Lemma complete_returns (env : Env) (self : ProgressTracker) (w : World) :
  exists w',
    complete env self w = (inr (set_current self (total self)), w')
    /\ only_adds tracker_event w w'.
Proof.
  pose proof (emits_complete env self w) as H.
  unfold complete in *. unfold bind at 1 in H. unfold bind at 1.
  destruct (display_returns env (set_current self (total self)) w)
    as (ls & E & _).
  rewrite E in *. eexists. split; [reflexivity | exact H].
Qed.

Lemma calls_app (t1 t2 : list Event) :
  upsample_calls (t1 ++ t2) = upsample_calls t1 ++ upsample_calls t2.
Proof. unfold upsample_calls. apply flat_map_app. Qed.

Lemma calls_of_tracker (evs : list Event) :
  forallb tracker_event evs = true -> upsample_calls evs = [].
Proof.
  induction evs as [|e evs IH]; [reflexivity|]. simpl.
  intros H. apply andb_prop in H as [He H]. rewrite (IH H).
  destruct e; try discriminate. reflexivity.
Qed.

Lemma calls_only_tracker (w w' : World) :
  only_adds tracker_event w w' ->
  upsample_calls (trace w') = upsample_calls (trace w).
Proof.
  intros (evs & -> & H).
  now rewrite calls_app, (calls_of_tracker evs H), app_nil_r.
Qed.

Lemma process_tile_returns (env : Env) (tile r : ndarray)
      (tracker : option ProgressTracker) (w : World) :
  upsample env tile = inr r ->
  exists tracker' w',
    process_tile env (tile, tracker) w = (inr (r, tracker'), w') /\
    upsample_calls (trace w') = upsample_calls (trace w) ++ [tile].
Proof.
  intros Hr. unfold process_tile, sr_upsample.
  unfold bind at 1. unfold bind at 1. unfold emit at 1. rewrite Hr.
  unfold ret at 1.
  destruct tracker as [t|].
  - unfold bind.
    destruct (update_returns env t 1
                {| reads := reads w; trace := trace w ++ [Upsample tile] |})
      as (t' & w' & -> & Hw).
    eexists _, _. split; [reflexivity|].
    rewrite (calls_only_tracker _ _ Hw). simpl. now rewrite calls_app.
  - eexists _, _. split; [reflexivity|]. simpl. now rewrite calls_app.
Qed.

Lemma process_tile_raises (env : Env) (tile : ndarray) (e : Exc)
      (tracker : option ProgressTracker) (w : World) :
  upsample env tile = inl e ->
  exists w', process_tile env (tile, tracker) w = (inl e, w').
Proof.
  intros He. unfold process_tile, sr_upsample.
  unfold bind at 1. unfold bind at 1. unfold emit at 1. rewrite He.
  eexists. reflexivity.
Qed.

(** C5. When the transform succeeds on every tile, the dispatcher returns as
    many results as it was given tiles, the i-th result being the transform
    of the i-th tile, so that results pair with tiles (and hence with tile
    positions) by index alone; the transform is invoked once per tile. *)
Theorem dispatch_preserves_order (env : Env) (tiles : list ndarray)
        (tracker : option ProgressTracker) (w : World) :
  (forall t, In t tiles -> exists r, upsample env t = inr r) ->
  exists results tracker' w',
    executor_map env tiles tracker w = (inr (results, tracker'), w') /\
    length results = length tiles /\
    (forall i t, nth_error tiles i = Some t ->
       exists r, nth_error results i = Some r /\ upsample env t = inr r) /\
    upsample_calls (trace w') = upsample_calls (trace w) ++ tiles.
Proof.
  revert tracker w.
  induction tiles as [|tile rest IH]; intros tracker w Hok;
    cbn [executor_map].
  - exists [], tracker, w. split; [reflexivity|]. split; [reflexivity|].
    split; [|now rewrite app_nil_r].
    intros [|i] t Ht; discriminate.
  - destruct (Hok tile (or_introl eq_refl)) as (r & Hr).
    destruct (process_tile_returns env tile r tracker w Hr)
      as (tracker1 & w1 & E1 & C1).
    destruct (IH tracker1 w1 (fun t Ht => Hok t (or_intror Ht)))
      as (results & tracker2 & w2 & E2 & Hlen & Hnth & C2).
    exists (r :: results), tracker2, w2.
    unfold bind at 1. rewrite E1. unfold bind at 1. rewrite E2.
    split; [reflexivity|]. split; [simpl; now rewrite Hlen|]. split.
    + intros [|i] t Ht; simpl in *.
      * injection Ht as <-. eauto.
      * now apply Hnth.
    + rewrite C2, C1, <- app_assoc. reflexivity.
Qed.

Lemma dispatch_preserves_order_witness :
  exists results tracker' w',
    executor_map env_2x (tiles image_2000x1500 1024) (Some tracker_halfway)
                 initial_world
    = (inr (results, tracker'), w') /\
    length results = 4%nat /\
    nth_error results 3
    = Some (nearest 2 (extract image_2000x1500 (1008, 1008, 2000, 1500))).
Proof.
  destruct (dispatch_preserves_order env_2x (tiles image_2000x1500 1024)
              (Some tracker_halfway) initial_world)
    as (results & tracker' & w' & E & Hlen & Hnth & _).
  { intros t _. eexists. reflexivity. }
  exists results, tracker', w'. split; [exact E|]. split; [exact Hlen|].
  destruct (Hnth 3%nat (extract image_2000x1500 (1008, 1008, 2000, 1500))
              eq_refl) as (r & Hr & Hup).
  simpl in Hup. injection Hup as <-. exact Hr.
Defined.

(** When the transform raises on some tile, the dispatcher raises the
    exception of the first such tile and emits nothing but transform calls
    and progress lines. *)
Lemma executor_map_raises (env : Env) (tiles : list ndarray)
      (tracker : option ProgressTracker) (w : World) :
  (exists t e, In t tiles /\ upsample env t = inl e) ->
  exists pre t0 post e0 w',
    tiles = pre ++ t0 :: post /\
    (forall t, In t pre -> exists r, upsample env t = inr r) /\
    upsample env t0 = inl e0 /\
    executor_map env tiles tracker w = (inl e0, w').
Proof.
  revert tracker w.
  induction tiles as [|tile rest IH]; intros tracker w (t & e & Hin & He).
  - destruct Hin.
  - cbn [executor_map]. destruct (upsample env tile) as [e0|r] eqn:Hup.
    + destruct (process_tile_raises env tile e0 tracker w Hup) as (w' & E).
      exists [], tile, rest, e0, w'. unfold bind at 1. rewrite E.
      repeat split; auto. intros ? [].
    + destruct (process_tile_returns env tile r tracker w Hup)
        as (tracker1 & w1 & E1 & _).
      assert (Hrest : exists t e, In t rest /\ upsample env t = inl e).
      { destruct Hin as [<-|Hin]; [congruence | eauto]. }
      destruct (IH tracker1 w1 Hrest)
        as (pre & t0 & post & e0 & w' & -> & Hpre & Ht0 & E).
      exists (tile :: pre), t0, post, e0, w'.
      unfold bind at 1. rewrite E1. unfold bind at 1. rewrite E.
      repeat split; auto.
      intros x [<-|Hx]; eauto.
Qed.

End DispatchFacts.

(** ** The compositor *)
Module CompositeFacts.
Import Partition PartitionFacts GridFacts TrackerFacts TraceFacts DispatchFacts.

Lemma slice_whole (n : Z) :
  0 <= n -> Py.adjust_index 0 n = 0 /\ Py.slice_len 0 n n = n.
Proof.
  intros Hn. unfold Py.slice_len, Py.adjust_index.
  replace (0 <? 0) with false by reflexivity.
  destruct (Z.ltb_spec n 0); [lia|].
  rewrite Z.min_l, Z.min_id by lia.
  split; [reflexivity|]. destruct (Z.ltb_spec 0 n); lia.
Qed.

Lemma slice_inside (a len n : Z) :
  0 <= a -> 0 <= len -> a + len <= n ->
  Py.adjust_index a n = a /\ Py.slice_len a (a + len) n = len.
Proof.
  intros Ha Hl Hn. unfold Py.slice_len, Py.adjust_index.
  destruct (Z.ltb_spec a 0); [lia|].
  destruct (Z.ltb_spec (a + len) 0); [lia|].
  rewrite !Z.min_l by lia. split; [reflexivity|].
  destruct (Z.ltb_spec a (a + len)); lia.
Qed.

Section OneTile.
Context (scale width height : Z) (p : TilePosition) (tile : ndarray).
Hypothesis Hscale : 1 <= scale.
Hypothesis Hp : inside width height p.
Hypothesis Ht : scaled_shape scale p tile.

Let output_width := width * scale.
Let output_height := height * scale.

Lemma out_bounds_scaled :
  out_bounds scale output_width output_height p
  = (x_start_of p * scale, y_start_of p * scale,
     x_end_of p * scale, y_end_of p * scale).
Proof.
  destruct p as [[[xs ys] xe] ye]. unfold inside in Hp. simpl in *.
  subst output_width output_height.
  rewrite !Z.max_r by nia. rewrite !Z.min_r by nia. reflexivity.
Qed.

Lemma scaled_target_exact :
  scaled_target scale output_width output_height p
  = (y_start_of p * scale, shape0 tile, x_start_of p * scale, shape1 tile).
Proof.
  unfold scaled_target. rewrite out_bounds_scaled.
  destruct Ht as [-> ->]. repeat (f_equal; try ring).
Qed.

Lemma tile_portion_shape :
  shape0 (tile_portion scale output_width output_height p tile) = shape0 tile
  /\ shape1 (tile_portion scale output_width output_height p tile)
     = shape1 tile.
Proof.
  unfold tile_portion. rewrite out_bounds_scaled.
  destruct Ht as [H0 H1]. unfold inside in Hp. simpl.
  rewrite !Z.min_l by (rewrite ?H0, ?H1; nia).
  assert (0 <= shape0 tile) by nia. assert (0 <= shape1 tile) by nia.
  split; now apply slice_whole.
Qed.

Lemma target_region_exact (upscaled : ndarray) :
  shape0 upscaled = output_height -> shape1 upscaled = output_width ->
  target_region upscaled
    (y_start_of p * scale) (y_start_of p * scale + shape0 tile)
    (x_start_of p * scale) (x_start_of p * scale + shape1 tile)
  = (y_start_of p * scale, shape0 tile, x_start_of p * scale, shape1 tile).
Proof.
  intros H0 H1. unfold target_region. rewrite H0, H1.
  destruct Ht as [T0 T1]. unfold inside in Hp.
  subst output_width output_height.
  destruct (slice_inside (y_start_of p * scale) (shape0 tile) (height * scale))
    as [-> ->]; [nia | nia | nia |].
  destruct (slice_inside (x_start_of p * scale) (shape1 tile) (width * scale))
    as [-> ->]; [nia | nia | nia |].
  reflexivity.
Qed.

(** The slice assignment of the loop body succeeds and writes exactly the
    scaled target of the tile. *)
Lemma place_fits (upscaled : ndarray) (w : World) :
  shape0 upscaled = output_height -> shape1 upscaled = output_width ->
  exists upscaled',
    place upscaled (x_start_of p * scale) (y_start_of p * scale)
          (tile_portion scale output_width output_height p tile) w
    = (inr upscaled',
       {| reads := reads w;
          trace := trace w
                   ++ [CanvasWrite
                         (scaled_target scale output_width output_height p)] |})
    /\ shape0 upscaled' = output_height /\ shape1 upscaled' = output_width.
Proof.
  intros H0 H1. unfold place, setslice.
  destruct tile_portion_shape as [-> ->].
  rewrite target_region_exact by assumption.
  unfold broadcasts. rewrite !Z.eqb_refl. simpl.
  eexists. unfold bind, emit, ret. simpl.
  rewrite scaled_target_exact. split; [reflexivity|]. auto.
Qed.

End OneTile.

Lemma writes_app (t1 t2 : list Event) :
  canvas_writes (t1 ++ t2) = canvas_writes t1 ++ canvas_writes t2.
Proof. unfold canvas_writes. apply flat_map_app. Qed.

Lemma errors_app (t1 t2 : list Event) :
  combine_errors (t1 ++ t2) = combine_errors t1 ++ combine_errors t2.
Proof.
  unfold combine_errors, stdout. now rewrite flat_map_app, filter_app.
Qed.

Lemma quiet_tracker (w w' : World) :
  only_adds tracker_event w w' ->
  canvas_writes (trace w') = canvas_writes (trace w) /\
  combine_errors (trace w') = combine_errors (trace w).
Proof.
  intros (evs & -> & H). rewrite writes_app, errors_app.
  assert (canvas_writes evs = [] /\ combine_errors evs = []) as [-> ->].
  { induction evs as [|e evs IH]; [split; reflexivity|].
    simpl in H. apply andb_prop in H as [He H]. destruct (IH H) as [I1 I2].
    change (e :: evs) with ([e] ++ evs). rewrite writes_app, errors_app, I1, I2.
    destruct e as [[]| | | | | | |]; try discriminate; split; reflexivity. }
  now rewrite !app_nil_r.
Qed.

Lemma combine_tile_fits (env : Env) (scale width height : Z)
      (p : TilePosition) (tile upscaled : ndarray)
      (tracker : ProgressTracker) (i : Z) (w : World) :
  1 <= scale -> inside width height p -> scaled_shape scale p tile ->
  shape0 upscaled = height * scale -> shape1 upscaled = width * scale ->
  exists upscaled' tracker' w',
    combine_tile env scale (width * scale) (height * scale)
                 (upscaled, tracker) i p tile w
    = (inr (upscaled', tracker'), w') /\
    shape0 upscaled' = height * scale /\ shape1 upscaled' = width * scale /\
    canvas_writes (trace w')
    = canvas_writes (trace w)
      ++ [scaled_target scale (width * scale) (height * scale) p] /\
    combine_errors (trace w') = combine_errors (trace w).
Proof.
  intros Hs Hp Ht H0 H1. unfold combine_tile.
  rewrite (out_bounds_scaled scale width height p tile Hs Hp Ht).
  destruct (place_fits scale width height p tile Hs Hp Ht upscaled w H0 H1)
    as (upscaled' & E & S0 & S1).
  unfold bind at 1. unfold try_except. rewrite E.
  unfold bind at 1.
  match goal with |- context [update env tracker 1 ?w1] =>
    destruct (update_returns env tracker 1 w1) as (tracker' & w' & -> & Hw)
  end.
  exists upscaled', tracker', w'. split; [reflexivity|].
  destruct (quiet_tracker _ _ Hw) as [-> ->]. simpl.
  rewrite writes_app, errors_app. simpl.
  repeat split; try assumption. now rewrite app_nil_r.
Qed.

Lemma combine_loop_fits (env : Env) (scale width height : Z)
      (pairs : list (TilePosition * ndarray)) :
  1 <= scale ->
  Forall (fun pt => inside width height (fst pt)
                    /\ scaled_shape scale (fst pt) (snd pt)) pairs ->
  forall (i : Z) (upscaled : ndarray) (tracker : ProgressTracker) (w : World),
  shape0 upscaled = height * scale -> shape1 upscaled = width * scale ->
  exists upscaled' tracker' w',
    combine_loop env scale (width * scale) (height * scale) i pairs
                 (upscaled, tracker) w
    = (inr (upscaled', tracker'), w') /\
    canvas_writes (trace w')
    = canvas_writes (trace w)
      ++ map (fun pt => scaled_target scale (width * scale) (height * scale)
                                      (fst pt)) pairs /\
    combine_errors (trace w') = combine_errors (trace w).
Proof.
  intros Hs Hall. induction Hall as [|[p tile] rest [Hp Ht] Hrest IH];
    intros i upscaled tracker w H0 H1; cbn [combine_loop].
  - exists upscaled, tracker, w. split; [reflexivity|].
    simpl. now rewrite app_nil_r.
  - destruct (combine_tile_fits env scale width height p tile upscaled
                                tracker i w Hs Hp Ht H0 H1)
      as (u1 & t1 & w1 & E1 & S0 & S1 & W1 & R1).
    destruct (IH (i + 1) u1 t1 w1 S0 S1) as (u2 & t2 & w2 & E2 & W2 & R2).
    exists u2, t2, w2. unfold bind at 1. rewrite E1, E2.
    split; [reflexivity|]. rewrite W2, W1, R2, R1, <- app_assoc.
    split; reflexivity.
Qed.

Lemma combine_Forall2 {A B} (R : A -> B -> Prop) (xs : list A) (ys : list B) :
  Forall2 R xs ys ->
  Forall (fun xy => R (fst xy) (snd xy)) (combine xs ys)
  /\ map fst (combine xs ys) = xs.
Proof.
  induction 1 as [|x y xs ys Hxy _ [IH1 IH2]]; simpl.
  - split; [constructor | reflexivity].
  - split; [constructor; assumption | now rewrite IH2].
Qed.

Lemma positions_inside (image : ndarray) (tile_size : Z) :
  1 <= shape1 image -> 1 <= shape0 image -> 0 < tile_size ->
  Forall (inside (shape1 image) (shape0 image))
         (tile_positions image tile_size).
Proof.
  intros Hw Hh Ht. apply Forall_forall. intros p Hp.
  exact (position_inside image tile_size p Hw Hh Ht Hp).
Qed.

(** C9. If every transformed tile has exactly [scale] times the dimensions
    of its position, then for every tile the cropped portion has the shape
    of its target region, the slice assignment succeeds and writes exactly
    that region, and the loop runs to its end without ever entering the
    [except ValueError] branch: no [Error combining tile] line is printed. *)
Theorem compositing_never_mismatches (env : Env) (image : ndarray)
        (tile_size scale : Z) (upscaled_tiles : list ndarray)
        (tracker : ProgressTracker) (w : World) :
  1 <= shape1 image -> 1 <= shape0 image -> 0 < tile_size -> 1 <= scale ->
  Forall2 (scaled_shape scale) (tile_positions image tile_size)
          upscaled_tiles ->
  let output_height := shape0 image * scale in
  let output_width := shape1 image * scale in
  exists upscaled' tracker' w',
    combine_loop env scale output_width output_height 0
                 (combine (tile_positions image tile_size) upscaled_tiles)
                 (zeros output_height output_width, tracker) w
    = (inr (upscaled', tracker'), w') /\
    combine_errors (trace w') = combine_errors (trace w) /\
    canvas_writes (trace w')
    = canvas_writes (trace w)
      ++ map (scaled_target scale output_width output_height)
             (tile_positions image tile_size) /\
    Forall2 (fun p tile =>
               let portion :=
                 tile_portion scale output_width output_height p tile in
               scaled_target scale output_width output_height p
               = (y_start_of p * scale, shape0 portion,
                  x_start_of p * scale, shape1 portion))
            (tile_positions image tile_size) upscaled_tiles.
Proof.
  intros Hw Hh Ht Hs Hshape output_height output_width.
  subst output_height output_width.
  pose proof (positions_inside image tile_size Hw Hh Ht) as Hin.
  destruct (combine_Forall2 _ _ _ Hshape) as [Hpairs Hfst].
  assert (Hall : Forall (fun pt => inside (shape1 image) (shape0 image) (fst pt)
                                   /\ scaled_shape scale (fst pt) (snd pt))
                        (combine (tile_positions image tile_size)
                                 upscaled_tiles)).
  { rewrite Forall_forall in *. intros pt Hpt. split; [|now apply Hpairs].
    apply Hin. rewrite <- Hfst. now apply in_map. }
  destruct (combine_loop_fits env scale (shape1 image) (shape0 image) _ Hs Hall
              0 (zeros (shape0 image * scale) (shape1 image * scale))
              tracker w eq_refl eq_refl)
    as (u & t & w' & E & W & R).
  exists u, t, w'. split; [exact E|]. split; [exact R|]. split.
  - rewrite W. f_equal. rewrite <- Hfst at 2. now rewrite map_map.
  - clear E W R Hall Hpairs Hfst.
    induction Hshape as [|p tile ps ts Hpt _ IH]; constructor.
    + apply Forall_inv in Hin. cbv zeta.
      destruct (tile_portion_shape scale (shape1 image) (shape0 image)
                                   p tile Hs Hin Hpt) as [-> ->].
      now apply scaled_target_exact.
    + apply IH. now apply Forall_inv_tail in Hin.
Qed.

Lemma compositing_never_mismatches_witness :
  exists upscaled' tracker' w',
    combine_loop env_2x 2 4000 3000 0
      (combine (tile_positions image_2000x1500 1024)
               (map (nearest 2) (tiles image_2000x1500 1024)))
      (zeros 3000 4000, tracker_halfway) initial_world
    = (inr (upscaled', tracker'), w') /\
    combine_errors (trace w') = [] /\
    canvas_writes (trace w')
    = [(0, 2080, 0, 2080); (0, 2080, 2016, 1984);
       (2016, 984, 0, 2080); (2016, 984, 2016, 1984)].
Proof.
  destruct (compositing_never_mismatches env_2x image_2000x1500 1024 2
              (map (nearest 2) (tiles image_2000x1500 1024))
              tracker_halfway initial_world)
    as (u & t & w' & E & R & W & _); try (simpl; lia).
  { repeat constructor. }
  exists u, t, w'. split; [exact E|]. split; [exact R|]. exact W.
Defined.

(** Every pixel of the canvas lies in the scaled target of some tile. *)
Lemma scaled_targets_cover (image : ndarray) (tile_size scale i j : Z) :
  1 <= shape1 image -> 1 <= shape0 image -> 0 < tile_size -> 1 <= scale ->
  0 <= i < shape0 image * scale -> 0 <= j < shape1 image * scale ->
  exists p, In p (tile_positions image tile_size) /\
    in_region (scaled_target scale (shape1 image * scale)
                             (shape0 image * scale) p) i j = true.
Proof.
  intros Hw Hh Ht Hs Hi Hj.
  pose proof (Z.div_mod i scale ltac:(lia)) as Ei.
  pose proof (Z.mod_pos_bound i scale ltac:(lia)) as Mi.
  pose proof (Z.div_mod j scale ltac:(lia)) as Ej.
  pose proof (Z.mod_pos_bound j scale ltac:(lia)) as Mj.
  destruct (position_found image tile_size (j / scale) (i / scale) Hw Hh Ht)
    as (p & Hp & Hc);
    try (split; [apply Z.div_pos; lia | apply Z.div_lt_upper_bound; lia]).
  exists p. split; [exact Hp|].
  pose proof (position_inside image tile_size p Hw Hh Ht Hp) as Hin.
  unfold scaled_target, out_bounds, covers, inside in *.
  destruct p as [[[xs ys] xe] ye]. simpl in *.
  rewrite !Z.max_r by nia. rewrite !Z.min_r by nia. unfold in_region.
  repeat (apply andb_true_intro; split);
    try apply Z.leb_le; try apply Z.ltb_lt; nia.
Qed.

Lemma in_scaled_target (scale width height : Z) (p : TilePosition) (i j : Z) :
  1 <= scale -> inside width height p ->
  y_start_of p * scale <= i < y_end_of p * scale ->
  x_start_of p * scale <= j < x_end_of p * scale ->
  in_region (scaled_target scale (width * scale) (height * scale) p) i j
  = true.
Proof.
  intros Hs Hp Hi Hj. unfold scaled_target, out_bounds, inside in *.
  destruct p as [[[xs ys] xe] ye]. simpl in *.
  rewrite !Z.max_r by nia. rewrite !Z.min_r by nia. unfold in_region.
  repeat (apply andb_true_intro; split);
    try apply Z.leb_le; try apply Z.ltb_lt; lia.
Qed.

(** Whenever tiling is used, the first two tiles of the sequence have
    overlapping scaled targets: some canvas pixel lies in at least two of
    the regions the compositor writes. *)
Lemma tiled_targets_overlap (image : ndarray) (tile_size scale : Z) :
  1 <= shape1 image -> 1 <= shape0 image -> 1 <= scale ->
  use_tiling (shape1 image) (shape0 image) tile_size = true ->
  exists i j,
    0 <= i < shape0 image * scale /\ 0 <= j < shape1 image * scale /\
    (2 <= length
            (filter (fun g => in_region g i j)
                    (map (scaled_target scale (shape1 image * scale)
                                        (shape0 image * scale))
                         (tile_positions image tile_size))))%nat.
Proof.
  intros Hw Hh Hs Hu.
  set (width := shape1 image) in *. set (height := shape0 image) in *.
  unfold use_tiling in Hu. rewrite !andb_true_iff, orb_true_iff in Hu.
  rewrite <- !Zgt_is_gt_bool in Hu. destruct Hu as [[Ht Hbig] _].
  assert (Ht' : 0 < tile_size) by lia.
  destruct (ceil_bounds width tile_size Hw Ht') as (Nx & Bx).
  destruct (ceil_bounds height tile_size Hh Ht') as (Ny & By).
  fold (num_tiles_x width tile_size) in Nx, Bx.
  fold (num_tiles_y height tile_size) in Ny, By.
  assert (Hsecond : exists x y,
             0 <= x < num_tiles_x width tile_size /\
             0 <= y < num_tiles_y height tile_size /\
             Z.to_nat (y * num_tiles_x width tile_size + x) = 1%nat /\
             (x = 1 /\ y = 0 /\ width > tile_size \/
              x = 0 /\ y = 1 /\ height > tile_size)).
  { destruct (Z_gt_dec width tile_size) as [Hwide|Hnarrow].
    - exists 1, 0. assert (2 <= num_tiles_x width tile_size) by nia.
      repeat split; try lia.
    - exists 0, 1. assert (num_tiles_x width tile_size = 1) by nia.
      assert (2 <= num_tiles_y height tile_size) by nia.
      repeat split; try lia. }
  destruct Hsecond as (x & y & Hx & Hy & Hidx & Hxy).
  pose proof (grid_nth width height tile_size 0 0 ltac:(lia) ltac:(lia)) as G0.
  pose proof (grid_nth width height tile_size x y Hx Hy) as G1.
  rewrite Hidx in G1. simpl in G0.
  pose proof (tile_position_bounds width height tile_size 0 0 Hw Hh Ht'
                ltac:(lia) ltac:(lia)) as I0.
  pose proof (tile_position_bounds width height tile_size x y Hw Hh Ht'
                Hx Hy) as I1.
  cbv zeta in I0, I1.
  set (p0 := tile_position width height tile_size 0 0) in *.
  set (p1 := tile_position width height tile_size x y) in *.
  assert (Hrel : x_start_of p0 <= x_start_of p1 < x_end_of p0 /\
                 y_start_of p0 <= y_start_of p1 < y_end_of p0).
  { unfold p0, p1, tile_position, overlap,
      x_start_of, y_start_of, x_end_of, y_end_of.
    cbv beta iota zeta.
    destruct Hxy as [(-> & -> & Hgt)|(-> & -> & Hgt)]; lia. }
  exists (y_start_of p1 * scale), (x_start_of p1 * scale).
  split; [nia|]. split; [nia|].
  rewrite tile_positions_grid. fold width height.
  destruct (grid width height tile_size) as [|a [|b rest]];
    try discriminate.
  simpl in G0, G1. injection G0 as ->. injection G1 as ->.
  cbn [map filter].
  rewrite (in_scaled_target scale width height p0) by (auto; nia).
  rewrite (in_scaled_target scale width height p1) by (auto; nia).
  simpl. lia.
Qed.

(** C1. On the 2000 x 1500 raster at scale 2 with tiles of 1024, where every
    transformed tile has exactly twice the dimensions of its position and the
    run ends normally without any combining error, the four tiles write the
    canvas regions listed below, which overlap: the canvas pixel in row 0 and
    column 2016 is written by two tiles and the pixel in row 2050 and column
    2050 by all four, so the canvas is not written exactly once per pixel. *)
Theorem canvas_written_more_than_once :
  fst run_2000x1500 = inr tt /\
  combine_errors (trace (snd run_2000x1500)) = [] /\
  Forall2 (scaled_shape 2) (tile_positions image_2000x1500 1024)
          (map (nearest 2) (tiles image_2000x1500 1024)) /\
  canvas_writes (trace (snd run_2000x1500))
  = [(0, 2080, 0, 2080); (0, 2080, 2016, 1984);
     (2016, 984, 0, 2080); (2016, 984, 2016, 1984)] /\
  write_count (trace (snd run_2000x1500)) 0 2016 = 2%nat /\
  write_count (trace (snd run_2000x1500)) 2050 2050 = 4%nat.
Proof.
  split; [vm_compute; reflexivity|]. split; [vm_compute; reflexivity|].
  split; [repeat constructor|].
  split; [vm_compute; reflexivity|].
  split; vm_compute; reflexivity.
Qed.

End CompositeFacts.

(** ** The orchestrator *)
Module RunFacts.
Import Partition PartitionFacts TrackerFacts TraceFacts DispatchFacts
       CompositeFacts.

Lemma emits_stage_tracker {A} (m : M A) :
  emits tracker_event m -> emits stage_event m.
Proof. apply emits_weaken. exact tracker_stage. Qed.

Lemma emits_stage_dispatch {A} (m : M A) :
  emits dispatch_event m -> emits stage_event m.
Proof. apply emits_weaken. exact dispatch_stage. Qed.

Ltac emits_stage :=
  repeat first
    [ emits_step
    | apply emits_stage_tracker;
      first [apply emits_update | apply emits_complete | apply emits_init]
    | apply emits_stage_dispatch;
      first [apply emits_executor_map | apply emits_sr_upsample] ].

Lemma emits_place (upscaled : ndarray) (x y : Z) (portion : ndarray) :
  emits stage_event (place upscaled x y portion).
Proof. unfold place. emits_stage. Qed.

Lemma emits_combine_tile (env : Env) (scale ow oh : Z)
      (state : ndarray * ProgressTracker) (i : Z) (p : TilePosition)
      (tile : ndarray) :
  emits stage_event (combine_tile env scale ow oh state i p tile).
Proof.
  unfold combine_tile. destruct state as [upscaled tracker].
  destruct (out_bounds scale ow oh p) as [[[a b] c] d].
  repeat first [apply emits_place | emits_stage].
Qed.

Lemma emits_combine_loop (env : Env) (scale ow oh : Z)
      (pairs : list (TilePosition * ndarray)) (i : Z)
      (state : ndarray * ProgressTracker) :
  emits stage_event (combine_loop env scale ow oh i pairs state).
Proof.
  revert i state. induction pairs as [|[p tile] rest IH]; intros i state;
    cbn [combine_loop].
  - apply emits_ret.
  - apply emits_bind; [apply emits_combine_tile | intros; apply IH].
Qed.

Lemma emits_tiled_branch (env : Env) (image : ndarray) (scale tile_size : Z) :
  emits stage_event (tiled_branch env image scale tile_size).
Proof.
  unfold tiled_branch.
  destruct (create_tiles image tile_size) as [ts ps].
  repeat first [apply emits_combine_loop | emits_stage].
Qed.

Lemma emits_single_shot (env : Env) (image : ndarray) (scale : Z) :
  emits stage_event (single_shot_branch env image scale).
Proof. unfold single_shot_branch. emits_stage. Qed.

Lemma emits_upscale_stage (env : Env) (image : ndarray) (scale tile_size : Z) :
  emits stage_event (upscale_stage env image scale tile_size).
Proof.
  unfold upscale_stage.
  apply emits_bind; [emits_stage|]. intros _.
  apply emits_bind; [emits_stage|]. intros start_time.
  apply emits_try; [|intros; emits_stage].
  apply emits_bind.
  - destruct (use_tiling _ _ _);
      [apply emits_tiled_branch | apply emits_single_shot].
  - intros upscaled. emits_stage.
Qed.

Lemma emits_save_stage (env : Env) (output_path : string) (upscaled : ndarray) :
  emits save_event (save_stage env output_path upscaled).
Proof. unfold save_stage. repeat emits_step. Qed.

(** C8. For a scale other than 2, 3 and 4, [upscale_image] raises
    [ValueError] at once: the world is unchanged, so no model was loaded or
    downloaded, no input was read, no clock was consulted and the transform
    was never invoked. *)
Theorem unsupported_scale_rejected (env : Env) (input_path output_path : string)
        (scale : Z) (use_gpu : bool) (tile_size : Z) (w : World) :
  ~ In scale [2; 3; 4] ->
  upscale_image env input_path output_path scale use_gpu tile_size w
  = (inl (ValueError (MsgScale scale [2; 3; 4])), w).
Proof.
  intros Hs. unfold upscale_image, supported_scales.
  destruct (existsb (Z.eqb scale) [2; 3; 4]) eqn:E; [|reflexivity].
  exfalso. apply Hs. apply existsb_exists in E as (x & Hx & Ex).
  apply Z.eqb_eq in Ex. now subst x.
Qed.

Lemma unsupported_scale_rejected_witness :
  upscale_image env_2x "in.png" "out.png" 5 true 1024 initial_world
  = (inl (ValueError (MsgScale 5 [2; 3; 4])), initial_world).
Proof.
  apply (unsupported_scale_rejected env_2x "in.png" "out.png" 5 true 1024
                                    initial_world).
  simpl. intros [H|[H|[H|[]]]]; discriminate.
Defined.

(** With a supported scale, the model at hand and a readable input, the run
    reaches the upscaling stage after its preamble. *)
Lemma reaches_stage (env : Env) (input_path output_path : string)
      (scale : Z) (use_gpu : bool) (tile_size : Z) (image : ndarray)
      (w : World) :
  In scale supported_scales ->
  model_present_after env = true ->
  imread env input_path = Some image ->
  readModel env scale = None ->
  upscale_image env input_path output_path scale use_gpu tile_size w
  = bind (upscale_stage env image scale tile_size)
         (save_stage env output_path)
         {| reads := reads w;
            trace := trace w ++ preamble env input_path scale image |}.
Proof.
  intros Hs Hm Hi Hr. unfold upscale_image.
  assert (E : existsb (Z.eqb scale) supported_scales = true).
  { apply existsb_exists. exists scale. split; [exact Hs | apply Z.eqb_refl]. }
  rewrite E, Hm. cbn [negb].
  unfold preamble, model_present_after, download_edsr_models in *.
  destruct (model_on_disk env); cbn [negb].
  - unfold bind at 1. unfold ret at 1.
    unfold bind at 1. unfold try_except at 1.
    unfold bind at 1. unfold emit at 1. rewrite Hi. unfold ret at 1.
    unfold bind at 1. unfold print at 1. unfold emit at 1.
    unfold bind at 1. unfold try_except at 1.
    unfold bind at 1. unfold print at 1. unfold emit at 1.
    unfold bind at 1. unfold emit at 1. rewrite Hr.
    unfold print at 1. unfold emit at 1.
    unfold bind at 1. unfold emit at 1. cbn [trace reads].
    rewrite <- !app_assoc. reflexivity.
  - destruct (download_outcome env) as [b|]; [|discriminate].
    unfold bind at 1. unfold bind at 1. unfold emit at 1. unfold ret at 1.
    unfold bind at 1. unfold try_except at 1.
    unfold bind at 1. unfold emit at 1. rewrite Hi. unfold ret at 1.
    unfold bind at 1. unfold print at 1. unfold emit at 1.
    unfold bind at 1. unfold try_except at 1.
    unfold bind at 1. unfold print at 1. unfold emit at 1.
    unfold bind at 1. unfold emit at 1. rewrite Hr.
    unfold print at 1. unfold emit at 1.
    unfold bind at 1. unfold emit at 1. cbn [trace reads].
    rewrite <- !app_assoc. reflexivity.
Qed.

Lemma quiet_projection {B} (f : Event -> list B) (P : Event -> bool)
      (w w' : World) :
  (forall e, P e = true -> f e = []) ->
  only_adds P w w' -> flat_map f (trace w') = flat_map f (trace w).
Proof.
  intros Hf (evs & -> & H). rewrite flat_map_app.
  assert (flat_map f evs = []) as ->; [|now rewrite app_nil_r].
  induction evs as [|e evs IH]; [reflexivity|]. simpl in *.
  apply andb_prop in H as [He H]. now rewrite (Hf e He), (IH H).
Qed.

Lemma tiled_mode_app (t1 t2 : list Event) :
  tiled_mode_entered (t1 ++ t2)
  = tiled_mode_entered t1 || tiled_mode_entered t2.
Proof.
  unfold tiled_mode_entered, stdout. now rewrite flat_map_app, existsb_app.
Qed.

Lemma marker_kept (P : Event -> bool) {A} (m : M A) (w : World) :
  emits P m -> tiled_mode_entered (trace w) = true ->
  tiled_mode_entered (trace (snd (m w))) = true.
Proof.
  intros Hm Hw. destruct (Hm w) as (evs & -> & _).
  now rewrite tiled_mode_app, Hw.
Qed.

Lemma marker_bind (P : Event -> bool) {A B} (m : M A) (k : A -> M B)
      (w : World) :
  (forall a, emits P (k a)) ->
  tiled_mode_entered (trace (snd (m w))) = true ->
  tiled_mode_entered (trace (snd (bind m k w))) = true.
Proof.
  intros Hk Hm. unfold bind. destruct (m w) as [[e|a] w1]; [exact Hm|].
  now apply (marker_kept P).
Qed.

Lemma marker_try (P : Event -> bool) {A} (class : Exc -> bool) (body : M A)
      (handler : Exc -> M A) (w : World) :
  (forall e, emits P (handler e)) ->
  tiled_mode_entered (trace (snd (body w))) = true ->
  tiled_mode_entered (trace (snd (try_except class body handler w))) = true.
Proof.
  intros Hh Hb. unfold try_except.
  destruct (body w) as [[e|a] w1]; [|exact Hb].
  destruct (class e); [|exact Hb]. now apply (marker_kept P).
Qed.

Lemma tiled_branch_marks (env : Env) (image : ndarray) (scale tile_size : Z)
      (w : World) :
  tiled_mode_entered
    (trace (snd (tiled_branch env image scale tile_size w))) = true.
Proof.
  unfold tiled_branch. destruct (create_tiles image tile_size) as [ts ps].
  unfold bind at 1. unfold print at 1. unfold emit at 1.
  apply (marker_kept stage_event).
  - repeat first [apply emits_combine_loop | emits_stage].
  - cbn [trace]. rewrite tiled_mode_app. simpl. apply orb_true_r.
Qed.

Lemma tiled_run_marks (env : Env) (image : ndarray) (scale tile_size : Z)
      (output_path : string) (w : World) :
  use_tiling (shape1 image) (shape0 image) tile_size = true ->
  tiled_mode_entered
    (trace (snd (bind (upscale_stage env image scale tile_size)
                      (save_stage env output_path) w))) = true.
Proof.
  intros Hu. apply (marker_bind save_event); [apply emits_save_stage|].
  unfold upscale_stage. rewrite Hu.
  unfold bind at 1. unfold print at 1. unfold emit at 1.
  unfold bind at 1. unfold time_time at 1.
  apply (marker_try stage_event); [intros; emits_stage|].
  apply (marker_bind stage_event); [intros; emits_stage|].
  apply tiled_branch_marks.
Qed.

(** Without tiling the transform is called once, on the whole image, and
    tiled processing is not announced. *)
Lemma single_shot_run (env : Env) (image : ndarray) (scale tile_size : Z)
      (output_path : string) (w : World) :
  use_tiling (shape1 image) (shape0 image) tile_size = false ->
  let w' := snd (bind (upscale_stage env image scale tile_size)
                      (save_stage env output_path) w) in
  upsample_calls (trace w') = upsample_calls (trace w) ++ [image] /\
  tiled_mode_entered (trace w') = tiled_mode_entered (trace w).
Proof.
  intros Hu. unfold upscale_stage, single_shot_branch, sr_upsample, save_stage.
  rewrite Hu.
  unfold bind, try_except, truediv, print, emit, time_time, sys_exit, raise,
    ret.
  cbn [reads trace].
  destruct (upsample env image) as [e|upscaled].
  - destruct (is_Exception e); cbn [snd trace];
      rewrite ?calls_app, ?tiled_mode_app; simpl;
      rewrite ?app_nil_r, ?orb_false_r; split; reflexivity.
  - destruct (Qeq_bool _ _); cbn [is_Exception snd trace fst].
    + rewrite ?calls_app, ?tiled_mode_app; simpl;
        rewrite ?app_nil_r, ?orb_false_r; split; reflexivity.
    + destruct (imwrite env output_path upscaled) as [e|].
      * destruct (is_Exception e); cbn [snd trace];
          rewrite ?calls_app, ?tiled_mode_app; simpl;
          rewrite ?app_nil_r, ?orb_false_r; split; reflexivity.
      * cbn [snd trace].
        rewrite ?calls_app, ?tiled_mode_app; simpl;
          rewrite ?app_nil_r, ?orb_false_r; split; reflexivity.
Qed.

Lemma use_tiling_spec (width height tile_size : Z) :
  use_tiling width height tile_size = true <->
  tile_size > 0 /\ (width > tile_size \/ height > tile_size)
  /\ width * height > 1000000.
Proof.
  unfold use_tiling. rewrite !andb_true_iff, orb_true_iff.
  rewrite <- !Zgt_is_gt_bool. tauto.
Qed.

Lemma preamble_quiet (env : Env) (input_path : string) (scale : Z)
      (image : ndarray) :
  upsample_calls (preamble env input_path scale image) = [] /\
  tiled_mode_entered (preamble env input_path scale image) = false /\
  imwrites (preamble env input_path scale image) = [] /\
  canvas_writes (preamble env input_path scale image) = [].
Proof. unfold preamble. destruct (model_on_disk env); repeat split. Qed.

(** C4. In a run that reaches the upscaling stage (supported scale, model at
    hand, readable input), tiled processing is entered if and only if
    [tile_size > 0], the raster is wider or taller than [tile_size], and
    [width * height > 1000000].  In particular, when
    [width * height <= 1000000] the run never enters tiled mode and calls
    the transform exactly once, on the whole raster. *)
Theorem tiling_decision (env : Env) (input_path output_path : string)
        (scale : Z) (use_gpu : bool) (tile_size : Z) (image : ndarray)
        (w : World) :
  In scale supported_scales ->
  model_present_after env = true ->
  imread env input_path = Some image ->
  readModel env scale = None ->
  trace w = [] ->
  let width := shape1 image in
  let height := shape0 image in
  let w' := snd (upscale_image env input_path output_path scale use_gpu
                               tile_size w) in
  (tiled_mode_entered (trace w') = true <->
   tile_size > 0 /\ (width > tile_size \/ height > tile_size)
   /\ width * height > 1000000) /\
  (width * height <= 1000000 ->
   tiled_mode_entered (trace w') = false /\
   upsample_calls (trace w') = [image]).
Proof.
  intros Hs Hm Hi Hr Hw width height w'. subst w'.
  rewrite (reaches_stage env input_path output_path scale use_gpu tile_size
                         image w Hs Hm Hi Hr).
  rewrite Hw. cbn [app].
  destruct (preamble_quiet env input_path scale image) as (Pc & Pt & _ & _).
  destruct (use_tiling width height tile_size) eqn:Hu.
  - pose proof (proj1 (use_tiling_spec _ _ _) Hu) as Hc.
    rewrite tiled_run_marks by exact Hu.
    split; [tauto|]. intros Hsmall. unfold width, height in *. lia.
  - destruct (single_shot_run env image scale tile_size output_path
                {| reads := reads w;
                   trace := preamble env input_path scale image |} Hu)
      as [Hcalls Hmode].
    cbn [trace] in *. rewrite Hcalls, Hmode, Pc, Pt.
    split; [|intros _; split; reflexivity].
    split; [discriminate|]. intros Hc.
    apply use_tiling_spec in Hc. fold width height in Hc. congruence.
Qed.

Lemma tiling_decision_witness :
  let w' := snd (upscale_image env_3x "in.png" "out.png" 3 true 1024
                               initial_world) in
  tiled_mode_entered (trace w') = false /\
  upsample_calls (trace w') = [image_500x400].
Proof.
  apply (tiling_decision env_3x "in.png" "out.png" 3 true 1024 image_500x400
                         initial_world);
    try reflexivity.
  - simpl. auto.
  - simpl. lia.
Defined.

Lemma stdout_app (t1 t2 : list Event) :
  stdout (t1 ++ t2) = stdout t1 ++ stdout t2.
Proof. unfold stdout. apply flat_map_app. Qed.

Lemma report_quiet (w w' : World) :
  only_adds report_event w w' ->
  imwrites (trace w') = imwrites (trace w) /\
  canvas_writes (trace w') = canvas_writes (trace w).
Proof.
  intros H. split.
  - apply (quiet_projection _ report_event); [|exact H].
    intros [] He; try discriminate; reflexivity.
  - apply (quiet_projection _ report_event); [|exact H].
    intros [] He; try discriminate; reflexivity.
Qed.

Lemma dispatch_report (e : Event) :
  dispatch_event e = true -> report_event e = true.
Proof. destruct e as [[]| | | | | | |]; simpl; congruence. Qed.

(** If the transform raises on some tile, the tiled branch ends with the
    exception of the first such tile, before any compositing. *)
Lemma tiled_branch_raises (env : Env) (image : ndarray) (scale tile_size : Z)
      (w : World) :
  (exists t e, In t (tiles image tile_size) /\ upsample env t = inl e) ->
  exists pre t0 post e0 w',
    tiles image tile_size = pre ++ t0 :: post /\
    (forall t, In t pre -> exists r, upsample env t = inr r) /\
    upsample env t0 = inl e0 /\
    tiled_branch env image scale tile_size w = (inl e0, w') /\
    only_adds report_event w w'.
Proof.
  intros Hfail. unfold tiled_branch, tiles in *.
  destruct (create_tiles image tile_size) as [ts ps]. cbn [fst] in Hfail.
  unfold bind at 1. unfold print at 1. unfold emit at 1.
  unfold bind at 1. unfold print at 1. unfold emit at 1.
  unfold bind at 1. unfold print at 1. unfold emit at 1.
  unfold bind at 1. unfold Tracker.init at 1. unfold bind at 1.
  unfold time_time at 1. unfold ret at 1. unfold bind at 1.
  cbn [reads trace fst].
  match goal with |- context [executor_map env ts ?tr ?w3] =>
    destruct (executor_map_raises env ts tr w3 Hfail)
      as (pre & t0 & post & e0 & w' & Ets & Hpre & Ht0 & E);
    pose proof (emits_executor_map env ts tr w3) as Hw3;
    rewrite E in *
  end.
  exists pre, t0, post, e0, w'.
  split; [exact Ets|]. split; [exact Hpre|]. split; [exact Ht0|].
  split; [reflexivity|].
  eapply only_adds_trans;
    [|eapply only_adds_weaken; [exact dispatch_report | exact Hw3]].
  eexists. cbn [trace]. rewrite <- !app_assoc. split; reflexivity.
Qed.

Lemma stage_raises (env : Env) (image : ndarray) (scale tile_size : Z)
      (w : World) :
  use_tiling (shape1 image) (shape0 image) tile_size = true ->
  (exists t e, In t (tiles image tile_size) /\ upsample env t = inl e) ->
  exists pre t0 post e0 w1,
    tiles image tile_size = pre ++ t0 :: post /\
    (forall t, In t pre -> exists r, upsample env t = inr r) /\
    upsample env t0 = inl e0 /\
    only_adds report_event w w1 /\
    upscale_stage env image scale tile_size w
    = if is_Exception e0
      then (inl (SystemExit 1),
            {| reads := reads w1;
               trace := trace w1 ++ [Stdout (ErrorDuringUpscaling e0)] |})
      else (inl e0, w1).
Proof.
  intros Hu Hfail. unfold upscale_stage. rewrite Hu.
  unfold bind at 1. unfold print at 1. unfold emit at 1.
  unfold bind at 1. unfold time_time at 1. cbn [reads trace].
  unfold try_except. unfold bind at 1.
  match goal with |- context [tiled_branch env image scale tile_size ?w2] =>
    destruct (tiled_branch_raises env image scale tile_size w2 Hfail)
      as (pre & t0 & post & e0 & w1 & Ets & Hpre & Ht0 & E & Hw)
  end.
  rewrite E. exists pre, t0, post, e0, w1.
  split; [exact Ets|]. split; [exact Hpre|]. split; [exact Ht0|]. split.
  - eapply only_adds_trans; [|exact Hw].
    exists [Stdout StartingUpscaling]. split; reflexivity.
  - destruct (is_Exception e0); reflexivity.
Qed.

(** C6 (as amended). In a tiled run, if the transform raises on some tile,
    the whole run fails with the exception of the first such tile in tile
    order: when that exception is an [Exception] the last line printed is
    [Error during upscaling: <exception>] and the process exits with status
    1 (otherwise the exception itself propagates).  No result is substituted
    for the failed tile: nothing is written to the canvas and no image is
    saved.  The failure carries the transform's exception only. *)
Theorem tile_failure_aborts_run (env : Env) (input_path output_path : string)
        (scale : Z) (use_gpu : bool) (tile_size : Z) (image t : ndarray)
        (e : Exc) (w : World) :
  In scale supported_scales ->
  model_present_after env = true ->
  imread env input_path = Some image ->
  readModel env scale = None ->
  trace w = [] ->
  use_tiling (shape1 image) (shape0 image) tile_size = true ->
  In t (tiles image tile_size) -> upsample env t = inl e ->
  let run := upscale_image env input_path output_path scale use_gpu
                           tile_size w in
  exists pre t0 post e0,
    tiles image tile_size = pre ++ t0 :: post /\
    (forall t', In t' pre -> exists r, upsample env t' = inr r) /\
    upsample env t0 = inl e0 /\
    fst run = inl (if is_Exception e0 then SystemExit 1 else e0) /\
    (is_Exception e0 = true ->
     last (stdout (trace (snd run))) Newline = ErrorDuringUpscaling e0) /\
    canvas_writes (trace (snd run)) = [] /\
    imwrites (trace (snd run)) = [].
Proof.
  intros Hs Hm Hi Hr Hw Hu Ht He run. subst run.
  rewrite (reaches_stage env input_path output_path scale use_gpu tile_size
                         image w Hs Hm Hi Hr).
  rewrite Hw. cbn [app].
  destruct (preamble_quiet env input_path scale image) as (_ & _ & Pi & Pc).
  set (w0 := {| reads := reads w;
                trace := preamble env input_path scale image |}).
  destruct (stage_raises env image scale tile_size w0 Hu)
    as (pre & t0 & post & e0 & w1 & Ets & Hpre & Ht0 & Hw1 & E);
    [eauto|].
  destruct (report_quiet _ _ Hw1) as [Qi Qc]. cbn [trace w0] in Qi, Qc.
  exists pre, t0, post, e0. split; [exact Ets|]. split; [exact Hpre|].
  split; [exact Ht0|]. unfold bind. rewrite E.
  destruct (is_Exception e0); cbn [fst snd trace].
  - split; [reflexivity|]. split.
    + intros _. rewrite stdout_app. simpl. apply last_last.
    + unfold canvas_writes, imwrites in *.
      rewrite !flat_map_app, Qi, Qc, Pi, Pc. split; reflexivity.
  - split; [reflexivity|]. split; [discriminate|].
    rewrite Qi, Qc, Pi, Pc. split; reflexivity.
Qed.

Lemma tile_failure_aborts_run_witness :
  exists pre t0 post e0,
    tiles image_2000x1500 1024 = pre ++ t0 :: post /\
    upsample env_fail_east t0 = inl e0 /\
    fst run_fail_east = inl (if is_Exception e0 then SystemExit 1 else e0) /\
    imwrites (trace (snd run_fail_east)) = [].
Proof.
  destruct (tile_failure_aborts_run env_fail_east "in.png" "out.png" 2 true
              1024 image_2000x1500
              (extract image_2000x1500 (1008, 0, 2000, 1040))
              (OtherError (MsgText "upsample failed")) initial_world)
    as (pre & t0 & post & e0 & Ets & _ & Ht0 & Hout & _ & _ & Hsave);
    try reflexivity.
  - simpl. auto.
  - rewrite tiles_grid. apply in_map. rewrite tile_positions_grid.
    vm_compute. auto.
  - exists pre, t0, post, e0. auto.
Defined.

(** C6 (as stated) fails. On the 2000 x 1500 raster the transform of the one
    environment raises on the tile at [(1008, 0, 2000, 1040)] and that of the
    other on the tile at [(0, 1008, 1040, 1500)]; both runs exit with status
    1 and print the same lines, ending with the transform's own message, so
    the failure does not identify the position of the tile that failed. *)
Lemma failure_report_omits_position :
  failing_positions env_fail_east image_2000x1500 1024
  = [(1008, 0, 2000, 1040)] /\
  failing_positions env_fail_south image_2000x1500 1024
  = [(0, 1008, 1040, 1500)] /\
  fst run_fail_east = inl (SystemExit 1) /\
  fst run_fail_south = inl (SystemExit 1) /\
  stdout (trace (snd run_fail_south)) = stdout (trace (snd run_fail_east)) /\
  last (stdout (trace (snd run_fail_east))) Newline
  = ErrorDuringUpscaling (OtherError (MsgText "upsample failed")).
Proof. repeat split; vm_compute; reflexivity. Qed.

End RunFacts.

(** ** Doubles that are computed exactly *)
Module ExactFacts.
Import Binary64.

Lemma digits2_size (p : positive) : digits2_pos p = Pos.size p.
Proof. induction p as [p IH|p IH|]; cbn; now rewrite ?IH. Qed.

Lemma digits2_log2 (p : positive) :
  Zpos (digits2_pos p) = Z.log2 (Zpos p) + 1.
Proof.
  rewrite digits2_size. destruct p as [p|p|]; cbn; try reflexivity;
    now rewrite Pos.add_1_r.
Qed.

Lemma div_eucl_multiple (q b : Z) :
  0 < b -> Z.div_eucl (q * b) b = (q, 0).
Proof.
  intros Hb. pose proof (Z.div_mul q b ltac:(lia)) as Hd.
  pose proof (Z.mod_mul q b ltac:(lia)) as Hm.
  unfold Z.div, Z.modulo in Hd, Hm.
  destruct (Z.div_eucl (q * b) b) as [d m]. cbn in Hd, Hm. now subst.
Qed.

Lemma new_location_exact (n : Z) : new_location n 0 = loc_Exact.
Proof.
  unfold new_location, new_location_even, new_location_odd.
  destruct (Z.even n); reflexivity.
Qed.

(** The division of a multiple [p * k] by [p], before rounding: the
    quotient [k], scaled to the precision the rounding wants, and exact. *)
Lemma div_core_multiple (p k : positive) (D : Z) :
  Zpos (digits2_pos (p * k)) - Zpos (digits2_pos p) = D ->
  let s := - Z.min (fexp prec emax D) 0 in
  SFdiv_core_binary prec emax (Zpos (p * k)) 0 (Zpos p) 0
  = (Zpos k * 2 ^ s, - s, loc_Exact).
Proof.
  intros HD s. unfold SFdiv_core_binary. cbn [Zdigits2].
  replace (Z.sub (Z.add (Zpos (digits2_pos (p * k))) 0)
                 (Z.add (Zpos (digits2_pos p)) 0)) with D by lia.
  replace (Z.sub 0 0) with 0 by reflexivity.
  replace (Z.sub 0 (Z.min (fexp prec emax D) 0)) with s by (unfold s; lia).
  replace (Z.min (fexp prec emax D) 0) with (- s) by (unfold s; lia).
  assert (Hs : 0 <= s) by (unfold s; lia).
  assert (Hm : match s with
               | Zpos _ => Z.shiftl (Zpos (p * k)) s
               | Z0 => Zpos (p * k)
               | Zneg _ => Z0
               end = (Zpos k * 2 ^ s) * Zpos p).
  { destruct s as [|s'|s'] eqn:Es; [cbn; lia| |lia].
    rewrite Z.shiftl_mul_pow2 by lia. lia. }
  rewrite Hm, div_eucl_multiple by lia.
  now rewrite new_location_exact.
Qed.

(** [k * t / t] for [int]s is the double [k], here for the two factors the
    tracker uses. *)
Lemma int_truediv_100 (t : Z) :
  0 < t -> int_truediv (t * 100) t = inr (literal 100 1).
Proof.
  intros Ht. destruct t as [|p|p]; try lia.
  unfold int_truediv. cbn [Z.eqb Z.mul exact].
  unfold SFdiv.
  set (D := Zpos (digits2_pos (p * 100)) - Zpos (digits2_pos p)).
  rewrite (div_core_multiple p 100 D eq_refl).
  assert (HD : D = 6 \/ D = 7).
  { unfold D. rewrite !digits2_log2.
    pose proof (Z.log2_mul_below (Zpos p) 100 ltac:(lia) ltac:(lia)) as Hb.
    pose proof (Z.log2_mul_above (Zpos p) 100 ltac:(lia) ltac:(lia)) as Ha.
    change (Z.log2 100) with 6 in Hb, Ha.
    change (Zpos (p * 100)) with (Zpos p * 100). lia. }
  destruct HD as [-> | ->]; vm_compute; reflexivity.
Qed.

Lemma int_truediv_30 (t : Z) :
  0 < t -> int_truediv (30 * t) t = inr (literal 30 1).
Proof.
  intros Ht. destruct t as [|p|p]; try lia.
  unfold int_truediv. rewrite Z.mul_comm. cbn [Z.eqb Z.mul exact].
  unfold SFdiv.
  set (D := Zpos (digits2_pos (p * 30)) - Zpos (digits2_pos p)).
  rewrite (div_core_multiple p 30 D eq_refl).
  assert (HD : D = 4 \/ D = 5).
  { unfold D. rewrite !digits2_log2.
    pose proof (Z.log2_mul_below (Zpos p) 30 ltac:(lia) ltac:(lia)) as Hb.
    pose proof (Z.log2_mul_above (Zpos p) 30 ltac:(lia) ltac:(lia)) as Ha.
    change (Z.log2 30) with 4 in Hb, Ha.
    change (Zpos (p * 30)) with (Zpos p * 30). lia. }
  destruct HD as [-> | ->]; vm_compute; reflexivity.
Qed.

(** A mantissa that needs no rounding is kept as it is. *)
Lemma round_exact (sx : bool) (m : positive) (e : Z) :
  fexp prec emax (Zpos (digits2_pos m) + e) = e -> e <= emax - prec ->
  binary_round_aux prec emax sx (Zpos m) e loc_Exact = S754_finite sx m e.
Proof.
  intros Hcanon He. unfold binary_round_aux, shr_fexp. cbn [Zdigits2].
  change (Z.add (Zpos (digits2_pos m)) e) with (Zpos (digits2_pos m) + e).
  rewrite Hcanon.
  replace (Z.sub e e) with 0 by lia.
  cbn [shr shr_record_of_loc shr_m loc_of_shr_record round_nearest_even
       Zdigits2].
  change (Z.add (Zpos (digits2_pos m)) e) with (Zpos (digits2_pos m) + e).
  rewrite Hcanon.
  replace (Z.sub e e) with 0 by lia.
  cbn [shr shr_record_of_loc shr_m].
  destruct (Z.leb_spec e (Z.sub emax prec)) as [_|H]; [reflexivity|].
  exfalso. unfold Z.sub in H. lia.
Qed.

Lemma digits2_shift (p k : positive) :
  Zpos (digits2_pos (Pos.iter xO p k)) = Zpos (digits2_pos p) + Zpos k.
Proof.
  induction k as [|k IH] using Pos.peano_ind.
  - cbn. lia.
  - rewrite Pos.iter_succ. cbn [digits2_pos]. lia.
Qed.

(** An [int] from 1 to [2^53 - 1] converts to a double without rounding:
    the result is finite, positive and not zero. *)
Lemma of_int_small (t : Z) :
  0 < t < 2 ^ 53 ->
  exists m e, of_int t = inr (S754_finite false m e).
Proof.
  intros [Ht Hb]. destruct t as [|p|p]; try lia.
  unfold of_int, binary_normalize, binary_round.
  assert (Hd : 1 <= Zpos (digits2_pos p) <= 53).
  { rewrite digits2_log2.
    pose proof (Z.log2_nonneg (Zpos p)).
    assert (Z.log2 (Zpos p) < 53) by (apply Z.log2_lt_pow2; lia). lia. }
  replace (fexp prec emax (Z.add (Zpos (digits2_pos p)) 0))
    with (Zpos (digits2_pos p) - 53)
    by (unfold fexp, emin, prec, emax; lia).
  unfold shl_align.
  destruct (Z.sub (Zpos (digits2_pos p) - 53) 0) as [|k|k] eqn:Ek; try lia.
  - rewrite round_exact.
    + eexists _, _. reflexivity.
    + unfold fexp, emin, prec, emax. lia.
    + unfold prec, emax. lia.
  - rewrite round_exact.
    + eexists _, _. reflexivity.
    + rewrite digits2_shift. unfold fexp, emin, prec, emax. lia.
    + unfold prec, emax. lia.
Qed.

End ExactFacts.

(** ** The progress meter over doubles: completion *)
Module Meter64Facts.
Import Binary64 Tracker64 ExactFacts.

(** With nothing left to do the ETA is zero seconds, whatever finite time
    has elapsed. *)
Lemma eta_of_done (elapsed : float) (t : Z) (s : State) :
  0 < t < 2 ^ 53 -> is_finite elapsed = true ->
  eta_of elapsed t t s = (inr (EtaSeconds 0), s).
Proof.
  intros Ht Hfin. unfold eta_of.
  destruct (Z.gtb_spec t 0); [|lia].
  rewrite Z.sub_diag. unfold then_ at 1. unfold eval at 1.
  change (of_int 0) with (@inr Exc float (S754_zero false)).
  cbv beta iota zeta.
  destruct (of_int_small t Ht) as (m & e & ->).
  unfold then_ at 1. unfold eval at 1. cbv beta iota.
  destruct elapsed as [sx|sx| |sx mx ex]; try discriminate; reflexivity.
Qed.

(** [display] once [current] has reached [total]. *)
Lemma display_full (clock : nat -> float) (s : State) :
  0 < total (self s) < 2 ^ 53 -> current (self s) = total (self s) ->
  is_finite (sub (clock (clock_reads s)) (start_time (self s))) = true ->
  display clock s = (inr tt, wrote s 1 [Progress (full_line (self s))]).
Proof.
  intros Ht Hc Hfin. unfold display. unfold then_ at 1. unfold attr at 1.
  destruct (Z.leb_spec (total (self s)) 0); [lia|].
  unfold then_ at 1. unfold attr at 1. rewrite Hc.
  unfold then_ at 1. unfold eval at 1.
  rewrite int_truediv_100 by lia.
  unfold then_ at 1. unfold time_time at 1.
  unfold then_ at 1. unfold attr at 1. cbn [self clock_reads written].
  unfold then_ at 1. rewrite eta_of_done by assumption.
  unfold then_ at 1. unfold eval at 1.
  rewrite int_truediv_30 by lia.
  unfold then_, eval, attr, write, wrote, full_line.
  cbn [self clock_reads written].
  replace (clock_reads s + 1)%nat with (S (clock_reads s)) by lia.
  reflexivity.
Qed.

(** X2. [complete] over doubles.  It sets [current] to [total].  For a
    [total] from 1 to [2^53 - 1] and a finite elapsed time it then writes a
    last progress line that shows the [int] 100 as percentage, thirty filled
    cells and an ETA of zero seconds, whatever the clock reads: the two
    quotients [total * 100 / total] and [30 * total / total] are the doubles
    100.0 and 30.0, and [elapsed * 0 / total] is zero.  For [total <= 0] it
    writes no progress line and reads the clock once less.  In both cases a
    line break and [Completed in] follow, with the whole seconds of the
    double [time.time() - start_time] of the next clock reading, provided
    they make a [timedelta]. *)
Theorem complete_shows_final_state (clock : nat -> float) (s : State)
        (seconds : Z) :
  let elapsed n := sub (clock n) (start_time (self s)) in
  (0 < total (self s) < 2 ^ 53 ->
   is_finite (elapsed (clock_reads s)) = true ->
   to_int (elapsed (S (clock_reads s))) = inr seconds ->
   timedelta seconds = inr seconds ->
   complete clock s
   = (inr tt,
      wrote (finished s) 2
            [Progress (full_line (self s)); LineBreak; Completed seconds])) /\
  (total (self s) <= 0 ->
   to_int (elapsed (clock_reads s)) = inr seconds ->
   timedelta seconds = inr seconds ->
   complete clock s
   = (inr tt, wrote (finished s) 1 [LineBreak; Completed seconds])).
Proof.
  intros elapsed. split.
  - intros Ht Hfin Hsec Hdelta. unfold complete.
    unfold then_ at 1. unfold attr at 1.
    unfold then_ at 1. unfold set_current at 1. fold (finished s).
    unfold then_ at 1.
    rewrite (display_full clock (finished s)) by (try reflexivity; assumption).
    unfold then_ at 1. unfold write at 1.
    unfold then_ at 1. unfold time_time at 1.
    unfold then_ at 1. unfold attr at 1.
    cbn [wrote finished self clock_reads written start_time].
    replace (clock_reads s + 1)%nat with (S (clock_reads s)) by lia.
    unfold then_ at 1. unfold eval at 1.
    unfold elapsed in Hsec. rewrite Hsec.
    unfold then_ at 1. unfold eval at 1. rewrite Hdelta.
    unfold write, wrote, finished, full_line.
    cbn [self clock_reads written total description].
    rewrite <- !app_assoc. cbn [app].
    replace (clock_reads s + 2)%nat with (S (S (clock_reads s))) by lia.
    reflexivity.
  - intros Ht Hsec Hdelta. unfold complete.
    unfold then_ at 1. unfold attr at 1.
    unfold then_ at 1. unfold set_current at 1. fold (finished s).
    unfold then_ at 1. unfold display at 1.
    unfold then_ at 1. unfold attr at 1.
    cbn [finished self total].
    destruct (Z.leb_spec (total (self s)) 0); [|lia].
    unfold unit_ at 1.
    unfold then_ at 1. unfold write at 1.
    unfold then_ at 1. unfold time_time at 1.
    unfold then_ at 1. unfold attr at 1.
    cbn [finished self clock_reads written start_time].
    unfold then_ at 1. unfold eval at 1.
    unfold elapsed in Hsec. rewrite Hsec.
    unfold then_ at 1. unfold eval at 1. rewrite Hdelta.
    unfold write, wrote, finished.
    cbn [self clock_reads written].
    rewrite <- !app_assoc. cbn [app].
    replace (clock_reads s + 1)%nat with (S (clock_reads s)) by lia.
    reflexivity.
Qed.

(** Started at 0.3 and completed at 3.3: the difference of the two doubles
    is 3.0, and three whole seconds are reported. *)
Lemma complete_shows_final_state_witness :
  complete clock_10_33 tracker_of_4
  = (inr tt,
     wrote (finished tracker_of_4) 2
           [Progress (full_line (self tracker_of_4)); LineBreak;
            Completed 3]).
Proof.
  apply (proj1 (complete_shows_final_state clock_10_33 tracker_of_4 3)).
  - cbn. lia.
  - reflexivity.
  - vm_compute. reflexivity.
  - reflexivity.
Defined.

End Meter64Facts.

(** ** More on the partitioner: the tiles themselves *)
Module TileFacts.
Import Partition PartitionFacts GridFacts CompositeFacts.

Lemma extract_exact (image : ndarray) (p : TilePosition) :
  inside (shape1 image) (shape0 image) p ->
  shape0 (extract image p) = y_end_of p - y_start_of p /\
  shape1 (extract image p) = x_end_of p - x_start_of p /\
  forall i j,
    item (extract image p) i j
    = item image (y_start_of p + i) (x_start_of p + j).
Proof.
  destruct p as [[[xs ys] xe] ye]. unfold inside. cbn.
  intros (Hx & Hxe & Hy & Hye).
  destruct (slice_inside ys (ye - ys) (shape0 image)) as [Ay Ly]; try lia.
  destruct (slice_inside xs (xe - xs) (shape1 image)) as [Ax Lx]; try lia.
  replace (ys + (ye - ys)) with ye in Ly by lia.
  replace (xs + (xe - xs)) with xe in Lx by lia.
  rewrite Ly, Lx, Ay, Ax. repeat split.
Qed.

(** X3. The k-th tile handed to the dispatcher is exactly the crop of the
    image at the k-th tile position: it has [y_end - y_start] rows and
    [x_end - x_start] columns (no clamping by the slice), and its pixel
    [(i, j)] is the image pixel [(y_start + i, x_start + j)]. *)
Theorem tile_is_exact_crop (image : ndarray) (tile_size : Z) (k : nat)
        (p : TilePosition) :
  1 <= shape1 image -> 1 <= shape0 image -> 0 < tile_size ->
  nth_error (tile_positions image tile_size) k = Some p ->
  exists tile,
    nth_error (tiles image tile_size) k = Some tile /\
    shape0 tile = y_end_of p - y_start_of p /\
    shape1 tile = x_end_of p - x_start_of p /\
    forall i j,
      item tile i j = item image (y_start_of p + i) (x_start_of p + j).
Proof.
  intros Hw Hh Ht Hk. exists (extract image p).
  rewrite tiles_grid, nth_error_map, Hk. split; [reflexivity|].
  apply extract_exact.
  apply (position_inside image tile_size p Hw Hh Ht).
  eapply nth_error_In; exact Hk.
Qed.

Lemma tile_is_exact_crop_witness :
  exists tile,
    nth_error (tiles image_2000x1500 1024) 3 = Some tile /\
    shape0 tile = 492 /\ shape1 tile = 992 /\
    item tile 0 0 = (1008, 1008, 0).
Proof.
  destruct (tile_is_exact_crop image_2000x1500 1024 3
                               (1008, 1008, 2000, 1500))
    as (tile & E & H0 & H1 & Hitem); try (simpl; lia); try reflexivity.
  exists tile. split; [exact E|]. split; [exact H0|]. split; [exact H1|].
  rewrite Hitem. reflexivity.
Defined.

(** X4. No tile exceeds the bounded input size the tiling is there for:
    every tile position spans at most [tile_size + 2 * overlap] pixels in
    each direction (and at least one). *)
Theorem tile_extent_bounded (image : ndarray) (tile_size : Z)
        (p : TilePosition) :
  1 <= shape1 image -> 1 <= shape0 image -> 0 < tile_size ->
  In p (tile_positions image tile_size) ->
  1 <= x_end_of p - x_start_of p <= tile_size + 2 * overlap /\
  1 <= y_end_of p - y_start_of p <= tile_size + 2 * overlap.
Proof.
  intros Hw Hh Ht Hp.
  pose proof (position_inside image tile_size p Hw Hh Ht Hp) as Hin.
  rewrite tile_positions_grid in Hp.
  apply in_grid in Hp as (x & y & Hx & Hy & ->).
  unfold inside, tile_position, overlap,
    x_start_of, y_start_of, x_end_of, y_end_of in *.
  cbv beta iota zeta in *. lia.
Qed.

Lemma tile_extent_bounded_witness :
  1 <= 1040 - 0 <= 1024 + 2 * overlap /\
  1 <= 1500 - 1008 <= 1024 + 2 * overlap.
Proof.
  apply (tile_extent_bounded image_2000x1500 1024 (0, 1008, 1040, 1500));
    try (simpl; lia).
  rewrite tile_positions_grid. vm_compute. auto.
Defined.

(** X5. Tiling is never used for a single tile: whenever the condition of
    line 257 holds the grid has at least two tiles. *)
Theorem tiling_means_several_tiles (image : ndarray) (tile_size : Z) :
  1 <= shape1 image -> 1 <= shape0 image ->
  use_tiling (shape1 image) (shape0 image) tile_size = true ->
  2 <= total_tiles (shape1 image) (shape0 image) tile_size /\
  (2 <= length (tiles image tile_size))%nat.
Proof.
  intros Hw Hh Hu. unfold use_tiling in Hu.
  rewrite !andb_true_iff, orb_true_iff in Hu.
  rewrite <- !Zgt_is_gt_bool in Hu. destruct Hu as [[Ht Hbig] _].
  assert (Ht' : 0 < tile_size) by lia.
  destruct (ceil_bounds (shape1 image) tile_size Hw Ht') as (Nx & Bx).
  destruct (ceil_bounds (shape0 image) tile_size Hh Ht') as (Ny & By).
  fold (num_tiles_x (shape1 image) tile_size) in Nx, Bx.
  fold (num_tiles_y (shape0 image) tile_size) in Ny, By.
  assert (H2 : 2 <= total_tiles (shape1 image) (shape0 image) tile_size).
  { unfold total_tiles. destruct Hbig; nia. }
  split; [exact H2|].
  rewrite tiles_grid, length_map, tile_positions_grid, grid_length.
  unfold total_tiles in H2. lia.
Qed.

Lemma tiling_means_several_tiles_witness :
  2 <= total_tiles 2000 1500 1024 /\
  (2 <= length (tiles image_2000x1500 1024))%nat.
Proof.
  apply (tiling_means_several_tiles image_2000x1500 1024);
    try (simpl; lia); reflexivity.
Defined.

End TileFacts.

(** ** More on the compositor: tiles of any size, and what the canvas holds *)
Module CanvasFacts.
Import Partition PartitionFacts GridFacts TrackerFacts TraceFacts DispatchFacts
       CompositeFacts.

Lemma update_counts (env : Env) (self : ProgressTracker) (n : Z) (w : World) :
  exists self' w',
    update env self n w = (inr self', w') /\
    only_adds tracker_event w w' /\
    current self' = current self + n /\ total self' = total self.
Proof.
  pose proof (emits_update env self n w) as H.
  rewrite update_unfold in *. cbv zeta in *.
  destruct (Qle_bool _ _); eexists _, _;
    (split; [reflexivity|]); (split; [exact H|]); split; reflexivity.
Qed.

Lemma out_bounds_inside (scale width height : Z) (p : TilePosition) :
  1 <= scale -> inside width height p ->
  out_bounds scale (width * scale) (height * scale) p
  = (x_start_of p * scale, y_start_of p * scale,
     x_end_of p * scale, y_end_of p * scale).
Proof.
  intros Hs Hp. destruct p as [[[xs ys] xe] ye]. unfold inside in Hp.
  cbn in *. rewrite !Z.max_r by nia. rewrite !Z.min_r by nia. reflexivity.
Qed.

Lemma slice_prefix (m n : Z) :
  0 <= m <= n -> Py.adjust_index 0 n = 0 /\ Py.slice_len 0 m n = m.
Proof.
  intros H. destruct (slice_inside 0 m n) as [A L]; try lia.
  split; [exact A | exact L].
Qed.

Section AnyTile.
Context (scale width height : Z) (p : TilePosition) (tile : ndarray).
Hypothesis Hscale : 1 <= scale.
Hypothesis Hp : inside width height p.
Hypothesis Ht : proper_shape tile.

Lemma portion_shape :
  let portion := tile_portion scale (width * scale) (height * scale) p tile in
  shape0 portion
  = Z.min (shape0 tile) ((y_end_of p - y_start_of p) * scale) /\
  shape1 portion
  = Z.min (shape1 tile) ((x_end_of p - x_start_of p) * scale) /\
  forall i j, item portion i j = item tile i j.
Proof.
  unfold tile_portion. rewrite (out_bounds_inside _ _ _ _ Hscale Hp).
  destruct Ht as [H0 H1]. unfold inside in Hp.
  replace (y_end_of p * scale - y_start_of p * scale)
    with ((y_end_of p - y_start_of p) * scale) by ring.
  replace (x_end_of p * scale - x_start_of p * scale)
    with ((x_end_of p - x_start_of p) * scale) by ring.
  cbn [getslice shape0 shape1 item].
  destruct (slice_prefix
              (Z.min (shape0 tile) ((y_end_of p - y_start_of p) * scale))
              (shape0 tile)) as [A0 L0]; [nia|].
  destruct (slice_prefix
              (Z.min (shape1 tile) ((x_end_of p - x_start_of p) * scale))
              (shape1 tile)) as [A1 L1]; [nia|].
  rewrite L0, L1, A0, A1. repeat split.
Qed.

(** The slice assignment succeeds whatever the size of the tile. *)
Lemma setslice_any (upscaled : ndarray) :
  shape0 upscaled = height * scale -> shape1 upscaled = width * scale ->
  let portion := tile_portion scale (width * scale) (height * scale) p tile in
  target_region upscaled
    (y_start_of p * scale) (y_start_of p * scale + shape0 portion)
    (x_start_of p * scale) (x_start_of p * scale + shape1 portion)
  = cropped_target scale p tile /\
  exists upscaled',
    setslice upscaled
      (y_start_of p * scale) (y_start_of p * scale + shape0 portion)
      (x_start_of p * scale) (x_start_of p * scale + shape1 portion) portion
    = Some upscaled' /\
    shape0 upscaled' = height * scale /\ shape1 upscaled' = width * scale /\
    forall i j,
      item upscaled' i j
      = if in_region (cropped_target scale p tile) i j
        then as_uint8 (tile_pixel scale p tile i j)
        else item upscaled i j.
Proof.
  intros H0 H1 portion.
  destruct portion_shape as (S0 & S1 & Hitem). fold portion in S0, S1, Hitem.
  assert (Htarget :
    target_region upscaled
      (y_start_of p * scale) (y_start_of p * scale + shape0 portion)
      (x_start_of p * scale) (x_start_of p * scale + shape1 portion)
    = cropped_target scale p tile).
  { unfold target_region, cropped_target. rewrite H0, H1.
    destruct Ht as [T0 T1]. unfold inside in Hp.
    destruct (slice_inside (y_start_of p * scale) (shape0 portion)
                           (height * scale)) as [-> ->]; try nia.
    destruct (slice_inside (x_start_of p * scale) (shape1 portion)
                           (width * scale)) as [-> ->]; try nia.
    now rewrite S0, S1. }
  split; [exact Htarget|].
  unfold setslice. rewrite Htarget. unfold cropped_target at 1.
  rewrite <- S0, <- S1. unfold broadcasts. rewrite !Z.eqb_refl.
  cbn [orb andb]. eexists. split; [reflexivity|].
  cbn [shape0 shape1 item]. split; [exact H0|]. split; [exact H1|].
  intros i j. unfold cropped_target. rewrite <- S0, <- S1.
  destruct (in_region _ i j); [|reflexivity].
  rewrite Hitem. reflexivity.
Qed.

End AnyTile.

Lemma combine_tile_any (env : Env) (scale width height : Z)
      (p : TilePosition) (tile upscaled : ndarray)
      (tracker : ProgressTracker) (k : Z) (w : World) :
  1 <= scale -> inside width height p -> proper_shape tile ->
  shape0 upscaled = height * scale -> shape1 upscaled = width * scale ->
  exists upscaled' tracker' w',
    combine_tile env scale (width * scale) (height * scale)
                 (upscaled, tracker) k p tile w
    = (inr (upscaled', tracker'), w') /\
    shape0 upscaled' = height * scale /\ shape1 upscaled' = width * scale /\
    (forall i j,
       item upscaled' i j
       = if in_region (cropped_target scale p tile) i j
         then as_uint8 (tile_pixel scale p tile i j)
         else item upscaled i j) /\
    canvas_writes (trace w')
    = canvas_writes (trace w) ++ [cropped_target scale p tile] /\
    combine_errors (trace w') = combine_errors (trace w) /\
    current tracker' = current tracker + 1.
Proof.
  intros Hs Hp Ht H0 H1. unfold combine_tile.
  rewrite (out_bounds_inside scale width height p Hs Hp).
  destruct (setslice_any scale width height p tile Hs Hp Ht upscaled H0 H1)
    as (Htarget & upscaled' & E & S0 & S1 & Hitem).
  cbv zeta in Htarget, E.
  unfold bind at 1. unfold try_except, place. rewrite E, Htarget.
  unfold bind at 1. unfold emit at 1. unfold ret at 1.
  unfold bind at 1.
  match goal with |- context [update env tracker 1 ?w1] =>
    destruct (update_counts env tracker 1 w1)
      as (tracker' & w' & -> & Hw & Hc & _)
  end.
  exists upscaled', tracker', w'. split; [reflexivity|].
  destruct (quiet_tracker _ _ Hw) as [-> ->]. cbn [trace].
  rewrite writes_app, errors_app. cbn.
  rewrite app_nil_r. auto 10.
Qed.

Lemma composite_pixel_app (scale : Z)
      (l1 l2 : list (TilePosition * ndarray)) (base : Pixel) (i j : Z) :
  composite_pixel scale (l1 ++ l2) base i j
  = composite_pixel scale l2 (composite_pixel scale l1 base i j) i j.
Proof.
  revert base. induction l1 as [|[p t] l1 IH]; intros base; [reflexivity|].
  cbn [app composite_pixel]. apply IH.
Qed.

Lemma composite_pixel_missed (scale : Z)
      (l : list (TilePosition * ndarray)) (base : Pixel) (i j : Z) :
  Forall (fun pt => in_region (cropped_target scale (fst pt) (snd pt)) i j
                    = false) l ->
  composite_pixel scale l base i j = base.
Proof.
  induction 1 as [|[p t] l Hpt _ IH]; [reflexivity|].
  cbn [composite_pixel]. cbn [fst snd] in Hpt. now rewrite Hpt.
Qed.

Lemma combine_loop_any (env : Env) (scale width height : Z)
      (pairs : list (TilePosition * ndarray)) :
  1 <= scale ->
  Forall (fun pt => inside width height (fst pt) /\ proper_shape (snd pt))
         pairs ->
  forall (k : Z) (upscaled : ndarray) (tracker : ProgressTracker) (w : World),
  shape0 upscaled = height * scale -> shape1 upscaled = width * scale ->
  exists upscaled' tracker' w',
    combine_loop env scale (width * scale) (height * scale) k pairs
                 (upscaled, tracker) w
    = (inr (upscaled', tracker'), w') /\
    shape0 upscaled' = height * scale /\ shape1 upscaled' = width * scale /\
    (forall i j,
       item upscaled' i j
       = composite_pixel scale pairs (item upscaled i j) i j) /\
    canvas_writes (trace w')
    = canvas_writes (trace w)
      ++ map (fun pt => cropped_target scale (fst pt) (snd pt)) pairs /\
    combine_errors (trace w') = combine_errors (trace w) /\
    current tracker' = current tracker + Z.of_nat (length pairs).
Proof.
  intros Hs Hall. induction Hall as [|[p tile] rest [Hp Ht] Hrest IH];
    intros k upscaled tracker w H0 H1; cbn [combine_loop].
  - exists upscaled, tracker, w. split; [reflexivity|].
    cbn. rewrite app_nil_r, Z.add_0_r. auto 10.
  - cbn [fst snd] in Hp, Ht.
    destruct (combine_tile_any env scale width height p tile upscaled
                               tracker k w Hs Hp Ht H0 H1)
      as (u1 & t1 & w1 & E1 & S0 & S1 & I1 & W1 & R1 & C1).
    destruct (IH (k + 1) u1 t1 w1 S0 S1)
      as (u2 & t2 & w2 & E2 & S0' & S1' & I2 & W2 & R2 & C2).
    exists u2, t2, w2. unfold bind at 1. rewrite E1, E2.
    split; [reflexivity|]. split; [exact S0'|]. split; [exact S1'|]. split.
    + intros i j. rewrite I2, I1. reflexivity.
    + rewrite W2, W1, R2, R1, C2, C1, <- app_assoc.
      cbn [map fst snd length app]. split; [reflexivity|].
      split; [reflexivity|]. lia.
Qed.

Lemma pairs_proper (image : ndarray) (tile_size : Z)
      (upscaled_tiles : list ndarray) :
  1 <= shape1 image -> 1 <= shape0 image -> 0 < tile_size ->
  Forall proper_shape upscaled_tiles ->
  Forall (fun pt => inside (shape1 image) (shape0 image) (fst pt)
                    /\ proper_shape (snd pt))
         (combine (tile_positions image tile_size) upscaled_tiles).
Proof.
  intros Hw Hh Ht Hall. apply Forall_forall. intros [p t] Hpt. cbn [fst snd].
  split.
  - apply (position_inside image tile_size p Hw Hh Ht).
    eapply in_combine_l; exact Hpt.
  - rewrite Forall_forall in Hall. apply Hall.
    eapply in_combine_r; exact Hpt.
Qed.

(** X6. For the tile positions of the partitioner the [except ValueError]
    branch of the compositor is unreachable whatever sizes the transformed
    tiles have: a tile larger than its scaled position is cropped to it, a
    smaller one is written as it is, and the k-th slice assignment writes
    the rows and columns [min(tile size, scaled extent)] starting at the
    scaled start of the k-th position.  The canvas keeps its shape and the
    progress counter advances by one per tile. *)
Theorem compositor_accepts_any_tile_size (env : Env) (image : ndarray)
        (tile_size scale : Z) (upscaled_tiles : list ndarray)
        (tracker : ProgressTracker) (w : World) :
  1 <= shape1 image -> 1 <= shape0 image -> 0 < tile_size -> 1 <= scale ->
  Forall proper_shape upscaled_tiles ->
  let output_height := shape0 image * scale in
  let output_width := shape1 image * scale in
  let pairs := combine (tile_positions image tile_size) upscaled_tiles in
  exists upscaled' tracker' w',
    combine_loop env scale output_width output_height 0 pairs
                 (zeros output_height output_width, tracker) w
    = (inr (upscaled', tracker'), w') /\
    combine_errors (trace w') = combine_errors (trace w) /\
    canvas_writes (trace w')
    = canvas_writes (trace w)
      ++ map (fun pt => cropped_target scale (fst pt) (snd pt)) pairs /\
    shape0 upscaled' = output_height /\ shape1 upscaled' = output_width /\
    current tracker' = current tracker + Z.of_nat (length pairs).
Proof.
  intros Hw Hh Ht Hs Hall output_height output_width pairs.
  subst output_height output_width pairs.
  destruct (combine_loop_any env scale (shape1 image) (shape0 image) _ Hs
              (pairs_proper image tile_size upscaled_tiles Hw Hh Ht Hall)
              0 (zeros (shape0 image * scale) (shape1 image * scale))
              tracker w eq_refl eq_refl)
    as (u & t & w' & E & S0 & S1 & _ & W & R & C).
  exists u, t, w'. auto 10.
Qed.

(** X7. What the canvas holds after compositing.  A canvas pixel that lies
    in the written region of the k-th tile and of no later tile holds that
    tile's pixel at the offset from the scaled start of its position, as the
    [uint8] canvas stores it:
    [upscaled[i, j] = uint8(tile_k[i - y_start*scale, j - x_start*scale])],
    which is the tile's pixel itself when the tile holds [uint8] data; a
    pixel in the region of no tile is still zero.  Where regions overlap the
    tile later in row-major order wins. *)
Theorem canvas_holds_last_writer (env : Env) (image : ndarray)
        (tile_size scale : Z) (upscaled_tiles : list ndarray)
        (tracker : ProgressTracker) (w : World) :
  1 <= shape1 image -> 1 <= shape0 image -> 0 < tile_size -> 1 <= scale ->
  Forall proper_shape upscaled_tiles ->
  let output_height := shape0 image * scale in
  let output_width := shape1 image * scale in
  let pairs := combine (tile_positions image tile_size) upscaled_tiles in
  let missed i j :=
    Forall (fun pt => in_region (cropped_target scale (fst pt) (snd pt)) i j
                      = false) in
  exists upscaled' tracker' w',
    combine_loop env scale output_width output_height 0 pairs
                 (zeros output_height output_width, tracker) w
    = (inr (upscaled', tracker'), w') /\
    (forall before p tile after i j,
       pairs = before ++ (p, tile) :: after ->
       in_region (cropped_target scale p tile) i j = true ->
       missed i j after ->
       item upscaled' i j = as_uint8 (tile_pixel scale p tile i j)) /\
    (forall i j, missed i j pairs -> item upscaled' i j = (0, 0, 0)).
Proof.
  intros Hw Hh Ht Hs Hall output_height output_width pairs missed.
  subst output_height output_width missed.
  destruct (combine_loop_any env scale (shape1 image) (shape0 image) pairs Hs
              (pairs_proper image tile_size upscaled_tiles Hw Hh Ht Hall)
              0 (zeros (shape0 image * scale) (shape1 image * scale))
              tracker w eq_refl eq_refl)
    as (u & t & w' & E & _ & _ & I & _).
  exists u, t, w'. split; [exact E|]. split.
  - intros before p tile after i j Hsplit Hin Hmiss.
    rewrite I, Hsplit, composite_pixel_app. cbn [composite_pixel].
    rewrite Hin. now apply composite_pixel_missed.
  - intros i j Hmiss. rewrite I. now apply composite_pixel_missed.
Qed.

Lemma compositor_accepts_any_tile_size_witness :
  exists upscaled' tracker' w',
    combine_loop env_2x 2 4000 3000 0
      (combine (tile_positions image_2000x1500 1024)
               (map (nearest 3) (tiles image_2000x1500 1024)))
      (zeros 3000 4000, tracker_halfway) initial_world
    = (inr (upscaled', tracker'), w') /\
    combine_errors (trace w') = [] /\
    canvas_writes (trace w')
    = [(0, 2080, 0, 2080); (0, 2080, 2016, 1984);
       (2016, 984, 0, 2080); (2016, 984, 2016, 1984)] /\
    current tracker' = 6.
Proof.
  destruct (compositor_accepts_any_tile_size env_2x image_2000x1500 1024 2
              (map (nearest 3) (tiles image_2000x1500 1024))
              tracker_halfway initial_world)
    as (u & t & w' & E & R & W & _ & _ & C); try (simpl; lia).
  { repeat (constructor; [split; vm_compute; discriminate|]). constructor. }
  exists u, t, w'. split; [exact E|]. split; [exact R|].
  split; [exact W | exact C].
Defined.

Lemma canvas_holds_last_writer_witness :
  exists upscaled' tracker' w',
    combine_loop env_2x 2 4000 3000 0
      (combine (tile_positions image_uint8 1024)
               (map (nearest 2) (tiles image_uint8 1024)))
      (zeros 3000 4000, tracker_halfway) initial_world
    = (inr (upscaled', tracker'), w') /\
    item upscaled' 0 2016 = (0, 240, 7).
Proof.
  destruct (canvas_holds_last_writer env_2x image_uint8 1024 2
              (map (nearest 2) (tiles image_uint8 1024))
              tracker_halfway initial_world)
    as (u & t & w' & E & Hlast & _); try (simpl; lia).
  { repeat (constructor; [split; vm_compute; discriminate|]). constructor. }
  exists u, t, w'. split; [exact E|].
  set (pairs := combine (tile_positions image_uint8 1024)
                        (map (nearest 2) (tiles image_uint8 1024))).
  rewrite (Hlast (firstn 1 pairs) (1008, 0, 2000, 1040)
                 (nearest 2 (extract image_uint8 (1008, 0, 2000, 1040)))
                 (skipn 2 pairs) 0 2016).
  - reflexivity.
  - reflexivity.
  - reflexivity.
  - repeat constructor.
Defined.

Lemma setslice_shape (a v a' : ndarray) (r0 r1 c0 c1 : Z) :
  setslice a r0 r1 c0 c1 v = Some a' ->
  shape0 a' = shape0 a /\ shape1 a' = shape1 a.
Proof.
  unfold setslice, target_region.
  destruct (_ && _); [|discriminate].
  intros H. injection H as <-. split; reflexivity.
Qed.

Lemma lines_app (t1 t2 : list Event) :
  stdout (t1 ++ t2) = stdout t1 ++ stdout t2.
Proof. unfold stdout. apply flat_map_app. Qed.

(** One iteration, whatever the position and the tile: it returns, and has
    either written the canvas or reported the tile and left the canvas as it
    was. *)
Lemma combine_tile_returns (env : Env) (scale ow oh : Z)
      (upscaled : ndarray) (tracker : ProgressTracker) (k : Z)
      (p : TilePosition) (tile : ndarray) (w : World) :
  exists upscaled' tracker' w',
    combine_tile env scale ow oh (upscaled, tracker) k p tile w
    = (inr (upscaled', tracker'), w') /\
    shape0 upscaled' = shape0 upscaled /\
    shape1 upscaled' = shape1 upscaled /\
    current tracker' = current tracker + 1 /\
    ((exists g, canvas_writes (trace w') = canvas_writes (trace w) ++ [g]
                /\ combine_errors (trace w') = combine_errors (trace w))
     \/
     (exists e, upscaled' = upscaled
                /\ canvas_writes (trace w') = canvas_writes (trace w)
                /\ combine_errors (trace w')
                   = combine_errors (trace w) ++ [ErrorCombiningTile k e])).
Proof.
  unfold combine_tile.
  destruct (out_bounds scale ow oh p) as [[[oxs oys] oxe] oye].
  unfold bind at 1. unfold try_except, place.
  destruct (setslice _ _ _ _ _ _) as [u|] eqn:E.
  - unfold bind at 1. unfold emit at 1. unfold ret at 1.
    unfold bind at 1.
    match goal with |- context [update env tracker 1 ?w1] =>
      destruct (update_counts env tracker 1 w1)
        as (tracker' & w' & -> & Hw & Hc & _)
    end.
    exists u, tracker', w'. split; [reflexivity|].
    destruct (setslice_shape _ _ _ _ _ _ _ E) as [S0 S1].
    split; [exact S0|]. split; [exact S1|]. split; [exact Hc|].
    left. eexists. destruct (quiet_tracker _ _ Hw) as [-> ->]. cbn [trace].
    rewrite writes_app, errors_app. cbn. rewrite app_nil_r.
    split; reflexivity.
  - destruct (target_region _ _ _ _ _) as [[[r h] c] wd].
    unfold raise, bind, print, emit, ret. cbn [is_ValueError reads trace].
    match goal with |- context [update env tracker 1 ?w1] =>
      destruct (update_counts env tracker 1 w1)
        as (tracker' & w' & -> & Hw & Hc & _)
    end.
    exists upscaled, tracker', w'. split; [reflexivity|].
    split; [reflexivity|]. split; [reflexivity|]. split; [exact Hc|].
    right. eexists. split; [reflexivity|].
    destruct (quiet_tracker _ _ Hw) as [-> ->]. cbn [trace].
    rewrite !writes_app, !errors_app. cbn. rewrite !app_nil_r.
    split; reflexivity.
Qed.

(** X8. The compositing loop never raises, whatever positions and tiles it
    is given: a slice assignment that fails is caught, reported and skipped.
    It returns a canvas of the same shape, every pair has led to exactly one
    canvas write or one [Error combining tile] line, and the progress
    counter has advanced by one per pair, written or not. *)
Theorem compositor_never_aborts (env : Env) (scale ow oh : Z)
        (pairs : list (TilePosition * ndarray)) (k : Z)
        (upscaled : ndarray) (tracker : ProgressTracker) (w : World) :
  exists upscaled' tracker' w',
    combine_loop env scale ow oh k pairs (upscaled, tracker) w
    = (inr (upscaled', tracker'), w') /\
    shape0 upscaled' = shape0 upscaled /\
    shape1 upscaled' = shape1 upscaled /\
    current tracker' = current tracker + Z.of_nat (length pairs) /\
    (length (canvas_writes (trace w')) + length (combine_errors (trace w'))
     = length (canvas_writes (trace w)) + length (combine_errors (trace w))
       + length pairs)%nat.
Proof.
  revert k upscaled tracker w.
  induction pairs as [|[p tile] rest IH]; intros k upscaled tracker w;
    cbn [combine_loop].
  - exists upscaled, tracker, w. cbn. repeat split; lia.
  - destruct (combine_tile_returns env scale ow oh upscaled tracker k p tile w)
      as (u1 & t1 & w1 & E1 & S0 & S1 & C1 & Hcase).
    destruct (IH (k + 1) u1 t1 w1) as (u2 & t2 & w2 & E2 & S0' & S1' & C2 & N2).
    exists u2, t2, w2. unfold bind at 1. rewrite E1, E2.
    split; [reflexivity|]. split; [congruence|]. split; [congruence|].
    split; [cbn [length]; lia|].
    rewrite N2. cbn [length].
    destruct Hcase as [(g & -> & ->)|(e & _ & -> & ->)];
      rewrite length_app; cbn [length]; lia.
Qed.

Lemma update_output (env : Env) (self : ProgressTracker) (n : Z) (w : World) :
  exists self' w' ls,
    update env self n w = (inr self', w') /\
    trace w' = trace w ++ map Stdout ls /\
    Forall (fun l => exists r, l = ProgressLine r) ls /\
    (length ls <= 1)%nat /\
    current self' = current self + n /\ total self' = total self.
Proof.
  rewrite update_unfold. cbv zeta.
  destruct (Qle_bool _ _).
  - destruct (Z.leb_spec (total (set_current self (current self + n))) 0)
      as [Ht|Ht].
    + rewrite display_skips by exact Ht.
      eexists _, _, []. split; [reflexivity|]. cbn.
      rewrite app_nil_r. repeat split; auto.
    + rewrite display_renders by exact Ht.
      eexists _, _, [_]. split; [reflexivity|]. cbn.
      repeat split; auto. constructor; [eexists; reflexivity | constructor].
  - eexists _, _, []. split; [reflexivity|]. cbn.
    rewrite app_nil_r. repeat split; auto.
Qed.

Lemma stdout_of_lines (ls : list Line) : stdout (map Stdout ls) = ls.
Proof.
  induction ls as [|l ls IH]; [reflexivity|].
  change (stdout (map Stdout (l :: ls))) with (l :: stdout (map Stdout ls)).
  now rewrite IH.
Qed.

Lemma writes_of_lines (ls : list Line) : canvas_writes (map Stdout ls) = [].
Proof. induction ls as [|l ls IH]; [reflexivity|]. exact IH. Qed.

(** X9. When the slice assignment of an iteration raises [ValueError] (the
    cropped tile does not fit the clamped target slice), the iteration
    prints [Error combining tile i] and the two shapes, leaves the canvas
    exactly as it was, and still counts the tile as progress; nothing else
    is printed but the progress line of that update. *)
Theorem mismatched_tile_is_skipped (env : Env) (scale ow oh : Z)
        (upscaled : ndarray) (tracker : ProgressTracker) (k : Z)
        (p : TilePosition) (tile : ndarray) (w : World)
        (out_x_start out_y_start out_x_end out_y_end : Z) :
  out_bounds scale ow oh p
  = (out_x_start, out_y_start, out_x_end, out_y_end) ->
  let portion := tile_portion scale ow oh p tile in
  setslice upscaled out_y_start (out_y_start + shape0 portion)
           out_x_start (out_x_start + shape1 portion) portion = None ->
  exists e tracker' w' progress,
    combine_tile env scale ow oh (upscaled, tracker) k p tile w
    = (inr (upscaled, tracker'), w') /\
    current tracker' = current tracker + 1 /\
    canvas_writes (trace w') = canvas_writes (trace w) /\
    stdout (trace w')
    = stdout (trace w)
      ++ [ErrorCombiningTile k (ValueError e);
          TileShapeTarget (shape0 portion, shape1 portion)
                          (out_y_end - out_y_start, out_x_end - out_x_start)]
      ++ progress /\
    Forall (fun l => exists r, l = ProgressLine r) progress.
Proof.
  intros Hout portion E. unfold combine_tile. rewrite Hout.
  fold portion. unfold bind at 1. unfold try_except, place. rewrite E.
  destruct (target_region _ _ _ _ _) as [[[r h] c] wd].
  unfold raise, bind, print, emit, ret. cbn [is_ValueError reads trace].
  match goal with |- context [update env tracker 1 ?w1] =>
    destruct (update_output env tracker 1 w1)
      as (tracker' & w' & ls & -> & Ht & Hls & _ & Hc & _)
  end.
  eexists _, tracker', w', ls. split; [reflexivity|]. split; [exact Hc|].
  cbn [trace] in Ht. rewrite Ht.
  rewrite !writes_app, !lines_app, writes_of_lines, stdout_of_lines.
  cbn. rewrite !app_nil_r, <- !app_assoc.
  split; [reflexivity|]. split; [reflexivity | exact Hls].
Qed.

Lemma mismatched_tile_is_skipped_witness :
  exists tracker' w',
    combine_tile env_2x 2 4000 3000 (zeros 3000 4000, tracker_halfway) 7
                 stray_position stray_tile initial_world
    = (inr (zeros 3000 4000, tracker'), w') /\
    current tracker' = 3 /\
    canvas_writes (trace w') = [].
Proof.
  pose proof (mismatched_tile_is_skipped env_2x 2 4000 3000 (zeros 3000 4000)
                tracker_halfway 7 stray_position stray_tile initial_world
                4200 0 4000 200 eq_refl) as H.
  cbv zeta in H. destruct (H eq_refl) as (e & t & w' & ls & E & C & W & _).
  exists t, w'. split; [exact E|]. split; [exact C | exact W].
Defined.

End CanvasFacts.

(** ** Clock readings only accumulate *)
Module ClockFacts.
Import Partition TrackerFacts TraceFacts.

Lemma keeps_ret {A} (a : A) : keeps_time (ret a).
Proof. intros w. apply Nat.le_refl. Qed.

Lemma keeps_raise {A} (e : Exc) : keeps_time (@raise A e).
Proof. intros w. apply Nat.le_refl. Qed.

Lemma keeps_bind {A B} (m : M A) (k : A -> M B) :
  keeps_time m -> (forall a, keeps_time (k a)) -> keeps_time (bind m k).
Proof.
  intros Hm Hk w. unfold bind. specialize (Hm w).
  destruct (m w) as [[e|a] w1]; cbn [snd] in *; [exact Hm|].
  specialize (Hk a w1). lia.
Qed.

Lemma keeps_try {A} (class : Exc -> bool) (body : M A)
      (handler : Exc -> M A) :
  keeps_time body -> (forall e, keeps_time (handler e)) ->
  keeps_time (try_except class body handler).
Proof.
  intros Hb Hh w. unfold try_except. specialize (Hb w).
  destruct (body w) as [[e|a] w1]; cbn [snd] in *; [|exact Hb].
  destruct (class e); [|exact Hb]. specialize (Hh e w1). lia.
Qed.

Lemma keeps_emit (e : Event) : keeps_time (emit e).
Proof. intros w. apply Nat.le_refl. Qed.

Lemma keeps_clock (env : Env) : keeps_time (time_time env).
Proof. intros w. cbn. lia. Qed.

Lemma keeps_truediv (a b : Q) : keeps_time (truediv a b).
Proof.
  unfold truediv. destruct (Qeq_bool b 0);
    [apply keeps_raise | apply keeps_ret].
Qed.

Ltac keeps_step :=
  match goal with
  | |- keeps_time (bind _ _) => apply keeps_bind; [|intros]
  | |- keeps_time (ret _) => apply keeps_ret
  | |- keeps_time (raise _) => apply keeps_raise
  | |- keeps_time (sys_exit _) => apply keeps_raise
  | |- keeps_time (try_except _ _ _) => apply keeps_try; [|intros]
  | |- keeps_time (emit _) => apply keeps_emit
  | |- keeps_time (print _) => apply keeps_emit
  | |- keeps_time (time_time _) => apply keeps_clock
  | |- keeps_time (truediv _ _) => apply keeps_truediv
  | |- keeps_time (if ?b then _ else _) => destruct b
  | |- keeps_time (match ?x with _ => _ end) => destruct x
  end.

Lemma keeps_display (env : Env) (self : ProgressTracker) :
  keeps_time (display env self).
Proof. unfold display. repeat keeps_step. Qed.

Lemma keeps_update (env : Env) (self : ProgressTracker) (n : Z) :
  keeps_time (update env self n).
Proof. unfold update. repeat (keeps_step || apply keeps_display). Qed.

Lemma keeps_complete (env : Env) (self : ProgressTracker) :
  keeps_time (complete env self).
Proof. unfold complete. repeat (keeps_step || apply keeps_display). Qed.

Lemma keeps_init (env : Env) (n : Z) (d : string) :
  keeps_time (Tracker.init env n d).
Proof. unfold Tracker.init. repeat keeps_step. Qed.

Lemma keeps_process_tile (env : Env)
      (args : ndarray * option ProgressTracker) :
  keeps_time (process_tile env args).
Proof.
  unfold process_tile, sr_upsample. destruct args as [tile tracker].
  repeat (keeps_step || apply keeps_update).
Qed.

Lemma keeps_executor_map (env : Env) (tiles : list ndarray)
      (tracker : option ProgressTracker) :
  keeps_time (executor_map env tiles tracker).
Proof.
  revert tracker.
  induction tiles as [|tile rest IH]; intros tracker; cbn [executor_map].
  - apply keeps_ret.
  - apply keeps_bind; [apply keeps_process_tile|]. intros [result tracker1].
    apply keeps_bind; [apply IH|]. intros [results tracker2].
    apply keeps_ret.
Qed.

Lemma keeps_combine_tile (env : Env) (scale ow oh : Z)
      (state : ndarray * ProgressTracker) (i : Z) (p : TilePosition)
      (tile : ndarray) :
  keeps_time (combine_tile env scale ow oh state i p tile).
Proof.
  unfold combine_tile, place. destruct state as [upscaled tracker].
  destruct (out_bounds scale ow oh p) as [[[a b] c] d].
  repeat (keeps_step || apply keeps_update).
Qed.

Lemma keeps_combine_loop (env : Env) (scale ow oh : Z)
      (pairs : list (TilePosition * ndarray)) (i : Z)
      (state : ndarray * ProgressTracker) :
  keeps_time (combine_loop env scale ow oh i pairs state).
Proof.
  revert i state. induction pairs as [|[p tile] rest IH]; intros i state;
    cbn [combine_loop].
  - apply keeps_ret.
  - apply keeps_bind; [apply keeps_combine_tile | intros; apply IH].
Qed.

Lemma keeps_tiled_branch (env : Env) (image : ndarray) (scale tile_size : Z) :
  keeps_time (tiled_branch env image scale tile_size).
Proof.
  unfold tiled_branch.
  destruct (create_tiles image tile_size) as [ts ps].
  repeat first
    [ apply keeps_combine_loop | apply keeps_executor_map
    | apply keeps_init | apply keeps_complete | keeps_step ].
Qed.

(** The compositing loop emits nothing but canvas writes and lines. *)
Lemma emits_compose_update (env : Env) (self : ProgressTracker) (n : Z) :
  emits compose_event (update env self n).
Proof.
  eapply emits_weaken; [|apply emits_update].
  intros [[]| | | | | | |]; cbn; congruence.
Qed.

Lemma emits_compose_tile (env : Env) (scale ow oh : Z)
      (state : ndarray * ProgressTracker) (i : Z) (p : TilePosition)
      (tile : ndarray) :
  emits compose_event (combine_tile env scale ow oh state i p tile).
Proof.
  unfold combine_tile, place. destruct state as [upscaled tracker].
  destruct (out_bounds scale ow oh p) as [[[a b] c] d].
  repeat (emits_step || apply emits_compose_update).
Qed.

Lemma emits_compose_loop (env : Env) (scale ow oh : Z)
      (pairs : list (TilePosition * ndarray)) (i : Z)
      (state : ndarray * ProgressTracker) :
  emits compose_event (combine_loop env scale ow oh i pairs state).
Proof.
  revert i state. induction pairs as [|[p tile] rest IH]; intros i state;
    cbn [combine_loop].
  - apply emits_ret.
  - apply emits_bind; [apply emits_compose_tile | intros; apply IH].
Qed.

End ClockFacts.

(** ** Whole runs: progress accounting, early exits and successful runs *)
Module WholeRunFacts.
Import Partition PartitionFacts GridFacts TrackerFacts TraceFacts DispatchFacts
       CompositeFacts RunFacts CanvasFacts ClockFacts.

Lemma saved_app (t1 t2 : list Event) :
  imwrites (t1 ++ t2) = imwrites t1 ++ imwrites t2.
Proof. unfold imwrites. apply flat_map_app. Qed.

Lemma calls_of_lines (ls : list Line) : upsample_calls (map Stdout ls) = [].
Proof. induction ls as [|l ls IH]; [reflexivity | exact IH]. Qed.

Lemma saved_of_lines (ls : list Line) : imwrites (map Stdout ls) = [].
Proof. induction ls as [|l ls IH]; [reflexivity | exact IH]. Qed.

Lemma no_errors_in_progress (ls : list Line) :
  Forall (fun l => exists r, l = ProgressLine r) ls ->
  filter is_combine_error ls = [].
Proof.
  induction 1 as [|l ls [r ->] _ IH]; [reflexivity|]. exact IH.
Qed.

Lemma process_tile_output (env : Env) (tile r : ndarray)
      (t : ProgressTracker) (w : World) :
  upsample env tile = inr r ->
  exists t' w' ls,
    process_tile env (tile, Some t) w = (inr (r, Some t'), w') /\
    trace w' = trace w ++ Upsample tile :: map Stdout ls /\
    Forall (fun l => exists r, l = ProgressLine r) ls /\
    (length ls <= 1)%nat /\
    current t' = current t + 1 /\ total t' = total t.
Proof.
  intros Hr. unfold process_tile, sr_upsample.
  unfold bind at 1. unfold bind at 1. unfold emit at 1. rewrite Hr.
  unfold ret at 1. unfold bind.
  destruct (update_output env t 1
              {| reads := reads w; trace := trace w ++ [Upsample tile] |})
    as (t' & w' & ls & -> & Ht & Hls & Hlen & Hc & Htot).
  exists t', w', ls. split; [reflexivity|].
  cbn [trace] in Ht. rewrite Ht, <- app_assoc. auto 10.
Qed.

Lemma executor_map_succeeds (env : Env) (tiles : list ndarray)
      (t : ProgressTracker) (w : World) :
  (forall tile, In tile tiles -> exists r, upsample env tile = inr r) ->
  exists results t' w' progress,
    executor_map env tiles (Some t) w = (inr (results, Some t'), w') /\
    Forall2 (fun tile r => upsample env tile = inr r) tiles results /\
    current t' = current t + Z.of_nat (length tiles) /\
    total t' = total t /\
    upsample_calls (trace w') = upsample_calls (trace w) ++ tiles /\
    stdout (trace w') = stdout (trace w) ++ progress /\
    Forall (fun l => exists r, l = ProgressLine r) progress /\
    (length progress <= length tiles)%nat /\
    canvas_writes (trace w') = canvas_writes (trace w).
Proof.
  revert t w. induction tiles as [|tile rest IH]; intros t w Hok;
    cbn [executor_map].
  - exists [], t, w, []. cbn. rewrite !app_nil_r, Z.add_0_r.
    repeat split; auto.
  - destruct (Hok tile (or_introl eq_refl)) as (r & Hr).
    destruct (process_tile_output env tile r t w Hr)
      as (t1 & w1 & ls & E1 & T1 & L1 & N1 & C1 & Tot1).
    destruct (IH t1 w1 (fun x Hx => Hok x (or_intror Hx)))
      as (results & t2 & w2 & progress & E2 & F2 & C2 & Tot2 & U2 & S2
          & L2 & N2 & W2).
    exists (r :: results), t2, w2, (ls ++ progress).
    unfold bind at 1. rewrite E1. unfold bind at 1. rewrite E2.
    split; [reflexivity|]. split; [constructor; assumption|].
    split; [cbn [length]; lia|]. split; [congruence|].
    rewrite U2, S2, W2, T1.
    change (Upsample tile :: map Stdout ls)
      with ([Upsample tile] ++ map Stdout ls).
    rewrite !calls_app, !lines_app, !writes_app.
    rewrite calls_of_lines, stdout_of_lines, writes_of_lines.
    cbn [upsample_calls stdout canvas_writes flat_map app].
    rewrite !app_nil_r, <- !app_assoc. cbn [app].
    split; [reflexivity|]. split; [reflexivity|].
    split; [apply Forall_app; split; assumption|].
    split; [rewrite length_app; cbn [length]; lia | reflexivity].
Qed.

Lemma supported_scale_test (scale : Z) :
  In scale supported_scales ->
  existsb (Z.eqb scale) supported_scales = true.
Proof.
  intros Hs. apply existsb_exists. exists scale.
  split; [exact Hs | apply Z.eqb_refl].
Qed.

(** X11. With a supported scale, every failure of the set-up ends the run
    with exit status 1 before the transform is ever invoked and before
    anything is written: when the model is absent and the download exits or
    does not provide it, the input is not even read; when the input cannot
    be read ([cv2.imread] returns [None]) the model is not loaded; when
    loading the model raises, no upscaling starts. *)
Theorem setup_failure_exits_before_transform
        (env : Env) (input_path output_path : string) (scale : Z)
        (use_gpu : bool) (tile_size : Z) (w : World) :
  In scale supported_scales ->
  let run := upscale_image env input_path output_path scale use_gpu
                           tile_size w in
  let pre := if model_on_disk env then [] else [DownloadModels] in
  (model_on_disk env = false -> download_outcome env = None ->
   run = (inl (SystemExit 1), extend w 0 [DownloadModels])) /\
  (model_on_disk env = false -> download_outcome env = Some false ->
   run = (inl (SystemExit 1),
          extend w 0 [DownloadModels; Stdout (ModelNotFound scale)])) /\
  (model_present_after env = true -> imread env input_path = None ->
   run = (inl (SystemExit 1),
          extend w 0
            (pre ++ [Imread input_path;
                     Stdout (ErrorReadingInput
                               (FileNotFoundError
                                  (MsgNotFound input_path)))]))) /\
  (forall image e,
     model_present_after env = true ->
     imread env input_path = Some image ->
     readModel env scale = Some e -> is_Exception e = true ->
     run = (inl (SystemExit 1),
            extend w 0
              (pre ++ [Imread input_path;
                       Stdout (InputImageSize (shape1 image) (shape0 image));
                       Stdout (LoadingModel scale);
                       ReadModel scale;
                       Stdout (ErrorLoadingModel e scale)]))).
Proof.
  intros Hs run pre. subst run pre. unfold upscale_image.
  rewrite (supported_scale_test scale Hs). cbn [negb].
  unfold model_present_after, download_edsr_models, extend.
  rewrite Nat.add_0_r.
  split; [|split; [|split]].
  - intros Hd Ho. rewrite Hd, Ho. reflexivity.
  - intros Hd Ho. rewrite Hd, Ho.
    cbn. rewrite <- app_assoc. reflexivity.
  - intros Hm Hi. unfold model_present_after in Hm.
    destruct (model_on_disk env).
    + unfold bind, try_except, emit, print, raise, ret, sys_exit.
      rewrite Hi. cbn. rewrite ?app_nil_r, <- ?app_assoc. reflexivity.
    + destruct (download_outcome env) as [[|]|]; try discriminate.
      unfold bind, try_except, emit, print, raise, ret, sys_exit.
      rewrite Hi. cbn. rewrite <- ?app_assoc. reflexivity.
  - intros image e Hm Hi Hr He. unfold model_present_after in Hm.
    destruct (model_on_disk env).
    + unfold bind, try_except, emit, print, raise, ret, sys_exit.
      rewrite Hi, Hr. cbn. rewrite He.
      cbn. rewrite ?app_nil_r, <- ?app_assoc. reflexivity.
    + destruct (download_outcome env) as [[|]|]; try discriminate.
      unfold bind, try_except, emit, print, raise, ret, sys_exit.
      rewrite Hi, Hr. cbn. rewrite He.
      cbn. rewrite <- ?app_assoc. reflexivity.
Qed.

Lemma setup_failure_exits_before_transform_witness :
  upscale_image env_no_model "in.png" "out.png" 3 true 1024 initial_world
  = (inl (SystemExit 1),
     extend initial_world 0 [DownloadModels; Stdout (ModelNotFound 3)]).
Proof.
  destruct (setup_failure_exits_before_transform env_no_model "in.png"
              "out.png" 3 true 1024 initial_world) as (_ & H & _).
  - simpl. auto.
  - apply H; reflexivity.
Defined.

Lemma elapsed_nonzero (a b : Q) :
  ~ (a == b)%Q -> Qeq_bool (a - b) 0 = false.
Proof.
  intros H. destruct (Qeq_bool (a - b) 0) eqn:E; [|reflexivity].
  exfalso. apply H. apply Qeq_bool_iff in E.
  rewrite <- (Qplus_0_l b), <- E. ring.
Qed.

(** The events the embedding records for a single-shot run that meets no
    failure; the notices of lines 226-248 and the spinner of lines 346-368
    are no part of it. *)
Lemma single_shot_events_recorded
        (env : Env) (input_path output_path : string) (scale : Z)
        (use_gpu : bool) (tile_size : Z) (image result : ndarray)
        (w : World) :
  In scale supported_scales ->
  model_present_after env = true ->
  imread env input_path = Some image ->
  readModel env scale = None ->
  use_tiling (shape1 image) (shape0 image) tile_size = false ->
  upsample env image = inr result ->
  ~ (clock env (S (reads w)) == clock env (reads w))%Q ->
  imwrite env output_path result = None ->
  upscale_image env input_path output_path scale use_gpu tile_size w
  = (inr tt,
     extend w 2
       (preamble env input_path scale image
        ++ single_shot_events image result scale
                              (clock env (reads w)) (clock env (S (reads w)))
                              output_path)).
Proof.
  intros Hs Hm Hi Hr Hu Hup Hclock Hsave.
  rewrite (reaches_stage env input_path output_path scale use_gpu tile_size
                         image w Hs Hm Hi Hr).
  unfold upscale_stage, single_shot_branch, sr_upsample, save_stage.
  rewrite Hu.
  unfold bind, try_except, truediv, print, emit, time_time, sys_exit, raise,
    ret.
  cbn [reads trace]. rewrite Hup. cbn [reads trace].
  rewrite (elapsed_nonzero _ _ Hclock). cbn [reads trace]. rewrite Hsave.
  unfold extend, single_shot_events. cbn [reads trace].
  rewrite <- !app_assoc. cbn [app].
  replace (reads w + 2)%nat with (S (S (reads w))) by lia. reflexivity.
Qed.

Lemma ticking_moves (env : Env) (n m : nat) :
  ticking env -> (n < m)%nat -> ~ (clock env m == clock env n)%Q.
Proof.
  intros Htick Hnm Heq. pose proof (Htick n m Hnm) as Hlt.
  rewrite Heq in Hlt. now apply Qlt_irrefl in Hlt.
Qed.

(** What the preamble and the branch leave in the three projections. *)
Lemma single_shot_projections (image result : ndarray) (scale : Z)
      (t0 t1 : Q) (output_path : string) :
  upsample_calls (single_shot_events image result scale t0 t1 output_path)
  = [image] /\
  imwrites (single_shot_events image result scale t0 t1 output_path)
  = [(output_path, result)].
Proof. split; reflexivity. Qed.

(** X12. A single-shot run that meets no failure saves exactly what the
    transform returned for the whole image: with a supported scale, the
    model at hand, a readable input that does not call for tiling, a
    transform that returns [result], a clock whose readings increase and a
    writer that accepts the file, [upscale_image] returns normally, has
    called the transform once, on the whole image, and has written one
    file: [result], to [output_path]. *)
Theorem single_shot_saves_transform
        (env : Env) (input_path output_path : string) (scale : Z)
        (use_gpu : bool) (tile_size : Z) (image result : ndarray)
        (w : World) :
  In scale supported_scales ->
  model_present_after env = true ->
  imread env input_path = Some image ->
  readModel env scale = None ->
  use_tiling (shape1 image) (shape0 image) tile_size = false ->
  upsample env image = inr result ->
  ticking env ->
  imwrite env output_path result = None ->
  exists w',
    upscale_image env input_path output_path scale use_gpu tile_size w
    = (inr tt, w') /\
    upsample_calls (trace w') = upsample_calls (trace w) ++ [image] /\
    imwrites (trace w') = imwrites (trace w) ++ [(output_path, result)].
Proof.
  intros Hs Hm Hi Hr Hu Hup Htick Hsave.
  rewrite (single_shot_events_recorded env input_path output_path scale
             use_gpu tile_size image result w Hs Hm Hi Hr Hu Hup
             (ticking_moves env _ _ Htick (Nat.lt_succ_diag_r _)) Hsave).
  eexists. split; [reflexivity|]. unfold extend. cbn [trace].
  destruct (preamble_quiet env input_path scale image) as (Pc & _ & Pi & _).
  destruct (single_shot_projections image result scale
              (clock env (reads w)) (clock env (S (reads w))) output_path)
    as [Sc Si].
  rewrite !calls_app, !saved_app, Pc, Pi, Sc, Si. split; reflexivity.
Qed.

Lemma single_shot_saves_transform_witness :
  imwrites
    (trace (snd (upscale_image env_3x "in.png" "out.png" 3 true 1024
                               initial_world)))
  = [("out.png"%string, nearest 3 image_500x400)].
Proof.
  assert (Hs : In 3 supported_scales) by (simpl; auto).
  assert (Htick : ticking env_3x).
  { intros n m Hnm. unfold env_3x, env_of. cbn [clock].
    rewrite <- Zlt_Qlt. lia. }
  destruct (single_shot_saves_transform env_3x "in.png" "out.png" 3 true 1024
              image_500x400 (nearest 3 image_500x400) initial_world
              Hs eq_refl eq_refl eq_refl eq_refl eq_refl Htick eq_refl)
    as (w' & E & _ & Sv).
  rewrite E. exact Sv.
Defined.

(** The events the embedding records when the transform raises in a
    single-shot run. *)
Lemma single_shot_failure_recorded
        (env : Env) (input_path output_path : string) (scale : Z)
        (use_gpu : bool) (tile_size : Z) (image : ndarray) (e : Exc)
        (w : World) :
  In scale supported_scales ->
  model_present_after env = true ->
  imread env input_path = Some image ->
  readModel env scale = None ->
  use_tiling (shape1 image) (shape0 image) tile_size = false ->
  upsample env image = inl e -> is_Exception e = true ->
  upscale_image env input_path output_path scale use_gpu tile_size w
  = (inl (SystemExit 1),
     extend w 1
       (preamble env input_path scale image
        ++ [Stdout StartingUpscaling;
            Stdout (UpscalingWithScale scale);
            Upsample image;
            Stdout (ErrorDuringUpscaling e)])).
Proof.
  intros Hs Hm Hi Hr Hu Hup He.
  rewrite (reaches_stage env input_path output_path scale use_gpu tile_size
                         image w Hs Hm Hi Hr).
  unfold upscale_stage, single_shot_branch, sr_upsample.
  rewrite Hu.
  unfold bind, try_except, print, emit, time_time, sys_exit, raise, ret.
  cbn [reads trace]. rewrite Hup, He.
  unfold extend. cbn [reads trace].
  rewrite <- !app_assoc. cbn [app].
  replace (reads w + 1)%nat with (S (reads w)) by lia. reflexivity.
Qed.

(** X13. In a single-shot run, an exception of the transform is fatal: the
    transform was called once, the handler prints
    [Error during upscaling: <exception>], the process exits with status 1
    and no file is written. *)
Theorem single_shot_failure_is_fatal
        (env : Env) (input_path output_path : string) (scale : Z)
        (use_gpu : bool) (tile_size : Z) (image : ndarray) (e : Exc)
        (w : World) :
  In scale supported_scales ->
  model_present_after env = true ->
  imread env input_path = Some image ->
  readModel env scale = None ->
  use_tiling (shape1 image) (shape0 image) tile_size = false ->
  upsample env image = inl e -> is_Exception e = true ->
  exists w',
    upscale_image env input_path output_path scale use_gpu tile_size w
    = (inl (SystemExit 1), w') /\
    upsample_calls (trace w') = upsample_calls (trace w) ++ [image] /\
    In (ErrorDuringUpscaling e) (stdout (trace w')) /\
    imwrites (trace w') = imwrites (trace w).
Proof.
  intros Hs Hm Hi Hr Hu Hup He.
  rewrite (single_shot_failure_recorded env input_path output_path scale
             use_gpu tile_size image e w Hs Hm Hi Hr Hu Hup He).
  eexists. split; [reflexivity|]. unfold extend. cbn [trace].
  destruct (preamble_quiet env input_path scale image) as (Pc & _ & Pi & _).
  rewrite !calls_app, !saved_app, !lines_app, Pc, Pi.
  split; [reflexivity|]. split.
  - apply in_or_app. right. apply in_or_app. right. cbn. auto.
  - cbn. now rewrite app_nil_r.
Qed.

Lemma single_shot_failure_is_fatal_witness :
  fst (upscale_image env_broken_transform "in.png" "out.png" 3 true 1024
                     initial_world)
  = inl (SystemExit 1).
Proof.
  assert (Hs : In 3 supported_scales) by (simpl; auto).
  destruct (single_shot_failure_is_fatal env_broken_transform "in.png"
              "out.png" 3 true 1024 image_500x400
              (OtherError (MsgText "upsample failed")) initial_world
              Hs eq_refl eq_refl eq_refl eq_refl eq_refl eq_refl)
    as (w' & E & _).
  rewrite E. reflexivity.
Defined.

Lemma create_tiles_pair (image : ndarray) (tile_size : Z) :
  create_tiles image tile_size
  = (tiles image tile_size, tile_positions image tile_size).
Proof.
  unfold tiles, tile_positions.
  now destruct (create_tiles image tile_size).
Qed.

Lemma results_proper (env : Env) (ts results : list ndarray) :
  (forall tile, In tile ts ->
     exists r, upsample env tile = inr r /\ proper_shape r) ->
  Forall2 (fun tile r => upsample env tile = inr r) ts results ->
  Forall proper_shape results.
Proof.
  intros Hok H. induction H as [|tile r ts results Hr _ IH]; constructor.
  - destruct (Hok tile (or_introl eq_refl)) as (r' & Hr' & Hp).
    congruence.
  - apply IH. intros x Hx. apply Hok. now right.
Qed.

Lemma tracker_keeps_calls_and_saves (w w' : World) :
  only_adds tracker_event w w' ->
  upsample_calls (trace w') = upsample_calls (trace w) /\
  imwrites (trace w') = imwrites (trace w) /\
  canvas_writes (trace w') = canvas_writes (trace w) /\
  combine_errors (trace w') = combine_errors (trace w).
Proof.
  intros H. split; [now apply calls_only_tracker|]. split.
  - apply (quiet_projection _ tracker_event); [|exact H].
    intros [[]| | | | | | |] He; try discriminate; reflexivity.
  - now apply quiet_tracker.
Qed.

Lemma compose_keeps_calls (w w' : World) :
  only_adds compose_event w w' ->
  upsample_calls (trace w') = upsample_calls (trace w).
Proof.
  intros H. apply (quiet_projection _ compose_event); [|exact H].
  intros [] He; try discriminate; reflexivity.
Qed.

Lemma stage_keeps_saves (w w' : World) :
  only_adds stage_event w w' -> imwrites (trace w') = imwrites (trace w).
Proof.
  intros H. apply (quiet_projection _ stage_event); [|exact H].
  intros [] He; try discriminate; reflexivity.
Qed.

(** The tiled branch when every transform call succeeds. *)
Lemma tiled_branch_succeeds (env : Env) (image : ndarray)
      (scale tile_size : Z) (w : World) :
  1 <= shape1 image -> 1 <= shape0 image -> 0 < tile_size -> 1 <= scale ->
  (forall tile, In tile (tiles image tile_size) ->
     exists r, upsample env tile = inr r /\ proper_shape r) ->
  exists results canvas w',
    tiled_branch env image scale tile_size w = (inr canvas, w') /\
    Forall2 (fun tile r => upsample env tile = inr r)
            (tiles image tile_size) results /\
    shape0 canvas = shape0 image * scale /\
    shape1 canvas = shape1 image * scale /\
    (forall i j,
       item canvas i j
       = composite_pixel scale
           (combine (tile_positions image tile_size) results)
           (0, 0, 0) i j) /\
    upsample_calls (trace w')
    = upsample_calls (trace w) ++ tiles image tile_size /\
    combine_errors (trace w') = combine_errors (trace w) /\
    canvas_writes (trace w')
    = canvas_writes (trace w)
      ++ map (fun pt => cropped_target scale (fst pt) (snd pt))
             (combine (tile_positions image tile_size) results) /\
    imwrites (trace w') = imwrites (trace w).
Proof.
  intros Hw Hh Ht Hs Hok.
  pose proof (emits_tiled_branch env image scale tile_size w) as Hstage.
  unfold tiled_branch in *. rewrite create_tiles_pair in *.
  unfold bind at 1 in Hstage. unfold bind at 1.
  unfold print at 1 in Hstage. unfold print at 1.
  unfold emit at 1 in Hstage. unfold emit at 1.
  unfold bind at 1 in Hstage. unfold bind at 1.
  unfold print at 1 in Hstage. unfold print at 1.
  unfold emit at 1 in Hstage. unfold emit at 1.
  unfold bind at 1 in Hstage. unfold bind at 1.
  unfold print at 1 in Hstage. unfold print at 1.
  unfold emit at 1 in Hstage. unfold emit at 1.
  unfold bind at 1 in Hstage. unfold bind at 1.
  unfold Tracker.init at 1 in Hstage. unfold Tracker.init at 1.
  unfold bind at 1 in Hstage. unfold bind at 1.
  unfold time_time at 1 in Hstage. unfold time_time at 1.
  unfold ret at 1 in Hstage. unfold ret at 1.
  cbn [reads trace] in *.
  unfold bind at 1 in Hstage. unfold bind at 1.
  match type of Hstage with context [executor_map env _ (Some ?t0) ?w4] =>
    destruct (executor_map_succeeds env (tiles image tile_size) t0 w4)
      as (results & t1 & w5 & progress & E5 & F5 & _ & _ & U5 & S5 & L5
          & _ & W5);
      [intros tile Hin; destruct (Hok tile Hin) as (r & Hr & _); eauto|]
  end.
  assert (R5 : combine_errors (trace w5)
               = combine_errors (trace w ++ [Stdout (LargeImageDetected (shape1 image) (shape0 image))]
                                 ++ [Stdout (DividingImage
                                               (num_tiles_x (shape1 image) tile_size)
                                               (num_tiles_y (shape0 image) tile_size)
                                               (total_tiles (shape1 image) (shape0 image) tile_size))]
                                 ++ [Stdout (UsingCpuCores (cpu_count env))])).
  { unfold combine_errors. rewrite S5, filter_app.
    rewrite (no_errors_in_progress progress L5), app_nil_r.
    cbn [trace]. now rewrite <- !app_assoc. }
  rewrite E5 in *. cbn [or_tracker] in *.
  unfold bind at 1 in Hstage. unfold bind at 1.
  destruct (complete_returns env t1 w5) as (w6 & E6 & A6).
  rewrite E6 in *.
  destruct (tracker_keeps_calls_and_saves _ _ A6) as (U6 & _ & W6 & R6).
  unfold bind at 1 in Hstage. unfold bind at 1.
  unfold print at 1 in Hstage. unfold print at 1.
  unfold emit at 1 in Hstage. unfold emit at 1.
  unfold bind at 1 in Hstage. unfold bind at 1.
  unfold Tracker.init at 1 in Hstage. unfold Tracker.init at 1.
  unfold bind at 1 in Hstage. unfold bind at 1.
  unfold time_time at 1 in Hstage. unfold time_time at 1.
  unfold ret at 1 in Hstage. unfold ret at 1.
  cbn [reads trace] in *.
  unfold bind at 1 in Hstage. unfold bind at 1.
  pose proof (results_proper env _ results Hok F5) as Hproper.
  match type of Hstage with
    context [combine_loop env scale _ _ 0 ?pairs (?u0, ?t0) ?w8] =>
    destruct (combine_loop_any env scale (shape1 image) (shape0 image) pairs
                Hs (pairs_proper image tile_size results Hw Hh Ht Hproper)
                0 u0 t0 w8 eq_refl eq_refl)
      as (canvas & t9 & w9 & E9 & S0 & S1 & I9 & W9 & R9 & _);
    pose proof (emits_compose_loop env scale (shape1 image * scale)
                  (shape0 image * scale) pairs 0 (u0, t0) w8) as A9
  end.
  rewrite E9 in *. cbn [snd] in A9.
  pose proof (compose_keeps_calls _ _ A9) as U9.
  unfold bind at 1 in Hstage. unfold bind at 1.
  destruct (complete_returns env t9 w9) as (w10 & E10 & A10).
  rewrite E10 in *. unfold ret in *. cbn [snd] in Hstage.
  destruct (tracker_keeps_calls_and_saves _ _ A10) as (U10 & _ & W10 & R10).
  exists results, canvas, w10. split; [reflexivity|].
  split; [exact F5|]. split; [exact S0|]. split; [exact S1|].
  split; [exact I9|].
  rewrite U10, U9, R10, R9, W10, W9. cbn [trace].
  rewrite !calls_app, !errors_app, !writes_app, U6, R6, W6, U5, W5, R5.
  cbn [trace]. rewrite !calls_app, !errors_app, !writes_app.
  cbn. rewrite !app_nil_r.
  split; [reflexivity|]. split; [reflexivity|]. split; [reflexivity|].
  now apply stage_keeps_saves.
Qed.

Lemma supported_scale_positive (scale : Z) :
  In scale supported_scales -> 1 <= scale.
Proof. cbn. intros [<-|[<-|[<-|[]]]]; lia. Qed.

(** X14. A tiled run that meets no failure, end to end.  With a supported
    scale, the model at hand, a readable input that calls for tiling, a
    clock whose readings increase, a transform that succeeds on every tile
    and a writer that accepts the file, [upscale_image] returns normally;
    the calls it has made to the transform are, in some order, the tiles,
    each once; no [Error combining tile] line was printed; and exactly one
    image was written, to [output_path]: a canvas of [height * scale] rows
    and [width * scale] columns in which every pixel is the one that the
    results, taken in tile order and stored as [uint8] over zeros, leave
    there. *)
Theorem tiled_run_saves_composite
        (env : Env) (input_path output_path : string) (scale : Z)
        (use_gpu : bool) (tile_size : Z) (image : ndarray) (w : World) :
  In scale supported_scales ->
  model_present_after env = true ->
  imread env input_path = Some image ->
  readModel env scale = None ->
  proper_shape image ->
  use_tiling (shape1 image) (shape0 image) tile_size = true ->
  ticking env ->
  (forall tile, In tile (tiles image tile_size) ->
     exists r, upsample env tile = inr r /\ proper_shape r) ->
  (forall canvas, imwrite env output_path canvas = None) ->
  exists results canvas w',
    upscale_image env input_path output_path scale use_gpu tile_size w
    = (inr tt, w') /\
    Forall2 (fun tile r => upsample env tile = inr r)
            (tiles image tile_size) results /\
    Permutation (upsample_calls (trace w'))
                (upsample_calls (trace w) ++ tiles image tile_size) /\
    combine_errors (trace w') = combine_errors (trace w) /\
    imwrites (trace w') = imwrites (trace w) ++ [(output_path, canvas)] /\
    shape0 canvas = shape0 image * scale /\
    shape1 canvas = shape1 image * scale /\
    forall i j,
      item canvas i j
      = composite_pixel scale
          (combine (tile_positions image tile_size) results) (0, 0, 0) i j.
Proof.
  intros Hs Hm Hi Hr [Hh0 Hw0] Hu Htick Hok Hsave.
  pose proof (supported_scale_positive scale Hs) as Hs1.
  pose proof (proj1 (use_tiling_spec _ _ _) Hu) as (Ht & _ & Harea).
  assert (Hw : 1 <= shape1 image) by nia.
  assert (Hh : 1 <= shape0 image) by nia.
  rewrite (reaches_stage env input_path output_path scale use_gpu tile_size
                         image w Hs Hm Hi Hr).
  destruct (preamble_quiet env input_path scale image) as (Pc & _ & Pi & Pw).
  unfold upscale_stage. rewrite Hu.
  unfold bind at 1. unfold bind at 1. unfold print at 1. unfold emit at 1.
  unfold bind at 1. unfold time_time at 1. cbn [reads trace].
  unfold try_except. unfold bind at 1.
  match goal with |- context [tiled_branch env image scale tile_size ?w2] =>
    destruct (tiled_branch_succeeds env image scale tile_size w2
                                    Hw Hh ltac:(lia) Hs1 Hok)
      as (results & canvas & w3 & E3 & F3 & S0 & S1 & I3 & U3 & R3 & _ & Sv3);
    pose proof (keeps_tiled_branch env image scale tile_size w2) as K3
  end.
  rewrite E3 in *. cbn [snd reads trace] in K3, U3, R3, Sv3.
  unfold bind at 1. unfold time_time at 1.
  unfold bind at 1. unfold print at 1. unfold emit at 1.
  unfold bind at 1. unfold truediv at 1.
  assert (Hel : Qeq_bool (clock env (reads w3) - clock env (reads w)) 0
                = false).
  { apply elapsed_nonzero. intros Heq.
    assert (Hlt : (clock env (reads w) < clock env (reads w3))%Q)
      by (apply Htick; lia).
    rewrite Heq in Hlt. now apply Qlt_irrefl in Hlt. }
  cbn [reads trace]. rewrite Hel. unfold ret at 1.
  unfold bind at 1. unfold truediv at 1. rewrite Hel. unfold ret at 1.
  unfold bind at 1. unfold print at 1. unfold emit at 1.
  unfold bind at 1. unfold print at 1. unfold emit at 1.
  unfold ret at 1. cbn [reads trace].
  unfold save_stage, try_except.
  unfold bind at 1. unfold print at 1. unfold emit at 1.
  unfold bind at 1. unfold emit at 1. rewrite Hsave.
  unfold print at 1. unfold emit at 1. cbn [reads trace].
  exists results, canvas. eexists. split; [reflexivity|].
  split; [exact F3|]. cbn [trace].
  rewrite !calls_app, !errors_app, !saved_app, U3, R3, Sv3.
  rewrite !calls_app, !errors_app, !saved_app, Pc, Pi.
  cbn. rewrite !app_nil_r.
  assert (Pe : combine_errors (preamble env input_path scale image) = []).
  { unfold preamble. now destruct (model_on_disk env). }
  rewrite Pe, app_nil_r. auto 10.
Qed.

Lemma tiled_run_saves_composite_witness :
  exists canvas,
    imwrites (trace (snd run_2000x1500)) = [("out.png"%string, canvas)] /\
    shape0 canvas = 3000 /\ shape1 canvas = 4000.
Proof.
  destruct (tiled_run_saves_composite env_2x "in.png" "out.png" 2 true 1024
              image_2000x1500 initial_world)
    as (results & canvas & w' & E & _ & _ & _ & Sv & S0 & S1 & _);
    try reflexivity.
  - simpl. auto.
  - split; simpl; lia.
  - intros n m Hnm. unfold env_2x, env_of. cbn [clock].
    rewrite <- Zlt_Qlt. lia.
  - intros tile Hin. exists (nearest 2 tile). split; [reflexivity|].
    revert tile Hin. apply Forall_forall.
    repeat (constructor; [split; vm_compute; discriminate|]). constructor.
  - exists canvas. unfold run_2000x1500. rewrite E. cbn [snd].
    split; [exact Sv|]. split; [exact S0 | exact S1].
Defined.

End WholeRunFacts.

(** ** Downloading the models *)
Module DownloadFacts.
Import TrackerFacts TraceFacts DispatchFacts Download.

Lemma hook_returns (env : Env) (t : ProgressTracker)
      (block_num block_size total_size : Z) (w : World) :
  exists t' w',
    download_progress env t block_num block_size total_size w = (inr t', w')
    /\ total t' = total t.
Proof.
  unfold download_progress. destruct (Z.gtb_spec total_size 0) as [H|H].
  - unfold bind at 1. rewrite truediv_inject_Z by lia.
    unfold bind.
    match goal with |- context [display env ?t1 w] =>
      destruct (display_returns env t1 w) as (ls & -> & _)
    end.
    eexists _, _. split; reflexivity.
  - eexists _, _. split; reflexivity.
Qed.

Lemma said_app (t1 t2 : list DEvent) : said (t1 ++ t2) = said t1 ++ said t2.
Proof. unfold said. apply flat_map_app. Qed.

Lemma retrievals_app (t1 t2 : list DEvent) :
  retrievals (t1 ++ t2) = (retrievals t1 + retrievals t2)%nat.
Proof. unfold retrievals. now rewrite filter_app, length_app. Qed.

Lemma extractions_app (t1 t2 : list DEvent) :
  extractions (t1 ++ t2) = (extractions t1 + extractions t2)%nat.
Proof. unfold extractions. now rewrite filter_app, length_app. Qed.

Lemma core_is_silent (evs : list Event) :
  said (map Core evs) = [] /\ retrievals (map Core evs) = 0%nat
  /\ extractions (map Core evs) = 0%nat.
Proof.
  induction evs as [|e evs (I1 & I2 & I3)]; [repeat split|].
  repeat split; assumption.
Qed.

Lemma tracker_only_silent (dw dw' : DWorld) :
  tracker_only dw dw' ->
  files dw' = files dw /\
  said (dtrace dw') = said (dtrace dw) /\
  retrievals (dtrace dw') = retrievals (dtrace dw) /\
  extractions (dtrace dw') = extractions (dtrace dw).
Proof.
  intros (Hf & evs & ->). destruct (core_is_silent evs) as (S1 & S2 & S3).
  rewrite said_app, retrievals_app, extractions_app, S1, S2, S3.
  rewrite app_nil_r, !Nat.add_0_r. auto.
Qed.

Lemma tracker_only_refl (dw : DWorld) : tracker_only dw dw.
Proof. split; [reflexivity|]. exists []. cbn. now rewrite app_nil_r. Qed.

Lemma tracker_only_trans (d1 d2 d3 : DWorld) :
  tracker_only d1 d2 -> tracker_only d2 d3 -> tracker_only d1 d3.
Proof.
  intros (F1 & e1 & T1) (F2 & e2 & T2). split; [congruence|].
  exists (e1 ++ e2). rewrite T2, T1, map_app, app_assoc. reflexivity.
Qed.

Lemma lift_returns {A} (m : M A) (dw : DWorld) (a : A) (w' : World) :
  m {| reads := dreads dw; trace := [] |} = (inr a, w') ->
  exists dw', lift m dw = (inr a, dw') /\ tracker_only dw dw'.
Proof.
  intros E. unfold lift. rewrite E. eexists. split; [reflexivity|].
  split; [reflexivity|]. eexists. reflexivity.
Qed.

Lemma report_all_returns (env : Env) (t : ProgressTracker)
      (calls : list (Z * Z * Z)) (dw : DWorld) :
  exists t' dw',
    report_all env t calls dw = (inr t', dw') /\ tracker_only dw dw'.
Proof.
  revert t dw. induction calls as [|[[bn bs] ts] rest IH]; intros t dw;
    cbn [report_all].
  - exists t, dw. split; [reflexivity | apply tracker_only_refl].
  - destruct (hook_returns env t bn bs ts
                {| reads := dreads dw; trace := [] |}) as (t1 & w1 & E1 & _).
    destruct (lift_returns _ dw t1 w1 E1) as (dw1 & L1 & F1).
    destruct (IH t1 dw1) as (t2 & dw2 & E2 & F2).
    exists t2, dw2. unfold dbind. rewrite L1, E2.
    split; [reflexivity|]. eapply tracker_only_trans; eassumption.
Qed.

Lemma lift_complete_returns (env : Env) (t : ProgressTracker) (dw : DWorld) :
  exists t' dw', lift (complete env t) dw = (inr t', dw')
                 /\ tracker_only dw dw'.
Proof.
  destruct (complete_returns env t {| reads := dreads dw; trace := [] |})
    as (w' & E & _).
  destruct (lift_returns _ dw _ w' E) as (dw' & L & F). eauto.
Qed.

Lemma lift_init_returns (env : Env) (n : Z) (d : string) (dw : DWorld) :
  exists t dw', lift (Tracker.init env n d) dw = (inr t, dw')
                /\ tracker_only dw dw'.
Proof.
  eapply ex_intro.
  destruct (lift_returns (Tracker.init env n d) dw _ _ eq_refl)
    as (dw' & L & F).
  exists dw'. split; [exact L | exact F].
Qed.

(** X16. When the three model files are already in the models directory,
    [download_edsr_models] creates the directory if it is missing, prints
    that all models are present and returns: it does not touch the network,
    the archive or the files. *)
Theorem download_skipped_when_models_present (env : Env) (remote : Remote)
        (dw : DWorld) :
  has_model (files dw) 2 = true ->
  has_model (files dw) 3 = true ->
  has_model (files dw) 4 = true ->
  download_edsr_models_fs env remote dw
  = (inr tt,
     {| dreads := dreads dw;
        dtrace := dtrace dw
                  ++ (if models_dir (files dw) then [] else [Makedirs])
                  ++ [Say AllModelsPresent];
        files := {| models_dir := true; models := models (files dw) |} |}).
Proof.
  intros H2 H3 H4. unfold download_edsr_models_fs.
  unfold dbind at 1. unfold ensure_models_directory.
  unfold has_model in *.
  destruct dw as [n t [dir ms]]. cbn [files models_dir models] in *.
  destruct dir; unfold dbind, model_exists, has_model, tell, demit;
    cbn [files models_dir models dreads dtrace];
    rewrite H2, H3, H4; cbn [andb app].
  - reflexivity.
  - cbn [dreads dtrace files]. rewrite <- app_assoc. reflexivity.
Qed.

Lemma download_skipped_when_models_present_witness :
  download_edsr_models_fs env_2x network_down (start_with all_models)
  = (inr tt,
     {| dreads := 0; dtrace := [Say AllModelsPresent]; files := all_models |}).
Proof.
  rewrite (download_skipped_when_models_present env_2x network_down
             (start_with all_models)); reflexivity.
Defined.

Lemma ensure_returns (dw : DWorld) :
  exists dw1,
    ensure_models_directory dw = (inr tt, dw1) /\
    models (files dw1) = models (files dw) /\
    models_dir (files dw1) = true /\
    said (dtrace dw1) = said (dtrace dw) /\
    retrievals (dtrace dw1) = retrievals (dtrace dw) /\
    extractions (dtrace dw1) = extractions (dtrace dw).
Proof.
  unfold ensure_models_directory. destruct (models_dir (files dw)) eqn:Hd.
  - exists dw. auto 10.
  - eexists. split; [reflexivity|]. cbn [files models models_dir dtrace].
    rewrite said_app, retrievals_app, extractions_app. cbn.
    rewrite app_nil_r, !Nat.add_0_r. auto 10.
Qed.

Lemma has_model_same (f1 f2 : Files) (s : Z) :
  models f1 = models f2 -> has_model f1 s = has_model f2 s.
Proof. unfold has_model. now intros ->. Qed.

Lemma copy_models_ok (remote : Remote) (scales : list Z) (dw : DWorld) :
  (forall s, copy_error remote s = None) ->
  exists dw',
    copy_models remote scales dw = (inr tt, dw') /\
    models_dir (files dw') = models_dir (files dw) /\
    (forall s, has_model (files dw') s
               = has_model (files dw) s
                 || (existsb (Z.eqb s) scales
                     && existsb (Z.eqb s) (package remote))) /\
    said (dtrace dw') = said (dtrace dw) ++ map (copy_line remote) scales /\
    retrievals (dtrace dw') = retrievals (dtrace dw) /\
    extractions (dtrace dw') = extractions (dtrace dw).
Proof.
  intros Hcopy. revert dw.
  induction scales as [|scale rest IH]; intros dw; cbn [copy_models].
  - exists dw. split; [reflexivity|]. split; [reflexivity|].
    split; [intros s; cbn; now rewrite orb_false_r|].
    cbn. rewrite app_nil_r. auto.
  - unfold dbind at 1. unfold copy_model, copy_line at 1.
    destruct (existsb (Z.eqb scale) (package remote)) eqn:Hpkg.
    + unfold dbind at 1. unfold demit at 1.
      rewrite Hcopy. unfold dbind at 1. unfold add_model, tell, demit.
      cbn [dreads dtrace files].
      match goal with |- context [copy_models remote rest ?d1] =>
        destruct (IH d1) as (dw' & E & Hd & Hm & Hs & Hr & He)
      end.
      exists dw'. rewrite E. split; [reflexivity|].
      cbn [files models_dir models dtrace] in *.
      split; [exact Hd|]. split.
      * intros s. rewrite Hm. unfold has_model. cbn [models existsb].
        destruct (Z.eqb_spec s scale) as [->|Hne].
        -- rewrite Hpkg. cbn. now rewrite orb_true_r.
        -- cbn. reflexivity.
      * rewrite Hs, Hr, He.
        rewrite !said_app, !retrievals_app, !extractions_app. cbn.
        rewrite <- !app_assoc, !Nat.add_0_r. cbn. rewrite Hpkg. auto.
    + unfold tell, demit.
      match goal with |- context [copy_models remote rest ?d1] =>
        destruct (IH d1) as (dw' & E & Hd & Hm & Hs & Hr & He)
      end.
      exists dw'. rewrite E. split; [reflexivity|].
      cbn [files models_dir models dtrace] in *.
      split; [exact Hd|]. split.
      * intros s. rewrite Hm. cbn [existsb].
        destruct (Z.eqb_spec s scale) as [->|Hne].
        -- rewrite Hpkg. cbn. now rewrite andb_false_r.
        -- cbn. reflexivity.
      * rewrite Hs, Hr, He.
        rewrite !said_app, !retrievals_app, !extractions_app. cbn.
        rewrite <- !app_assoc, !Nat.add_0_r. cbn. rewrite Hpkg. auto.
Qed.

Lemma retrieve_phase (env : Env) (remote : Remote) (t : ProgressTracker)
      (dw : DWorld) :
  let phase :=
    dtry is_Exception
      (t' <~ urlretrieve env remote t ;; lift (complete env t') ;;; dret tt)
      (fun e => tell (ErrorDownloading e) ;;; draise (SystemExit 1)) in
  (retrieve_error remote = None ->
   exists dw',
     phase dw = (inr tt, dw') /\ files dw' = files dw /\
     said (dtrace dw') = said (dtrace dw) /\
     retrievals (dtrace dw') = S (retrievals (dtrace dw)) /\
     extractions (dtrace dw') = extractions (dtrace dw)) /\
  (forall e, retrieve_error remote = Some e -> is_Exception e = true ->
   exists dw',
     phase dw = (inl (SystemExit 1), dw') /\ files dw' = files dw /\
     said (dtrace dw') = said (dtrace dw) ++ [ErrorDownloading e] /\
     retrievals (dtrace dw') = S (retrievals (dtrace dw)) /\
     extractions (dtrace dw') = extractions (dtrace dw)).
Proof.
  cbv zeta.
  destruct (report_all_returns env t (reports remote)
              {| dreads := dreads dw; dtrace := dtrace dw ++ [Urlretrieve];
                 files := files dw |}) as (t1 & dw1 & E1 & F1).
  destruct (tracker_only_silent _ _ F1) as (Ff1 & S1 & R1 & X1).
  cbn [files dtrace] in Ff1, S1, R1, X1.
  rewrite said_app, retrievals_app, extractions_app in *.
  cbn in S1, R1, X1. rewrite app_nil_r in S1.
  split.
  - intros Hre. unfold dtry, urlretrieve, dbind, demit.
    rewrite E1, Hre. unfold dret at 1.
    destruct (lift_complete_returns env t1 dw1) as (t2 & dw2 & E2 & F2).
    destruct (tracker_only_silent _ _ F2) as (Ff2 & S2 & R2 & X2).
    rewrite E2. unfold dret. exists dw2. split; [reflexivity|].
    split; [congruence|]. split; [congruence|]. split; lia.
  - intros e Hre He. unfold dtry, urlretrieve, dbind, demit.
    rewrite E1, Hre. unfold draise at 1. rewrite He.
    unfold tell, demit, draise. eexists. split; [reflexivity|].
    cbn [files dtrace]. rewrite said_app, retrievals_app, extractions_app.
    cbn. split; [exact Ff1|]. split; [now rewrite S1|]. split; lia.
Qed.

Lemma extract_phase (remote : Remote) (dw : DWorld) :
  let phase :=
    dtry is_Exception
      (demit Extractall ;;;
       match extract_error remote with
       | Some e => draise e
       | None => copy_models remote [2; 3; 4] ;;; tell ExtractionComplete
       end)
      (fun e => tell (ErrorExtracting e) ;;; draise (SystemExit 1)) in
  (extract_error remote = None -> (forall s, copy_error remote s = None) ->
   exists dw',
     phase dw = (inr tt, dw') /\
     models_dir (files dw') = models_dir (files dw) /\
     (forall s, has_model (files dw') s
                = has_model (files dw) s
                  || (existsb (Z.eqb s) [2; 3; 4]
                      && existsb (Z.eqb s) (package remote))) /\
     said (dtrace dw')
     = said (dtrace dw) ++ map (copy_line remote) [2; 3; 4]
       ++ [ExtractionComplete] /\
     retrievals (dtrace dw') = retrievals (dtrace dw) /\
     extractions (dtrace dw') = S (extractions (dtrace dw))) /\
  (forall e, extract_error remote = Some e -> is_Exception e = true ->
   exists dw',
     phase dw = (inl (SystemExit 1), dw') /\ files dw' = files dw /\
     said (dtrace dw') = said (dtrace dw) ++ [ErrorExtracting e] /\
     retrievals (dtrace dw') = retrievals (dtrace dw)).
Proof.
  cbv zeta. split.
  - intros Hex Hcopy. unfold dtry. unfold dbind at 1. unfold demit at 1.
    rewrite Hex. unfold dbind at 1.
    match goal with |- context [copy_models remote [2; 3; 4] ?d1] =>
      destruct (copy_models_ok remote [2; 3; 4] d1 Hcopy)
        as (dw1 & E1 & Hd & Hm & Hs & Hr & He)
    end.
    rewrite E1. unfold tell, demit. eexists. split; [reflexivity|].
    cbn [files models_dir dtrace] in *.
    split; [exact Hd|]. split; [exact Hm|].
    rewrite !said_app, !retrievals_app, !extractions_app, Hs, Hr, He.
    rewrite !said_app, !retrievals_app, !extractions_app. cbn.
    rewrite <- !app_assoc. cbn. split; [reflexivity|]. split; lia.
  - intros e Hex He. unfold dtry. unfold dbind at 1. unfold demit at 1.
    rewrite Hex. unfold draise at 1. rewrite He.
    unfold dbind, tell, demit, draise. eexists. split; [reflexivity|].
    cbn [files dtrace]. rewrite !said_app, !retrievals_app. cbn.
    rewrite <- !app_assoc. cbn. split; [reflexivity|].
    split; [reflexivity | lia].
Qed.

(** The part of [download_edsr_models] before the network is used. *)
Lemma download_starts (env : Env) (remote : Remote) (dw : DWorld)
      (rest : ProgressTracker -> MD unit) :
  has_model (files dw) 2 && has_model (files dw) 3 && has_model (files dw) 4
  = false ->
  exists t dw3,
    (ensure_models_directory ;;;
     x2 <~ model_exists 2 ;;
     x3 <~ model_exists 3 ;;
     x4 <~ model_exists 4 ;;
     if x2 && x3 && x4 then tell AllModelsPresent
     else
       tell DownloadingModels ;;;
       download_tracker <~ lift (Tracker.init env 100 "Downloading") ;;
       rest download_tracker) dw
    = rest t dw3 /\
    models (files dw3) = models (files dw) /\
    models_dir (files dw3) = true /\
    said (dtrace dw3) = said (dtrace dw) ++ [DownloadingModels] /\
    retrievals (dtrace dw3) = retrievals (dtrace dw) /\
    extractions (dtrace dw3) = extractions (dtrace dw).
Proof.
  intros Hmiss.
  destruct (ensure_returns dw) as (dw1 & E1 & M1 & D1 & S1 & R1 & X1).
  unfold dbind at 1. rewrite E1.
  unfold dbind at 1 2 3. unfold model_exists.
  rewrite !(has_model_same (files dw1) (files dw)) by exact M1.
  rewrite Hmiss. unfold dbind at 1. unfold tell at 1. unfold demit at 1.
  cbv beta iota. unfold dbind at 1.
  match goal with |- context [lift (Tracker.init env 100 ?d) ?d2] =>
    destruct (lift_init_returns env 100 d d2) as (t & dw3 & E3 & F3)
  end.
  destruct (tracker_only_silent _ _ F3) as (Ff3 & S3 & R3 & X3).
  cbn [files dtrace] in Ff3, S3, R3, X3.
  rewrite said_app, retrievals_app, extractions_app in *.
  cbn in S3, R3, X3.
  exists t, dw3. rewrite E3.
  split; [reflexivity|]. rewrite Ff3, S3, R3, X3, S1, R1, X1.
  split; [exact M1|]. split; [exact D1|]. split; [reflexivity|].
  split; lia.
Qed.

(** X17. A download that meets no failure installs what the archive holds
    and nothing else: when a model is missing and the retrieval, the
    extraction and the copies succeed, [download_edsr_models] returns
    normally after one retrieval and one extraction; afterwards the model
    for a scale is in the models directory exactly if it was there before
    or the archive holds it for one of the scales 2, 3 and 4.  A model the
    archive lacks only produces a warning line, so the call can return
    normally without the model its caller needs. *)
Theorem download_installs_packaged_models (env : Env) (remote : Remote)
        (dw : DWorld) :
  has_model (files dw) 2 && has_model (files dw) 3 && has_model (files dw) 4
  = false ->
  retrieve_error remote = None ->
  extract_error remote = None ->
  (forall s, copy_error remote s = None) ->
  exists dw',
    download_edsr_models_fs env remote dw = (inr tt, dw') /\
    models_dir (files dw') = true /\
    (forall s, has_model (files dw') s
               = has_model (files dw) s
                 || (existsb (Z.eqb s) [2; 3; 4]
                     && existsb (Z.eqb s) (package remote))) /\
    said (dtrace dw')
    = said (dtrace dw)
      ++ [DownloadingModels; ExtractingModels]
      ++ map (copy_line remote) [2; 3; 4] ++ [ExtractionComplete] /\
    retrievals (dtrace dw') = S (retrievals (dtrace dw)) /\
    extractions (dtrace dw') = S (extractions (dtrace dw)).
Proof.
  intros Hmiss Hre Hex Hcopy. unfold download_edsr_models_fs.
  match goal with |- context [lift (Tracker.init env 100 _)] =>
    match goal with |- context [dbind (lift _) ?k] =>
      destruct (download_starts env remote dw k Hmiss)
        as (t & dw3 & E3 & M3 & D3 & S3 & R3 & X3)
    end
  end.
  rewrite E3. clear E3.
  unfold dbind at 1.
  destruct (proj1 (retrieve_phase env remote t dw3) Hre)
    as (dw4 & E4 & F4 & S4 & R4 & X4).
  rewrite E4. unfold dbind at 1. unfold tell at 1. unfold demit at 1.
  match goal with |- context [dtry is_Exception _ _ ?d5] =>
    destruct (proj1 (extract_phase remote d5) Hex Hcopy)
      as (dw6 & E6 & D6 & M6 & S6 & R6 & X6)
  end.
  rewrite E6. exists dw6. split; [reflexivity|].
  cbn [files models_dir dtrace] in *.
  rewrite said_app, retrievals_app, extractions_app in *. cbn in S6, R6, X6.
  split; [congruence|]. split.
  - intros s. rewrite M6. f_equal. apply has_model_same. congruence.
  - rewrite S6, R6, X6, S4, R4, X4, S3, R3, X3.
    rewrite <- !app_assoc. cbn. split; [reflexivity|]. split; lia.
Qed.

Lemma download_installs_packaged_models_witness :
  exists dw',
    download_edsr_models_fs env_2x partial_package (start_with no_models)
    = (inr tt, dw') /\
    has_model (files dw') 2 = true /\
    has_model (files dw') 3 = false /\
    has_model (files dw') 4 = true.
Proof.
  destruct (download_installs_packaged_models env_2x partial_package
              (start_with no_models))
    as (dw' & E & _ & Hm & _); try reflexivity.
  exists dw'. split; [exact E|]. rewrite !Hm. repeat split.
Defined.

(** X18. A failed download is fatal and leaves the models directory as it
    was: when a model is missing and the retrieval raises, or the retrieval
    succeeds and the extraction raises, [download_edsr_models] prints the
    error and exits with status 1, and the set of model files is unchanged;
    after a failed retrieval the archive is never opened. *)
Theorem download_failure_exits (env : Env) (remote : Remote) (dw : DWorld)
        (e : Exc) :
  has_model (files dw) 2 && has_model (files dw) 3 && has_model (files dw) 4
  = false ->
  is_Exception e = true ->
  (retrieve_error remote = Some e ->
   exists dw',
     download_edsr_models_fs env remote dw = (inl (SystemExit 1), dw') /\
     models (files dw') = models (files dw) /\
     said (dtrace dw')
     = said (dtrace dw) ++ [DownloadingModels; ErrorDownloading e] /\
     extractions (dtrace dw') = extractions (dtrace dw)) /\
  (retrieve_error remote = None -> extract_error remote = Some e ->
   exists dw',
     download_edsr_models_fs env remote dw = (inl (SystemExit 1), dw') /\
     models (files dw') = models (files dw) /\
     said (dtrace dw')
     = said (dtrace dw)
       ++ [DownloadingModels; ExtractingModels; ErrorExtracting e]).
Proof.
  intros Hmiss He. unfold download_edsr_models_fs.
  match goal with |- context [lift (Tracker.init env 100 _)] =>
    match goal with |- context [dbind (lift _) ?k] =>
      destruct (download_starts env remote dw k Hmiss)
        as (t & dw3 & E3 & M3 & D3 & S3 & R3 & X3)
    end
  end.
  rewrite E3. clear E3. split.
  - intros Hre. unfold dbind at 1.
    destruct (proj2 (retrieve_phase env remote t dw3) e Hre He)
      as (dw4 & E4 & F4 & S4 & R4 & X4).
    rewrite E4. exists dw4. split; [reflexivity|].
    split; [congruence|]. rewrite S4, X4, S3, X3, <- app_assoc.
    split; reflexivity.
  - intros Hre Hex. unfold dbind at 1.
    destruct (proj1 (retrieve_phase env remote t dw3) Hre)
      as (dw4 & E4 & F4 & S4 & R4 & X4).
    rewrite E4. unfold dbind at 1. unfold tell at 1. unfold demit at 1.
    match goal with |- context [dtry is_Exception _ _ ?d5] =>
      destruct (proj2 (extract_phase remote d5) e Hex He)
        as (dw6 & E6 & F6 & S6 & R6)
    end.
    rewrite E6. exists dw6. split; [reflexivity|].
    cbn [files dtrace] in *. rewrite said_app in S6. cbn in S6.
    split; [congruence|]. rewrite S6, S4, S3, <- !app_assoc. reflexivity.
Qed.

Lemma download_failure_exits_witness :
  exists dw',
    download_edsr_models_fs env_2x network_down (start_with no_models)
    = (inl (SystemExit 1), dw') /\
    models (files dw') = [] /\
    extractions (dtrace dw') = 0%nat.
Proof.
  destruct (proj1 (download_failure_exits env_2x network_down
                     (start_with no_models)
                     (OtherError (MsgText "connection reset"))
                     eq_refl eq_refl) eq_refl)
    as (dw' & E & Hm & _ & Hx).
  exists dw'. split; [exact E|]. split; [exact Hm | exact Hx].
Defined.

End DownloadFacts.
